(** * TelegramFUSE: a shallow embedding of the filesystem engine

    The development follows the two source files of the repository:

    - [TelegramFUSE.py]: the client of the remote channel
      ([TelegramFileClient]: upload with chunking and optional Fernet
      encryption, download, content cache, deletion);
    - [fuse_impl.py]: the filesystem operations ([Operations]: the sqlite
      tables [inodes], [contents], [telegram_messages], the upcalls, the
      process-wide write buffer and the open-count map).

    Python code that raises is modelled in a state-and-exception monad: an
    upcall maps a [world] to a [result] (a value or the raised exception)
    and the world at that point; effects made before a raise stay, as they
    do in Python. *)

From Stdlib Require Import ZArith Lia String Ascii.
From Stdlib.Strings Require Import Byte.
From stdpp Require Import gmap list strings pretty.

Local Open Scope Z_scope.

(* ===================================================================== *)
(** ** Python values: bytes, slices, names *)
(* ===================================================================== *)

(** [bytes] and [bytearray] values. *)
Abbreviation bytes := (list byte).

#[global] Instance byte_eq_decision : EqDecision byte := byte_eq_dec.

(** [len(x)] as a Python integer. *)
Definition len {A} (l : list A) : Z := Z.of_nat (length l).

(** [x[a:b]] for non-negative [a], [b] (the only slices the code takes):
    the elements at positions [a <= i < min b (len x)], none when [b <= a]. *)
Definition slice {A} (a b : nat) (l : list A) : list A :=
  take (b - a)%nat (drop a l).

(** A file name as the code can hold it: the kernel hands [bytes] to the
    upcalls; the literals ['.'] and ['..'] that [lookup] compares against
    are [str]. In Python 3 a [bytes] value never equals a [str] value, and
    sqlite keeps the two storage classes apart as well. *)
Inductive pyname :=
  | NBytes (b : bytes)
  | NStr (s : string).

#[global] Instance pyname_eq_decision : EqDecision pyname.
Proof. solve_decision. Defined.

Definition b_dotdot : pyname := NBytes ["."%byte; "."%byte].

(** *** [bytes.decode()]: strict UTF-8

    [utf8_valid] accepts exactly the well-formed UTF-8 byte sequences
    (shortest form, no surrogates, at most U+10FFFF), on which
    [bytes.decode()] returns; on others it raises [UnicodeDecodeError].
    The decoded [str] is kept as the string of the same bytes. *)

Definition in_range (lo hi : N) (b : byte) : bool :=
  (N.leb lo (Byte.to_N b) && N.leb (Byte.to_N b) hi)%bool.

Definition cont (b : byte) : bool := in_range 128 191 b.

Fixpoint utf8_valid (l : bytes) : bool :=
  match l with
  | [] => true
  | b0 :: r0 =>
    if in_range 0 127 b0 then utf8_valid r0
    else match r0 with
    | [] => false
    | b1 :: r1 =>
      if (in_range 194 223 b0 && cont b1)%bool then utf8_valid r1
      else match r1 with
      | [] => false
      | b2 :: r2 =>
        if ((in_range 224 224 b0 && in_range 160 191 b1
             || in_range 225 236 b0 && cont b1
             || in_range 237 237 b0 && in_range 128 159 b1
             || in_range 238 239 b0 && cont b1) && cont b2)%bool
        then utf8_valid r2
        else match r2 with
        | [] => false
        | b3 :: r3 =>
          if ((in_range 240 240 b0 && in_range 144 191 b1
               || in_range 241 243 b0 && cont b1
               || in_range 244 244 b0 && in_range 128 143 b1)
              && cont b2 && cont b3)%bool
          then utf8_valid r3
          else false
        end
      end
    end
  end.

(** ** Exceptions and the monad of upcalls *)

Inductive errno := ENOENT | EISDIR | ENOTDIR | ENOTEMPTY | EINVAL | EIO.

Inductive exn :=
  | FUSEError (e : errno)      (* pyfuse3.FUSEError *)
  | NoSuchRowError             (* fuse_impl: query produced 0 result rows *)
  | NoUniqueValueError         (* fuse_impl: query generated more than 1 row *)
  | IntegrityError             (* sqlite3: UNIQUE or PRIMARY KEY violated *)
  | InvalidToken               (* cryptography.fernet *)
  | ValueError                 (* cachetools: value too large *)
  | AttributeError             (* a method called on None or on a str *)
  | UnicodeDecodeError
  | TypeError.

#[global] Instance errno_eq_decision : EqDecision errno.
Proof. solve_decision. Defined.
#[global] Instance exn_eq_decision : EqDecision exn.
Proof. solve_decision. Defined.

Inductive result (A : Type) :=
  | Ok (a : A)
  | Raise (e : exn).
Arguments Ok {A} a.
Arguments Raise {A} e.

(* ===================================================================== *)
(** ** The sqlite database of [fuse_impl.py] *)
(* ===================================================================== *)

(** A row of [inodes], without its key [id]. The column [data] of the
    schema is never written or read by the code and is left out. *)
Record inode_row := {
  i_uid : Z;
  i_gid : Z;
  i_mode : Z;
  i_mtime_ns : Z;
  i_atime_ns : Z;
  i_ctime_ns : Z;
  i_target : option bytes;
  i_size : Z;
  i_rdev : Z
}.

(** A row of [contents]. *)
Record contents_row := {
  c_rowid : Z;
  c_name : pyname;
  c_inode : Z;
  c_parent_inode : Z
}.

(** A row of [telegram_messages]. *)
Record message_row := {
  t_id : Z;
  t_inode : Z
}.

(** The three tables. [inodes] is keyed by its INTEGER PRIMARY KEY.
    [contents] is kept in [rowid] order, [telegram_messages] in [id] order
    (its rowid), the order in which sqlite scans a table. [contents_seq] is
    the AUTOINCREMENT counter of [contents]; [lastrowid] is
    [cursor.lastrowid]. REFERENCES clauses are not enforced by sqlite
    unless foreign keys are switched on, which the code does not do. *)
Record database := {
  inodes : gmap Z inode_row;
  contents : list contents_row;
  contents_seq : Z;
  telegram_messages : list message_row;
  lastrowid : Z
}.

Inductive column :=
  | col_size | col_mode | col_uid | col_gid
  | col_atime_ns | col_mtime_ns | col_ctime_ns.

(** The data-changing statements the code executes. *)
Inductive stmt :=
  | InsertInode (id : option Z) (r : inode_row)
      (* INSERT INTO inodes (...) VALUES (...) *)
  | InsertContents (name : pyname) (inode parent_inode : Z)
      (* INSERT INTO contents (name, inode, parent_inode) VALUES (?,?,?) *)
  | InsertMessage (id inode : Z)
      (* INSERT INTO telegram_messages (id, inode) VALUES (?, ?) *)
  | DeleteInode (id : Z)
      (* DELETE FROM inodes WHERE id=? *)
  | DeleteContents (name : pyname) (parent_inode : Z)
      (* DELETE FROM contents WHERE name=? AND parent_inode=? *)
  | DeleteMessages (inode : Z)
      (* DELETE FROM telegram_messages WHERE inode=? *)
  | UpdateContentsInode (inode : Z) (name : pyname) (parent_inode : Z)
      (* UPDATE contents SET inode=? WHERE name=? AND parent_inode=? *)
  | UpdateContentsName (name_new : pyname) (parent_new : Z)
                       (name_old : pyname) (parent_old : Z)
      (* UPDATE contents SET name=?, parent_inode=?
         WHERE name=? AND parent_inode=? *)
  | UpdateInode (c : column) (v : Z) (id : Z).
      (* UPDATE inodes SET <c>=? WHERE id=? *)

Definition set_column (c : column) (v : Z) (r : inode_row) : inode_row :=
  match c with
  | col_size => {| i_uid := i_uid r; i_gid := i_gid r; i_mode := i_mode r;
                   i_mtime_ns := i_mtime_ns r; i_atime_ns := i_atime_ns r;
                   i_ctime_ns := i_ctime_ns r; i_target := i_target r;
                   i_size := v; i_rdev := i_rdev r |}
  | col_mode => {| i_uid := i_uid r; i_gid := i_gid r; i_mode := v;
                   i_mtime_ns := i_mtime_ns r; i_atime_ns := i_atime_ns r;
                   i_ctime_ns := i_ctime_ns r; i_target := i_target r;
                   i_size := i_size r; i_rdev := i_rdev r |}
  | col_uid => {| i_uid := v; i_gid := i_gid r; i_mode := i_mode r;
                  i_mtime_ns := i_mtime_ns r; i_atime_ns := i_atime_ns r;
                  i_ctime_ns := i_ctime_ns r; i_target := i_target r;
                  i_size := i_size r; i_rdev := i_rdev r |}
  | col_gid => {| i_uid := i_uid r; i_gid := v; i_mode := i_mode r;
                  i_mtime_ns := i_mtime_ns r; i_atime_ns := i_atime_ns r;
                  i_ctime_ns := i_ctime_ns r; i_target := i_target r;
                  i_size := i_size r; i_rdev := i_rdev r |}
  | col_atime_ns => {| i_uid := i_uid r; i_gid := i_gid r; i_mode := i_mode r;
                       i_mtime_ns := i_mtime_ns r; i_atime_ns := v;
                       i_ctime_ns := i_ctime_ns r; i_target := i_target r;
                       i_size := i_size r; i_rdev := i_rdev r |}
  | col_mtime_ns => {| i_uid := i_uid r; i_gid := i_gid r; i_mode := i_mode r;
                       i_mtime_ns := v; i_atime_ns := i_atime_ns r;
                       i_ctime_ns := i_ctime_ns r; i_target := i_target r;
                       i_size := i_size r; i_rdev := i_rdev r |}
  | col_ctime_ns => {| i_uid := i_uid r; i_gid := i_gid r; i_mode := i_mode r;
                       i_mtime_ns := i_mtime_ns r; i_atime_ns := i_atime_ns r;
                       i_ctime_ns := v; i_target := i_target r;
                       i_size := i_size r; i_rdev := i_rdev r |}
  end.

(** *** Queries *)

(** The rowid sqlite gives to a row inserted into [inodes] without an id:
    one more than the largest id in use. *)
Definition max_inode_id (m : gmap Z inode_row) : Z :=
  foldr Z.max 0 (fst <$> map_to_list m).

Definition next_inode_id (m : gmap Z inode_row) : Z := max_inode_id m + 1.

(** [... FROM contents WHERE name=? AND parent_inode=?] *)
Definition contents_by_name (n : pyname) (p : Z) (d : database)
  : list contents_row :=
  filter (λ r, c_name r = n ∧ c_parent_inode r = p) (contents d).

(** [... FROM contents WHERE inode=?] *)
Definition contents_by_inode (i : Z) (d : database) : list contents_row :=
  filter (λ r, c_inode r = i) (contents d).

(** [... FROM contents WHERE parent_inode=?] *)
Definition contents_by_parent (p : Z) (d : database) : list contents_row :=
  filter (λ r, c_parent_inode r = p) (contents d).

(** [SELECT * FROM contents WHERE parent_inode=? AND rowid > ? ORDER BY rowid] *)
Definition contents_after (p off : Z) (d : database) : list contents_row :=
  filter (λ r, c_parent_inode r = p ∧ off < c_rowid r) (contents d).

(** [... FROM telegram_messages WHERE inode=?] *)
Definition messages_by_inode (i : Z) (d : database) : list message_row :=
  filter (λ r, t_inode r = i) (telegram_messages d).

(** [SELECT SUM(size) FROM inodes]: NULL when the table is empty. *)
Definition sum_size (d : database) : option Z :=
  if decide (inodes d = ∅) then None
  else Some (foldr Z.add 0 ((λ kr, i_size (snd kr)) <$> map_to_list (inodes d))).

(** *** Statements *)

Definition with_inodes (m : gmap Z inode_row) (d : database) : database :=
  {| inodes := m; contents := contents d; contents_seq := contents_seq d;
     telegram_messages := telegram_messages d; lastrowid := lastrowid d |}.

Definition with_contents (c : list contents_row) (d : database) : database :=
  {| inodes := inodes d; contents := c; contents_seq := contents_seq d;
     telegram_messages := telegram_messages d; lastrowid := lastrowid d |}.

Definition with_messages (t : list message_row) (d : database) : database :=
  {| inodes := inodes d; contents := contents d; contents_seq := contents_seq d;
     telegram_messages := t; lastrowid := lastrowid d |}.

(** Insertion into [telegram_messages] at the place of the id. *)
Fixpoint insert_by_id (r : message_row) (l : list message_row)
  : list message_row :=
  match l with
  | [] => [r]
  | x :: l' => if decide (t_id r < t_id x) then r :: x :: l'
               else x :: insert_by_id r l'
  end.

(** One statement on the tables: the new tables, or the exception sqlite
    raises, in which case the statement changes nothing. *)
Definition exec_stmt (st : stmt) (d : database) : database + exn :=
  match st with
  | InsertInode None r =>
      let id := next_inode_id (inodes d) in
      inl {| inodes := <[id := r]> (inodes d); contents := contents d;
             contents_seq := contents_seq d;
             telegram_messages := telegram_messages d; lastrowid := id |}
  | InsertInode (Some id) r =>
      match inodes d !! id with
      | Some _ => inr IntegrityError
      | None =>
          inl {| inodes := <[id := r]> (inodes d); contents := contents d;
                 contents_seq := contents_seq d;
                 telegram_messages := telegram_messages d; lastrowid := id |}
      end
  | InsertContents n i p =>
      match contents_by_name n p d with
      | _ :: _ => inr IntegrityError
      | [] =>
          let rid := contents_seq d + 1 in
          inl {| inodes := inodes d;
                 contents := contents d ++
                   [{| c_rowid := rid; c_name := n; c_inode := i;
                       c_parent_inode := p |}];
                 contents_seq := rid;
                 telegram_messages := telegram_messages d; lastrowid := rid |}
      end
  | InsertMessage id i =>
      if decide (id ∈ t_id <$> telegram_messages d) then inr IntegrityError
      else
        inl {| inodes := inodes d; contents := contents d;
               contents_seq := contents_seq d;
               telegram_messages :=
                 insert_by_id {| t_id := id; t_inode := i |}
                              (telegram_messages d);
               lastrowid := id |}
  | DeleteInode id => inl (with_inodes (delete id (inodes d)) d)
  | DeleteContents n p =>
      inl (with_contents
             (filter (λ r, ¬ (c_name r = n ∧ c_parent_inode r = p))
                     (contents d)) d)
  | DeleteMessages i =>
      inl (with_messages
             (filter (λ r, t_inode r ≠ i) (telegram_messages d)) d)
  | UpdateContentsInode i n p =>
      inl (with_contents
             ((λ r, if decide (c_name r = n ∧ c_parent_inode r = p)
                    then {| c_rowid := c_rowid r; c_name := c_name r;
                            c_inode := i;
                            c_parent_inode := c_parent_inode r |}
                    else r) <$> contents d) d)
  | UpdateContentsName n' p' n p =>
      match contents_by_name n p d with
      | [] => inl d
      | _ :: _ =>
          if decide ((n', p') = (n, p)) then inl d
          else match contents_by_name n' p' d with
          | _ :: _ => inr IntegrityError
          | [] =>
              inl (with_contents
                     ((λ r, if decide (c_name r = n ∧ c_parent_inode r = p)
                            then {| c_rowid := c_rowid r; c_name := n';
                                    c_inode := c_inode r;
                                    c_parent_inode := p' |}
                            else r) <$> contents d) d)
          end
      end
  | UpdateInode c v id =>
      inl (with_inodes (alter (set_column c v) id (inodes d)) d)
  end.

(* ===================================================================== *)
(** ** [cachetools.LRUCache] with [getsizeof = len] *)
(* ===================================================================== *)

(** An entry keeps the size measured when the value was stored: the cache
    does not measure a value again when the bytearray it holds is extended
    in place later. *)
Record cache_entry := {
  ce_key : Z;
  ce_value : bytes;
  ce_size : Z
}.

(** Entries from the least to the most recently used. *)
Record LRUCache := {
  lru_maxsize : Z;
  lru_items : list cache_entry
}.

Definition CACHE_MAXSIZE : Z := 5000000000.

Definition lru_currsize (c : LRUCache) : Z :=
  foldr Z.add 0 (ce_size <$> lru_items c).

(** [cache[key]] without the bookkeeping of the order. *)
Definition lru_find (k : Z) (c : LRUCache) : option bytes :=
  ce_value <$> head (filter (λ e, ce_key e = k) (lru_items c)).

(** The bookkeeping of [cache[key]]: the entry becomes the most recent. *)
Definition lru_touch (k : Z) (c : LRUCache) : LRUCache :=
  {| lru_maxsize := lru_maxsize c;
     lru_items := filter (λ e, ce_key e ≠ k) (lru_items c)
                  ++ filter (λ e, ce_key e = k) (lru_items c) |}.

(** [cache.pop(key)]. *)
Definition lru_pop (k : Z) (c : LRUCache) : LRUCache :=
  {| lru_maxsize := lru_maxsize c;
     lru_items := filter (λ e, ce_key e ≠ k) (lru_items c) |}.

(** [while currsize + size > maxsize: popitem()]: the least recently used
    entries go first. *)
Fixpoint lru_evict (size maxsize : Z) (l : list cache_entry)
  : list cache_entry :=
  match l with
  | [] => []
  | e :: l' =>
      if decide (foldr Z.add 0 (ce_size <$> l) + size > maxsize)
      then lru_evict size maxsize l'
      else l
  end.

(** [cache[key] = value]: [None] stands for [ValueError("value too large")],
    raised before anything changes. *)
Definition lru_setitem (k : Z) (v : bytes) (c : LRUCache) : option LRUCache :=
  let size := len v in
  if decide (size > lru_maxsize c) then None
  else
    let old := head (filter (λ e, ce_key e = k) (lru_items c)) in
    let items :=
      match old with
      | Some e => if decide (ce_size e < size)
                  then lru_evict size (lru_maxsize c) (lru_items c)
                  else lru_items c
      | None => lru_evict size (lru_maxsize c) (lru_items c)
      end in
    Some {| lru_maxsize := lru_maxsize c;
            lru_items := filter (λ e, ce_key e ≠ k) items
                         ++ [{| ce_key := k; ce_value := v; ce_size := size |}] |}.

(** The bytearray cached under [k] extended in place (its recorded size is
    not touched). *)
Definition lru_mutate (k : Z) (v : bytes) (c : LRUCache) : LRUCache :=
  {| lru_maxsize := lru_maxsize c;
     lru_items := (λ e, if decide (ce_key e = k)
                        then {| ce_key := k; ce_value := v;
                                ce_size := ce_size e |}
                        else e) <$> lru_items c |}.

(* ===================================================================== *)
(** ** The remote channel and the client state *)
(* ===================================================================== *)

(** A message of the channel: its id, the name of the uploaded document and
    the document's bytes. *)
Record message := {
  m_id : Z;
  m_file_name : string;
  m_media : bytes
}.

(** The state of a [TelegramFileClient]. The channel is part of it: the
    messages it holds, oldest first, and the id the next message gets (a
    channel numbers its messages upwards and never reuses an id). *)
Record TelegramFileClient := {
  encryption_key : option string;
  cached_files : LRUCache;
  fname_to_msgs : gmap string (list Z);
  channel : list message;
  next_message_id : Z
}.

(** What an upcall can do to the world outside the process, and the moments
    of its own bookkeeping that the ordering properties speak about. *)
Inductive event :=
  | EvExecute (st : stmt)         (* a statement reached the database *)
  | EvCommit                      (* db.commit() *)
  | EvSendFile (m : message)      (* a document was posted to the channel *)
  | EvDeleteMessages (ids : list Z)   (* client.delete_messages(ids) *)
  | EvBufferReset (data : bytes). (* release took the buffer and cleared it *)

(** The state of the process. [write_buffer_cached = Some fh] records that
    [write_buffer] is the very bytearray the cache holds under [fh] (as
    after [self.write_buffer = result_bytes] with [result_bytes] taken from
    the cache), so that [+=] on the buffer extends the cached value too. *)
Record world := {
  db : database;
  inode_open_count : gmap Z Z;
  write_buffer : bytes;
  write_buffer_cached : option Z;
  client : TelegramFileClient;
  now_ns : Z;                     (* int(time() * 1e9) *)
  urandom : nat;                  (* the randomness Fernet draws on *)
  trace : list event
}.

Definition with_db (d : database) (w : world) : world :=
  {| db := d; inode_open_count := inode_open_count w;
     write_buffer := write_buffer w;
     write_buffer_cached := write_buffer_cached w; client := client w;
     now_ns := now_ns w; urandom := urandom w; trace := trace w |}.

Definition with_open_count (m : gmap Z Z) (w : world) : world :=
  {| db := db w; inode_open_count := m; write_buffer := write_buffer w;
     write_buffer_cached := write_buffer_cached w; client := client w;
     now_ns := now_ns w; urandom := urandom w; trace := trace w |}.

Definition with_buffer (b : bytes) (a : option Z) (w : world) : world :=
  {| db := db w; inode_open_count := inode_open_count w; write_buffer := b;
     write_buffer_cached := a; client := client w;
     now_ns := now_ns w; urandom := urandom w; trace := trace w |}.

Definition with_client (c : TelegramFileClient) (w : world) : world :=
  {| db := db w; inode_open_count := inode_open_count w;
     write_buffer := write_buffer w;
     write_buffer_cached := write_buffer_cached w; client := c;
     now_ns := now_ns w; urandom := urandom w; trace := trace w |}.

Definition with_urandom (n : nat) (w : world) : world :=
  {| db := db w; inode_open_count := inode_open_count w;
     write_buffer := write_buffer w;
     write_buffer_cached := write_buffer_cached w; client := client w;
     now_ns := now_ns w; urandom := n; trace := trace w |}.

Definition with_trace (t : list event) (w : world) : world :=
  {| db := db w; inode_open_count := inode_open_count w;
     write_buffer := write_buffer w;
     write_buffer_cached := write_buffer_cached w; client := client w;
     now_ns := now_ns w; urandom := urandom w; trace := t |}.

Definition with_cache (c : LRUCache) (t : TelegramFileClient)
  : TelegramFileClient :=
  {| encryption_key := encryption_key t; cached_files := c;
     fname_to_msgs := fname_to_msgs t; channel := channel t;
     next_message_id := next_message_id t |}.

(** *** The monad *)

Definition M (A : Type) : Type := world → result A * world.

Definition ret {A} (a : A) : M A := λ w, (Ok a, w).

Definition raise {A} (e : exn) : M A := λ w, (Raise e, w).

Definition bind {A B} (m : M A) (k : A → M B) : M B :=
  λ w, match m w with
       | (Ok a, w') => k a w'
       | (Raise e, w') => (Raise e, w')
       end.

(** [try: m except <exceptions selected by h>: ...]: [h e = None] lets the
    exception [e] pass. *)
Definition try_except {A} (m : M A) (h : exn → option (M A)) : M A :=
  λ w, match m w with
       | (Ok a, w') => (Ok a, w')
       | (Raise e, w') =>
           match h e with
           | Some k => k w'
           | None => (Raise e, w')
           end
       end.

Definition get : M world := λ w, (Ok w, w).
Definition gets {A} (f : world → A) : M A := λ w, (Ok (f w), w).
Definition modify (f : world → world) : M unit := λ w, (Ok tt, f w).

Declare Scope monad_scope.
Delimit Scope monad_scope with monad.
Notation "x <- m ;; k" := (bind m (λ x, k))
  (at level 100, m at next level, right associativity) : monad_scope.
Notation "m ;; k" := (bind m (λ _, k))
  (at level 100, right associativity) : monad_scope.
Local Open Scope monad_scope.

(** [for x in l: body x]. *)
Fixpoint for_each {A} (l : list A) (body : A → M unit) : M unit :=
  match l with
  | [] => ret tt
  | x :: l' => body x ;; for_each l' body
  end.

Definition log (e : event) : M unit :=
  modify (λ w, with_trace (trace w ++ [e]) w).

(** [cursor.execute(stmt)] and [db.execute(stmt)]. *)
Definition execute (st : stmt) : M unit :=
  w <- get ;;
  match exec_stmt st (db w) with
  | inl d => modify (with_db d) ;; log (EvExecute st)
  | inr e => raise e
  end.

(** [db.commit()]. *)
Definition commit : M unit := log EvCommit.

(** [get_row]: the only row of a query, [NoSuchRowError] when there is none,
    [NoUniqueValueError] when there are several. *)
Definition get_row {A} (query : database → list A) : M A :=
  w <- get ;;
  match query (db w) with
  | [] => raise NoSuchRowError
  | [row] => ret row
  | _ :: _ :: _ => raise NoUniqueValueError
  end.

(** [get_rows]: all rows of a query, [NoSuchRowError] when there is none. *)
Definition get_rows {A} (query : database → list A) : M (list A) :=
  w <- get ;;
  match query (db w) with
  | [] => raise NoSuchRowError
  | rows => ret rows
  end.

(** [SELECT * FROM inodes WHERE id=?] *)
Definition inode_by_id (i : Z) (d : database) : list inode_row :=
  match inodes d !! i with
  | Some r => [r]
  | None => []
  end.

(* ===================================================================== *)
(** ** [TelegramFUSE.py]: the client *)
(* ===================================================================== *)

Definition FILE_MAX_SIZE_BYTES : Z := 2000000000.

(** The chunks [upload_file] cuts a payload into, for a size limit
    [max_size] ([FILE_MAX_SIZE_BYTES] in the program). *)
Definition split_chunks (max_size : Z) (file_bytes : bytes) : list bytes :=
  let file_len := len file_bytes in
  if decide (file_len > max_size) then
    let num_chunks := (len file_bytes + max_size) `div` max_size in
    (λ i, let start := i * max_size in
          let end_ := (i + 1) * max_size in
          slice (Z.to_nat start) (Z.to_nat end_) file_bytes)
      <$> seqZ 0 num_chunks
  else [file_bytes].

(** [name.decode()] on what a [contents] row holds. *)
Definition decode (n : pyname) : M string :=
  match n with
  | NBytes b => if utf8_valid b then ret (string_of_list_byte b)
                else raise UnicodeDecodeError
  | NStr _ => raise AttributeError
  end.

(** A small cipher with the interface of Fernet, for running the model on
    examples: a token is the plaintext behind one byte of checksum, and
    decryption rejects a token whose checksum does not fit. *)
Definition toy_mac (key : string) (d : bytes) : byte :=
  default "000"%byte
    (Byte.of_N (N.modulo
       (foldr N.add (N.of_nat (String.length key)) (Byte.to_N <$> d)) 256)).

Definition toy_encrypt (key : string) (iv : nat) (d : bytes) : bytes :=
  toy_mac key d :: d.

Definition toy_decrypt (key : string) (token : bytes) : option bytes :=
  match token with
  | [] => None
  | m :: d => if decide (m = toy_mac key d) then Some d else None
  end.

Section Filesystem.

(** [cryptography.fernet.Fernet], for a well-formed key: [encrypt] draws on
    the clock and on fresh randomness, [decrypt] returns the plaintext or
    raises [InvalidToken] ([None] here). *)
Variable fernet_encrypt : string → nat → bytes → bytes.
Variable fernet_decrypt : string → bytes → option bytes.

Definition modify_client (f : TelegramFileClient → TelegramFileClient)
  : M unit :=
  modify (λ w, with_client (f (client w)) w).

(** [self.cached_files.pop(fh)]; the write buffer stops being the cached
    bytearray if it was this one. *)
Definition cache_pop (fh : Z) : M unit :=
  modify (λ w,
    with_buffer (write_buffer w)
      (if decide (write_buffer_cached w = Some fh) then None
       else write_buffer_cached w)
      (with_client (with_cache (lru_pop fh (cached_files (client w)))
                               (client w)) w)).

(** [self.cached_files[fh] = barr]: a new bytearray takes the place of the
    one cached under [fh], and entries may be evicted. *)
Definition cache_store (fh : Z) (barr : bytes) : M unit :=
  w <- get ;;
  match lru_setitem fh barr (cached_files (client w)) with
  | None => raise ValueError
  | Some c =>
      modify (λ w,
        with_buffer (write_buffer w)
          (match write_buffer_cached w with
           | Some a => if decide (a = fh) then None
                       else match lru_find a c with
                            | Some _ => Some a
                            | None => None
                            end
           | None => None
           end)
          (with_client (with_cache c (client w)) w))
  end.

(** [client.upload_file(c, file_name=fname, ...)] followed by
    [client.send_file(channel, f)]: the id of the new message. *)
Definition send_file (fname : string) (c : bytes) : M Z :=
  w <- get ;;
  let m := {| m_id := next_message_id (client w); m_file_name := fname;
              m_media := c |} in
  modify_client (λ t,
    {| encryption_key := encryption_key t; cached_files := cached_files t;
       fname_to_msgs := fname_to_msgs t; channel := channel t ++ [m];
       next_message_id := next_message_id t + 1 |}) ;;
  log (EvSendFile m) ;;
  ret (m_id m).

(** The loop [for c in chunks] of [upload_file], from part number [i]. *)
Fixpoint upload_chunks (file_name : string) (i : nat) (chunks : list bytes)
  : M (list Z) :=
  match chunks with
  | [] => ret []
  | c :: chunks' =>
      let fname := file_name +:+ "_part" +:+ pretty i +:+ ".txt" in
      id <- send_file fname c ;;
      ids <- upload_chunks file_name (S i) chunks' ;;
      ret (id :: ids)
  end.

(** [upload_file(bytesio, fh, file_name)]: the ids of the messages posted,
    in the order of the chunks. *)
Definition upload_file (data : bytes) (fh : Z) (file_name : string)
  : M (list Z) :=
  w <- get ;;
  (match lru_find fh (cached_files (client w)) with
   | Some _ => cache_pop fh
   | None => ret tt
   end) ;;
  file_bytes <-
    (match encryption_key (client w) with
     | Some key =>
         modify (λ w, with_urandom (S (urandom w)) w) ;;
         ret (fernet_encrypt key (urandom w) data)
     | None => ret data
     end) ;;
  let chunks := split_chunks FILE_MAX_SIZE_BYTES file_bytes in
  upload_results <- upload_chunks file_name 0 chunks ;;
  modify_client (λ t,
    {| encryption_key := encryption_key t; cached_files := cached_files t;
       fname_to_msgs := <[file_name := upload_results]> (fname_to_msgs t);
       channel := channel t; next_message_id := next_message_id t |}) ;;
  ret upload_results.

(** [get_cached_file(fh)]: the cached bytearray when there is a non-empty
    one. Reading [cached_files[fh]] makes the entry the most recent. *)
Definition get_cached_file (fh : Z) : M (option bytes) :=
  w <- get ;;
  match lru_find fh (cached_files (client w)) with
  | Some v =>
      modify_client (λ t, with_cache (lru_touch fh (cached_files t)) t) ;;
      if decide (v ≠ []) then ret (Some v) else ret None
  | None => ret None
  end.

(** [get_messages(ids)]: the message of each id, [None] for an id the
    channel does not hold. *)
Definition get_messages (ids : list Z) : M (list (option message)) :=
  w <- get ;;
  ret ((λ id, head (filter (λ m, m_id m = id) (channel (client w)))) <$> ids).

(** [download_message(msg)]: [msg.download_media(bytes)], which fails on
    [None]. *)
Definition download_message (msg : option message) : M bytes :=
  match msg with
  | Some m => ret (m_media m)
  | None => raise AttributeError
  end.

(** The loop [for m in msgs: buf.write(self.download_message(m))]. *)
Fixpoint download_all (msgs : list (option message)) : M bytes :=
  match msgs with
  | [] => ret []
  | m :: msgs' =>
      b <- download_message m ;;
      rest <- download_all msgs' ;;
      ret (b ++ rest)
  end.

(** [download_file(fh, msgIds)]. Its first test is the test of
    [get_cached_file]. *)
Definition download_file (fh : Z) (msgIds : list Z) : M bytes :=
  hit <- get_cached_file fh ;;
  match hit with
  | Some v => ret v
  | None =>
      msgs <- get_messages msgIds ;;
      readBytes <- download_all msgs ;;
      w <- get ;;
      readBytes <-
        (match encryption_key (client w) with
         | Some key =>
             match fernet_decrypt key readBytes with
             | Some plain => ret plain
             | None => raise InvalidToken
             end
         | None => ret readBytes
         end) ;;
      cache_store fh readBytes ;;
      ret readBytes
  end.

(** [delete_messages(ids)]. *)
Definition delete_messages (ids : list Z) : M unit :=
  modify_client (λ t,
    {| encryption_key := encryption_key t; cached_files := cached_files t;
       fname_to_msgs := fname_to_msgs t;
       channel := filter (λ m, m_id m ∉ ids) (channel t);
       next_message_id := next_message_id t |}) ;;
  log (EvDeleteMessages ids).

(* ===================================================================== *)
(** ** [fuse_impl.py]: the filesystem operations *)
(* ===================================================================== *)

Definition ROOT_INODE : Z := 1.

(** Constants of the module [stat]. *)
Definition S_IFMT : Z := 61440.    (* 0o170000 *)
Definition S_IFDIR : Z := 16384.   (* 0o040000 *)
Definition S_IFLNK : Z := 40960.   (* 0o120000 *)
Definition S_IRUSR : Z := 256.
Definition S_IWUSR : Z := 128.
Definition S_IXUSR : Z := 64.
Definition S_IRGRP : Z := 32.
Definition S_IWGRP : Z := 16.
Definition S_IXGRP : Z := 8.
Definition S_IROTH : Z := 4.
Definition S_IWOTH : Z := 2.
Definition S_IXOTH : Z := 1.

Definition S_ISDIR (mode : Z) : bool := Z.eqb (Z.land mode S_IFMT) S_IFDIR.

(** [pyfuse3.EntryAttributes], the fields [getattr] fills and [setattr]
    reads. *)
Record EntryAttributes := {
  st_ino : Z;
  generation : Z;
  entry_timeout : Z;
  attr_timeout : Z;
  st_mode : Z;
  st_nlink : Z;
  st_uid : Z;
  st_gid : Z;
  st_rdev : Z;
  st_size : Z;
  st_blksize : Z;
  st_blocks : Z;
  st_atime_ns : Z;
  st_mtime_ns : Z;
  st_ctime_ns : Z
}.

(** [pyfuse3.SetattrFields]. *)
Record SetattrFields := {
  update_size : bool;
  update_mode : bool;
  update_uid : bool;
  update_gid : bool;
  update_atime : bool;
  update_mtime : bool;
  update_ctime : bool
}.

(** [pyfuse3.RequestContext]. *)
Record RequestContext := {
  ctx_uid : Z;
  ctx_gid : Z
}.

(** [pyfuse3.StatvfsData]. *)
Record StatvfsData := {
  f_bsize : Z;
  f_frsize : Z;
  f_blocks : Z;
  f_bfree : Z;
  f_bavail : Z;
  f_files : Z;
  f_ffree : Z;
  f_favail : Z
}.

(** [except NoSuchRowError: raise FUSEError(errno.ENOENT)]. *)
Definition no_row_is_ENOENT {A} (e : exn) : option (M A) :=
  match e with
  | NoSuchRowError => Some (raise (FUSEError ENOENT))
  | _ => None
  end.

(** [init_tables], after the three CREATE TABLE statements. *)
Definition init_tables (uid gid : Z) : M unit :=
  w <- get ;;
  let now := now_ns w in
  execute (InsertInode (Some ROOT_INODE)
    {| i_uid := uid; i_gid := gid;
       i_mode := Z.lor S_IFDIR (Z.lor S_IRUSR (Z.lor S_IWUSR (Z.lor S_IXUSR
                 (Z.lor S_IRGRP (Z.lor S_IXGRP (Z.lor S_IROTH S_IXOTH))))));
       i_mtime_ns := now; i_atime_ns := now; i_ctime_ns := now;
       i_target := None; i_size := 0; i_rdev := 0 |}) ;;
  execute (InsertContents b_dotdot ROOT_INODE ROOT_INODE) ;;
  commit.

Definition getattr (inode : Z) : M EntryAttributes :=
  row <- try_except (get_row (inode_by_id inode)) no_row_is_ENOENT ;;
  nlink <- gets (λ w, len (contents_by_inode inode (db w))) ;;
  ret {| st_ino := inode; generation := 0;
         entry_timeout := 300; attr_timeout := 300;
         st_mode := i_mode row; st_nlink := nlink;
         st_uid := i_uid row; st_gid := i_gid row;
         st_rdev := i_rdev row; st_size := i_size row;
         st_blksize := 512; st_blocks := 1;
         st_atime_ns := i_atime_ns row; st_mtime_ns := i_mtime_ns row;
         st_ctime_ns := i_ctime_ns row |}.

Definition lookup (inode_p : Z) (name : pyname) : M EntryAttributes :=
  inode <-
    (if decide (name = NStr ".") then ret inode_p
     else if decide (name = NStr "..") then
       row <- get_row (contents_by_inode inode_p) ;;
       ret (c_parent_inode row)
     else
       try_except
         (row <- get_row (contents_by_name name inode_p) ;;
          ret (c_inode row))
         no_row_is_ENOENT) ;;
  getattr inode.

Definition readlink (inode : Z) : M (option bytes) :=
  row <- get_row (inode_by_id inode) ;;
  ret (i_target row).

Definition opendir (inode : Z) : M Z := ret inode.

(** The replies [readdir] hands to [pyfuse3.readdir_reply], in order. *)
Fixpoint readdir_rows (rows : list contents_row)
  : M (list (pyname * EntryAttributes * Z)) :=
  match rows with
  | [] => ret []
  | row :: rows' =>
      e <- getattr (c_inode row) ;;
      rest <- readdir_rows rows' ;;
      ret ((c_name row, e, c_rowid row) :: rest)
  end.

Definition readdir (inode off : Z)
  : M (list (pyname * EntryAttributes * Z)) :=
  let off := if decide (off = 0) then -1 else off in
  w <- get ;;
  readdir_rows (contents_after inode off (db w)).

(** [delete_msgs_for_inode(fh)]. *)
Definition delete_msgs_for_inode (fh : Z) : M unit :=
  w <- get ;;
  let ids := t_id <$> messages_by_inode fh (db w) in
  delete_messages ids.

Definition _remove (inode_p : Z) (name : pyname) (entry : EntryAttributes)
  : M unit :=
  w <- get ;;
  (if decide (len (contents_by_parent (st_ino entry) (db w)) > 0)
   then raise (FUSEError ENOTEMPTY) else ret tt) ;;
  (if decide (st_nlink entry = 1
              ∧ inode_open_count w !! st_ino entry = None)
   then
     execute (DeleteInode (st_ino entry)) ;;
     delete_msgs_for_inode (st_ino entry) ;;
     execute (DeleteContents name inode_p) ;;
     execute (DeleteMessages (st_ino entry))
   else ret tt) ;;
  (if decide (st_nlink entry > 1
              ∧ inode_open_count w !! st_ino entry = None)
   then execute (DeleteContents name inode_p)
   else ret tt) ;;
  commit.

Definition unlink (inode_p : Z) (name : pyname) : M unit :=
  entry <- lookup inode_p name ;;
  (if S_ISDIR (st_mode entry) then raise (FUSEError EISDIR) else ret tt) ;;
  _remove inode_p name entry.

Definition rmdir (inode_p : Z) (name : pyname) : M unit :=
  entry <- lookup inode_p name ;;
  (if negb (S_ISDIR (st_mode entry)) then raise (FUSEError ENOTDIR)
   else ret tt) ;;
  _remove inode_p name entry.

Definition _create (inode_p : Z) (name : pyname) (mode : Z)
    (ctx : RequestContext) (rdev : Z) (target : option bytes)
  : M EntryAttributes :=
  entry_p <- getattr inode_p ;;
  (if decide (st_nlink entry_p = 0) then raise (FUSEError EINVAL)
   else ret tt) ;;
  w <- get ;;
  let now := now_ns w in
  execute (InsertInode None
    {| i_uid := ctx_uid ctx; i_gid := ctx_gid ctx; i_mode := mode;
       i_mtime_ns := now; i_atime_ns := now; i_ctime_ns := now;
       i_target := target; i_size := 0; i_rdev := rdev |}) ;;
  inode <- gets (λ w, lastrowid (db w)) ;;
  execute (InsertContents name inode inode_p) ;;
  commit ;;
  getattr inode.

Definition symlink (inode_p : Z) (name : pyname) (target : bytes)
    (ctx : RequestContext) : M EntryAttributes :=
  let mode := Z.lor S_IFLNK (Z.lor S_IRUSR (Z.lor S_IWUSR (Z.lor S_IXUSR
               (Z.lor S_IRGRP (Z.lor S_IWGRP (Z.lor S_IXGRP
               (Z.lor S_IROTH (Z.lor S_IWOTH S_IXOTH)))))))) in
  _create inode_p name mode ctx 0 (Some target).

Definition _replace (inode_p_old : Z) (name_old : pyname)
    (inode_p_new : Z) (name_new : pyname)
    (entry_old entry_new : EntryAttributes) : M unit :=
  w <- get ;;
  (if decide (len (contents_by_parent (st_ino entry_new) (db w)) > 0)
   then raise (FUSEError ENOTEMPTY) else ret tt) ;;
  execute (UpdateContentsInode (st_ino entry_old) name_new inode_p_new) ;;
  execute (DeleteContents name_old inode_p_old) ;;
  (if decide (st_nlink entry_new = 1
              ∧ inode_open_count w !! st_ino entry_new = None)
   then
     execute (DeleteInode (st_ino entry_new)) ;;
     delete_msgs_for_inode (st_ino entry_new)
   else ret tt) ;;
  commit.

Definition rename (inode_p_old : Z) (name_old : pyname)
    (inode_p_new : Z) (name_new : pyname) (flags : Z) : M unit :=
  (if decide (flags ≠ 0) then raise (FUSEError EINVAL) else ret tt) ;;
  entry_old <- lookup inode_p_old name_old ;;
  target <-
    try_except
      (entry_new <- lookup inode_p_new name_new ;; ret (Some entry_new))
      (λ e, match e with
            | FUSEError ENOENT => Some (ret None)
            | _ => None
            end) ;;
  match target with
  | Some entry_new =>
      _replace inode_p_old name_old inode_p_new name_new entry_old entry_new
  | None =>
      execute (UpdateContentsName name_new inode_p_new name_old inode_p_old) ;;
      commit
  end.

Definition link (inode new_inode_p : Z) (new_name : pyname)
  : M EntryAttributes :=
  entry_p <- getattr new_inode_p ;;
  (if decide (st_nlink entry_p = 0) then raise (FUSEError EINVAL)
   else ret tt) ;;
  execute (InsertContents new_name inode new_inode_p) ;;
  commit ;;
  getattr inode.

(** [get_telegram_data(fh)]: the content of the file, and whether the
    bytearray returned is the one the cache holds under [fh] (it is, unless
    the [except] clause made a new empty one). *)
Definition get_telegram_data (fh : Z) : M (bytes * bool) :=
  filebuf <- get_cached_file fh ;;
  match filebuf with
  | Some v => ret (v, true)
  | None =>
      try_except
        (msgIds <- get_rows (messages_by_inode fh) ;;
         let ids := t_id <$> msgIds in
         filebuf <- download_file fh ids ;;
         ret (filebuf, true))
        (λ _, Some (ret ([], false)))
  end.

(** [setattr(inode, attr, fields, fh, ctx)]. [fh] is [None] when the kernel
    sends no file handle; no cache entry and no row has the key [None], so
    [get_telegram_data(None)] is the empty bytearray of its [except]
    clause. [attr.st_size] is a file size, not negative. *)
Definition setattr (inode : Z) (attr : EntryAttributes)
    (fields : SetattrFields) (fh : option Z) : M EntryAttributes :=
  (if update_size fields then
     data <- (match fh with
              | Some h => d <- get_telegram_data h ;; ret (fst d)
              | None => ret []
              end) ;;
     let data :=
       if decide (len data < st_size attr)
       then data ++ replicate (Z.to_nat (st_size attr - len data)) "000"%byte
       else take (Z.to_nat (st_size attr)) data in
     execute (UpdateInode col_size (st_size attr) inode)
   else ret tt) ;;
  (if update_mode fields
   then execute (UpdateInode col_mode (st_mode attr) inode) else ret tt) ;;
  (if update_uid fields
   then execute (UpdateInode col_uid (st_uid attr) inode) else ret tt) ;;
  (if update_gid fields
   then execute (UpdateInode col_gid (st_gid attr) inode) else ret tt) ;;
  (if update_atime fields
   then execute (UpdateInode col_atime_ns (st_atime_ns attr) inode)
   else ret tt) ;;
  (if update_mtime fields
   then execute (UpdateInode col_mtime_ns (st_mtime_ns attr) inode)
   else ret tt) ;;
  (if update_ctime fields
   then execute (UpdateInode col_ctime_ns (st_ctime_ns attr) inode)
   else
     w <- get ;;
     execute (UpdateInode col_ctime_ns (now_ns w) inode)) ;;
  commit ;;
  getattr inode.

Definition mknod (inode_p : Z) (name : pyname) (mode rdev : Z)
    (ctx : RequestContext) : M EntryAttributes :=
  _create inode_p name mode ctx rdev None.

Definition mkdir (inode_p : Z) (name : pyname) (mode : Z)
    (ctx : RequestContext) : M EntryAttributes :=
  _create inode_p name mode ctx 0 None.

(** [statfs]: [SUM(size)] is NULL on an empty table, and [None // 512]
    raises [TypeError]. *)
Definition statfs : M StatvfsData :=
  w <- get ;;
  match sum_size (db w) with
  | None => raise TypeError
  | Some total =>
      let inodes_ := Z.of_nat (size (inodes (db w))) in
      ret {| f_bsize := 512; f_frsize := 512;
             f_blocks := total `div` 512;
             f_bfree := Z.max (total `div` 512) 1024;
             f_bavail := Z.max (total `div` 512) 1024;
             f_files := inodes_;
             f_ffree := Z.max inodes_ 100;
             f_favail := Z.max inodes_ 100 |}
  end.

(** [self.inode_open_count[inode]], a [defaultdict(int)]. *)
Definition open_count (inode : Z) (w : world) : Z :=
  default 0 (inode_open_count w !! inode).

Definition open (inode flags : Z) : M Z :=
  modify (λ w, with_open_count
                 (<[inode := open_count inode w + 1]> (inode_open_count w)) w) ;;
  ret inode.

Definition access (inode mode : Z) : M bool := ret true.

Definition create (inode_parent : Z) (name : pyname) (mode flags : Z)
    (ctx : RequestContext) : M (Z * EntryAttributes) :=
  entry <- _create inode_parent name mode ctx 0 None ;;
  modify (λ w, with_open_count
                 (<[st_ino entry := open_count (st_ino entry) w + 1]>
                    (inode_open_count w)) w) ;;
  ret (st_ino entry, entry).

(** [read(fh, offset, length)]. [get_row] returns a row or raises, so the
    test [row is None] of the source never holds and its [return b''] is
    never taken. *)
Definition read (fh : Z) (offset length : nat) : M bytes :=
  row <- get_row (inode_by_id fh) ;;
  telegram_data <- get_telegram_data fh ;;
  ret (slice offset (offset + length) (fst telegram_data)).

(** [self.write_buffer += buf]: the bytearray is extended in place, and
    with it the cached value when the two are one object. *)
Definition extend_write_buffer (buf : bytes) : M unit :=
  modify (λ w,
    let b := write_buffer w ++ buf in
    let w' := with_buffer b (write_buffer_cached w) w in
    match write_buffer_cached w with
    | Some k => with_client
                  (with_cache (lru_mutate k b (cached_files (client w)))
                              (client w)) w'
    | None => w'
    end).

(** [write(fh, offset, buf)]. As in [read], [row != None] always holds
    when [get_row] returns. *)
Definition write (fh : Z) (offset : nat) (buf : bytes) : M Z :=
  w <- get ;;
  result_bytes <-
    (if decide (write_buffer w = []) then
       row <- get_row (inode_by_id fh) ;;
       d <- get_telegram_data fh ;;
       modify (with_buffer (fst d) (if snd d then Some fh else None)) ;;
       ret (fst d)
     else ret (write_buffer w)) ;;
  (if decide (Z.of_nat offset = len result_bytes)
   then extend_write_buffer buf
   else modify (with_buffer
                  (take offset result_bytes ++ buf
                   ++ drop (offset + length buf) result_bytes) None)) ;;
  ret (len buf).

Definition close (fh : Z) : M unit := ret tt.

Definition fsync (fh : Z) : M unit := ret tt.

Definition release (fh : Z) : M unit :=
  modify (λ w, with_open_count
                 (<[fh := open_count fh w - 1]> (inode_open_count w)) w) ;;
  w <- get ;;
  (if decide (len (write_buffer w) > 0) then
     let data := write_buffer w in
     modify (with_buffer [] None) ;;
     log (EvBufferReset data) ;;
     fname <- get_row (λ d, c_name <$> contents_by_inode fh d) ;;
     filename <- decode fname ;;
     telegram_msgs <- upload_file data fh filename ;;
     delete_msgs_for_inode fh ;;
     execute (DeleteMessages fh) ;;
     for_each telegram_msgs (λ id, execute (InsertMessage id fh)) ;;
     execute (UpdateInode col_size (len data) fh) ;;
     commit
   else ret tt) ;;
  w <- get ;;
  if decide (open_count fh w = 0) then
    modify (λ w, with_open_count (delete fh (inode_open_count w)) w) ;;
    entry <- getattr fh ;;
    if decide (st_nlink entry = 0) then
      execute (DeleteInode fh) ;;
      commit
    else ret tt
  else ret tt.

(** *** The upcalls as the kernel channel delivers them *)

Inductive upcall :=
  | Lookup (inode_p : Z) (name : pyname)
  | Getattr (inode : Z)
  | Readlink (inode : Z)
  | Opendir (inode : Z)
  | Readdir (inode off : Z)
  | Unlink (inode_p : Z) (name : pyname)
  | Rmdir (inode_p : Z) (name : pyname)
  | Symlink (inode_p : Z) (name : pyname) (target : bytes)
            (ctx : RequestContext)
  | Rename (inode_p_old : Z) (name_old : pyname)
           (inode_p_new : Z) (name_new : pyname) (flags : Z)
  | Link (inode new_inode_p : Z) (new_name : pyname)
  | Setattr (inode : Z) (attr : EntryAttributes) (fields : SetattrFields)
            (fh : option Z)
  | Mknod (inode_p : Z) (name : pyname) (mode rdev : Z) (ctx : RequestContext)
  | Mkdir (inode_p : Z) (name : pyname) (mode : Z) (ctx : RequestContext)
  | Statfs
  | Open (inode flags : Z)
  | Access (inode mode : Z)
  | Create (inode_parent : Z) (name : pyname) (mode flags : Z)
           (ctx : RequestContext)
  | Read (fh : Z) (offset length : nat)
  | Write (fh : Z) (offset : nat) (buf : bytes)
  | Close (fh : Z)
  | Fsync (fh : Z)
  | Release (fh : Z).

Definition void {A} (m : M A) : M unit := m ;; ret tt.

(** One upcall, its reply dropped: whether it returned, and the world it
    leaves. *)
Definition handle (u : upcall) : M unit :=
  match u with
  | Lookup p n => void (lookup p n)
  | Getattr i => void (getattr i)
  | Readlink i => void (readlink i)
  | Opendir i => void (opendir i)
  | Readdir i off => void (readdir i off)
  | Unlink p n => unlink p n
  | Rmdir p n => rmdir p n
  | Symlink p n t ctx => void (symlink p n t ctx)
  | Rename p n p' n' flags => rename p n p' n' flags
  | Link i p n => void (link i p n)
  | Setattr i attr fields fh => void (setattr i attr fields fh)
  | Mknod p n mode rdev ctx => void (mknod p n mode rdev ctx)
  | Mkdir p n mode ctx => void (mkdir p n mode ctx)
  | Statfs => void statfs
  | Open i flags => void (open i flags)
  | Access i mode => void (access i mode)
  | Create p n mode flags ctx => void (create p n mode flags ctx)
  | Read fh off n => void (read fh off n)
  | Write fh off buf => void (write fh off buf)
  | Close fh => close fh
  | Fsync fh => fsync fh
  | Release fh => release fh
  end.

(** A sequence of upcalls, each run in the world the one before left
    (also when that one raised: the process goes on serving). *)
Fixpoint serve (us : list upcall) (w : world) : world :=
  match us with
  | [] => w
  | u :: us' => serve us' (snd (handle u w))
  end.


(** *** The process after start-up *)

Definition empty_db : database :=
  {| inodes := ∅; contents := []; contents_seq := 0;
     telegram_messages := []; lastrowid := 0 |}.

(** [TelegramFileClient.__init__] on a channel that holds the messages
    [msgs] and gives the id [next] to the next one. *)
Definition new_client (key : option string) (msgs : list message) (next : Z)
  : TelegramFileClient :=
  {| encryption_key := key;
     cached_files := {| lru_maxsize := CACHE_MAXSIZE; lru_items := [] |};
     fname_to_msgs := ∅; channel := msgs; next_message_id := next |}.

(** [Operations.__init__] when [telegram.db] has no table yet: the tables
    are made and [init_tables] fills them. *)
Definition mount (key : option string) (uid gid now : Z) : world :=
  snd (init_tables uid gid
         {| db := empty_db; inode_open_count := ∅; write_buffer := [];
            write_buffer_cached := None; client := new_client key [] 1;
            now_ns := now; urandom := 0; trace := [] |}).

(** *** What the properties speak about *)

(** The root inode has its row, and [contents] holds the root's own
    [b'..'] entry. *)
Definition root_inv (d : database) : Prop :=
  is_Some (inodes d !! ROOT_INODE)
  ∧ ∃ r, r ∈ contents d ∧ c_name r = b_dotdot
         ∧ c_inode r = ROOT_INODE ∧ c_parent_inode r = ROOT_INODE.

(** A rename whose source is the root's own [b'..'] entry. The kernel
    never sends one: it refuses a rename of a path that ends in [..]
    before the file system is asked. The handlers have no test for it. *)
Definition renames_root_dotdot (u : upcall) : Prop :=
  match u with
  | Rename inode_p_old name_old _ _ _ =>
      name_old = b_dotdot ∧ inode_p_old = ROOT_INODE
  | _ => False
  end.

(** The bytes [upload_file] cuts into chunks: the data, or their
    ciphertext when a key is configured. *)
Definition upload_payload (data : bytes) (w : world) : bytes :=
  match encryption_key (client w) with
  | Some key => fernet_encrypt key (urandom w) data
  | None => data
  end.

(** The messages that posting [chunks] adds to a channel whose next id is
    [next], the first chunk being part number [i]. *)
Fixpoint posted_messages (file_name : string) (next : Z) (i : nat)
    (chunks : list bytes) : list message :=
  match chunks with
  | [] => []
  | c :: chunks' =>
      {| m_id := next;
         m_file_name := file_name +:+ "_part" +:+ pretty i +:+ ".txt";
         m_media := c |}
      :: posted_messages file_name (next + 1) (S i) chunks'
  end.

(** The file name [release] uploads under: the decoded name of the one
    [contents] row of [fh]. *)
Definition file_name_of (fh : Z) (d : database) : string :=
  match c_name <$> contents_by_inode fh d with
  | [NBytes b] => string_of_list_byte b
  | _ => ""
  end.

(** The two halves of [release]: the flush of the write buffer, entered
    when the buffer is not empty, and the bookkeeping of the open count. *)
Definition release_flush (fh : Z) (data : bytes) : M unit :=
  modify (with_buffer [] None) ;;
  log (EvBufferReset data) ;;
  fname <- get_row (λ d, c_name <$> contents_by_inode fh d) ;;
  filename <- decode fname ;;
  telegram_msgs <- upload_file data fh filename ;;
  delete_msgs_for_inode fh ;;
  execute (DeleteMessages fh) ;;
  for_each telegram_msgs (λ id, execute (InsertMessage id fh)) ;;
  execute (UpdateInode col_size (len data) fh) ;;
  commit.

Definition release_forget (fh : Z) : M unit :=
  w <- get ;;
  if decide (open_count fh w = 0) then
    modify (λ w, with_open_count (delete fh (inode_open_count w)) w) ;;
    entry <- getattr fh ;;
    if decide (st_nlink entry = 0) then
      execute (DeleteInode fh) ;;
      commit
    else ret tt
  else ret tt.

(** The messages a flush of [data] for [fh] posts from the world [w]. *)
Definition flush_posts (fh : Z) (data : bytes) (w : world) : list message :=
  posted_messages (file_name_of fh (db w)) (next_message_id (client w)) 0
    (split_chunks FILE_MAX_SIZE_BYTES (upload_payload data w)).

(** The steps of a complete flush, in order: the buffer is taken and
    cleared, the chunks are posted, the old
    remote messages are deleted, the old mapping rows are deleted, the new
    ids are inserted in the order they were produced, the size is set, the
    transaction is committed. *)
Definition flush_events (fh : Z) (data : bytes) (w : world) : list event :=
  [EvBufferReset data]
  ++ (EvSendFile <$> flush_posts fh data w)
  ++ [EvDeleteMessages (t_id <$> messages_by_inode fh (db w));
      EvExecute (DeleteMessages fh)]
  ++ ((λ m, EvExecute (InsertMessage (m_id m) fh)) <$> flush_posts fh data w)
  ++ [EvExecute (UpdateInode col_size (len data) fh); EvCommit].

(** What the loop of [download_file] reads from the messages found:
    their documents in order, or nothing when a message is missing. *)
Fixpoint media_of (msgs : list (option message)) : option bytes :=
  match msgs with
  | [] => Some []
  | Some m :: msgs' => (λ rest, m_media m ++ rest) <$> media_of msgs'
  | None :: _ => None
  end.

(** The bytes the channel holds for [fh]: the documents of the messages
    that the rows of [fh] name, in the order of the rows. *)
Definition remote_payload (fh : Z) (w : world) : option bytes :=
  media_of ((λ id, head (filter (λ m, m_id m = id) (channel (client w))))
              <$> (t_id <$> messages_by_inode fh (db w))).

(** The plaintext of a payload: the payload itself without a key. *)
Definition decrypted (key : option string) (payload : bytes) : option bytes :=
  match key with
  | Some k => fernet_decrypt k payload
  | None => Some payload
  end.

(** What [get_telegram_data] returns for [fh] when the cache has no entry
    for it and [telegram_messages] has rows for it: the plaintext of the
    remote payload when it can be fetched, decrypted and cached, the empty
    bytearray of the [except] clause otherwise. *)
Definition fetched (fh : Z) (w : world) : bytes :=
  match remote_payload fh w ≫= decrypted (encryption_key (client w)) with
  | Some plain =>
      if decide (len plain > lru_maxsize (cached_files (client w))) then []
      else plain
  | None => []
  end.

(** The cache is the one [__init__] made, and the ids the process knows,
    in the channel and in [telegram_messages], were issued by the channel. *)
Definition world_ok (w : world) : Prop :=
  lru_maxsize (cached_files (client w)) = CACHE_MAXSIZE
  ∧ (∀ m, m ∈ channel (client w) → m_id m < next_message_id (client w))
  ∧ (∀ r, r ∈ telegram_messages (db w) →
          t_id r < next_message_id (client w)).

(** Nothing is left under the inode id [i]: no directory entry, no mapping
    row, no cache entry. *)
Definition unused_inode (i : Z) (w : world) : Prop :=
  contents_by_inode i (db w) = []
  ∧ messages_by_inode i (db w) = []
  ∧ lru_find i (cached_files (client w)) = None.

(** [parent] exists and is linked, and has no entry [name] yet. *)
Definition can_create (parent : Z) (name : pyname) (w : world) : Prop :=
  is_Some (inodes (db w) !! parent)
  ∧ contents_by_inode parent (db w) ≠ []
  ∧ contents_by_name name parent (db w) = [].

(** Decryption inverts encryption under the configured key. *)
Definition fernet_inverts (w : world) : Prop :=
  ∀ key iv d, encryption_key (client w) = Some key →
              fernet_decrypt key (fernet_encrypt key iv d) = Some d.

(** Create a file, write [B] at offset 0, release, reopen, read [len(B)]
    bytes at offset 0. *)
Definition write_release_read (parent : Z) (name : pyname) (mode flags : Z)
    (ctx : RequestContext) (B : bytes) : M bytes :=
  fe <- create parent name mode flags ctx ;;
  write (fst fe) 0 B ;;
  release (fst fe) ;;
  open (fst fe) flags ;;
  read (fst fe) 0 (length B).

(** A computation keeps the root invariant, whether it returns or raises. *)
Definition keeps_root {A} (m : M A) : Prop :=
  ∀ w, root_inv (db w) → root_inv (db (snd (m w))).

(** The statements that cannot touch the two rows of the root. *)
Definition spares_root (st : stmt) : Prop :=
  match st with
  | DeleteInode id => id ≠ ROOT_INODE
  | DeleteContents n p => ¬ (n = b_dotdot ∧ p = ROOT_INODE)
  | UpdateContentsInode _ n p => ¬ (n = b_dotdot ∧ p = ROOT_INODE)
  | UpdateContentsName _ _ n p => ¬ (n = b_dotdot ∧ p = ROOT_INODE)
  | _ => True
  end.

(** The upcalls that only ask: name resolution, attributes, listings,
    statistics, and the three that do nothing. *)
Definition reads_only (u : upcall) : Prop :=
  match u with
  | Lookup _ _ | Getattr _ | Readlink _ | Opendir _ | Readdir _ _
  | Statfs | Access _ _ | Close _ | Fsync _ => True
  | _ => False
  end.

(** [w'] is [w] but for the content of the cache and the write buffer: the
    tables, the open counts, the channel and its next id, the key, the
    capacity of the cache, the clock and the trace are the same. *)
Definition same_stored (w w' : world) : Prop :=
  db w' = db w
  ∧ inode_open_count w' = inode_open_count w
  ∧ trace w' = trace w
  ∧ channel (client w') = channel (client w)
  ∧ next_message_id (client w') = next_message_id (client w)
  ∧ encryption_key (client w') = encryption_key (client w)
  ∧ lru_maxsize (cached_files (client w'))
    = lru_maxsize (cached_files (client w))
  ∧ now_ns w' = now_ns w.

(** [w'] is [w] but for the content cache. *)
Definition same_but_cache (w w' : world) : Prop :=
  same_stored w w' ∧ write_buffer w' = write_buffer w.

(** A computation relates the world it starts in to the world it leaves,
    whether it returns or raises. *)
Definition within {A} (R : world → world → Prop) (m : M A) : Prop :=
  ∀ w, R w (snd (m w)).

(** What [UPDATE contents SET name=?, parent_inode=? WHERE name=? AND
    parent_inode=?] makes of a row. *)
Definition renamed (n' : pyname) (p' : Z) (n : pyname) (p : Z)
    (r : contents_row) : contents_row :=
  if decide (c_name r = n ∧ c_parent_inode r = p)
  then {| c_rowid := c_rowid r; c_name := n'; c_inode := c_inode r;
          c_parent_inode := p' |}
  else r.

(** The constraint UNIQUE (name, parent_inode) of [contents]. *)
Definition names_unique (d : database) : Prop :=
  NoDup ((λ r, (c_name r, c_parent_inode r)) <$> contents d).

(** The rowids of the rows [l] go up, from above [lo]. *)
Fixpoint increasing (lo : Z) (l : list contents_row) : Prop :=
  match l with
  | [] => True
  | r :: l' => lo < c_rowid r ∧ increasing (c_rowid r) l'
  end.

(** [rowid INTEGER PRIMARY KEY AUTOINCREMENT] of [contents]: the rows are
    in the order of their rowids, which are positive and not above the
    counter. *)
Definition rowids_ok (d : database) : Prop :=
  increasing 0 (contents d)
  ∧ Forall (λ r, c_rowid r ≤ contents_seq d) (contents d)
  ∧ 0 ≤ contents_seq d.

(** A property of the tables that holds after if it held before. *)
Definition keeps_db (I : database → Prop) (w w' : world) : Prop :=
  I (db w) → I (db w').

(** What [UPDATE contents SET inode=? WHERE name=? AND parent_inode=?]
    makes of a row. *)
Definition retargeted (i : Z) (n : pyname) (p : Z) (r : contents_row)
  : contents_row :=
  if decide (c_name r = n ∧ c_parent_inode r = p)
  then {| c_rowid := c_rowid r; c_name := c_name r; c_inode := i;
          c_parent_inode := c_parent_inode r |}
  else r.

(** The property [world_ok] holds after if it held before. *)
Definition keeps_ok (w w' : world) : Prop := world_ok w → world_ok w'.

(** [w'] is [w] but for the row of the inode [i], the cache and the trace:
    every other inode row, [contents], [telegram_messages], the channel and
    the clock are the same. *)
Definition same_but_inode (i : Z) (w w' : world) : Prop :=
  contents (db w') = contents (db w)
  ∧ telegram_messages (db w') = telegram_messages (db w)
  ∧ channel (client w') = channel (client w)
  ∧ now_ns w' = now_ns w
  ∧ ∀ j, j ≠ i → inodes (db w') !! j = inodes (db w) !! j.

End Filesystem.

(* ===================================================================== *)
(** ** Worlds for running the model on examples *)
(* ===================================================================== *)

Definition bs (s : string) : bytes := list_byte_of_string s.

Definition ctx0 : RequestContext := {| ctx_uid := 1000; ctx_gid := 1000 |}.

(** A fresh mount, without and with an encryption key. *)
Definition w_plain : world := mount None 1000 1000 0.
Definition w_keyed : world := mount (Some "k"%string) 1000 1000 0.

(** The value an example run returned ([d] when it raised). *)
Definition value_of {A} (d : A) (r : result A * world) : A :=
  match fst r with
  | Ok a => a
  | Raise _ => d
  end.

Definition no_entry : EntryAttributes :=
  {| st_ino := 0; generation := 0; entry_timeout := 0; attr_timeout := 0;
     st_mode := 0; st_nlink := 0; st_uid := 0; st_gid := 0; st_rdev := 0;
     st_size := 0; st_blksize := 0; st_blocks := 0; st_atime_ns := 0;
     st_mtime_ns := 0; st_ctime_ns := 0 |}.

Definition size_only : SetattrFields :=
  {| update_size := true; update_mode := false; update_uid := false;
     update_gid := false; update_atime := false; update_mtime := false;
     update_ctime := false |}.

(** The attributes a truncation to [n] bytes sends. *)
Definition attr_size (n : Z) : EntryAttributes :=
  {| st_ino := 0; generation := 0; entry_timeout := 0; attr_timeout := 0;
     st_mode := 0; st_nlink := 0; st_uid := 0; st_gid := 0; st_rdev := 0;
     st_size := n; st_blksize := 0; st_blocks := 0; st_atime_ns := 0;
     st_mtime_ns := 0; st_ctime_ns := 0 |}.

Definition name_f : pyname := NBytes (bs "f").
Definition name_g : pyname := NBytes (bs "g").

(** The file [f] (inode 2) made in the root by [create], still open. *)
Definition w_created : world :=
  snd (create 1 name_f 33188 0 ctx0 w_plain).

(** ... after [write(2, 0, b'hello')]. *)
Definition w_written : world :=
  snd (write toy_decrypt 2 0 (bs "hello") w_created).

(** ... after [release(2)]: [f] holds [b'hello'] in one message. *)
Definition w_flushed : world :=
  snd (release toy_encrypt 2 w_written).

(** ... reopened and written to again at the end of its content. *)
Definition w_rewritten : world :=
  snd ((open 2 0 ;; write toy_decrypt 2 5 (bs " world"))%monad w_flushed).

(** Two closed files in the root: [g] (inode 2, empty) and [f] (inode 3)
    holding [b'old'] in one message. *)
Definition w_two_files : world :=
  snd ((fe <- create 1 name_g 33188 0 ctx0 ;;
        release toy_encrypt (fst fe) ;;
        fe <- create 1 name_f 33188 0 ctx0 ;;
        write toy_decrypt (fst fe) 0 (bs "old") ;;
        release toy_encrypt (fst fe))%monad w_plain).

(** With a key: [f] (inode 2) holds [b'secret'], flushed and closed; then
    the first byte of every document in the channel is altered. *)
Definition w_secret : world :=
  snd ((fe <- create 1 name_f 33188 0 ctx0 ;;
        write toy_decrypt (fst fe) 0 (bs "secret") ;;
        release toy_encrypt (fst fe))%monad w_keyed).

Definition tamper (m : message) : message :=
  {| m_id := m_id m; m_file_name := m_file_name m;
     m_media := match m_media m with
                | [] => []
                | b :: rest =>
                    (if decide (b = "000"%byte) then "001"%byte
                     else "000"%byte) :: rest
                end |}.

Definition w_tampered : world :=
  with_client
    {| encryption_key := encryption_key (client w_secret);
       cached_files := cached_files (client w_secret);
       fname_to_msgs := fname_to_msgs (client w_secret);
       channel := tamper <$> channel (client w_secret);
       next_message_id := next_message_id (client w_secret) |} w_secret.

(** A plaintext one byte above the maximum size of the cache, and a
    payload of twice the chunk size. *)
Definition oversize : bytes :=
  replicate (Z.to_nat (CACHE_MAXSIZE + 1)) "000"%byte.

Definition two_chunks : bytes :=
  replicate (Z.to_nat (2 * FILE_MAX_SIZE_BYTES)) "000"%byte.

Definition name_d : pyname := NBytes (bs "d").
Definition name_h : pyname := NBytes (bs "h").

(** [w_flushed] after the file was read and closed again: the content of
    [f] (inode 2) is in the cache. *)
Definition w_read : world :=
  snd ((open 2 0 ;; read toy_decrypt 2 0 5 ;;
        release toy_encrypt 2)%monad w_flushed).

(** [w_flushed] after the messages of the channel were deleted behind the
    back of the process. *)
Definition w_lost : world :=
  with_client
    {| encryption_key := encryption_key (client w_flushed);
       cached_files := cached_files (client w_flushed);
       fname_to_msgs := fname_to_msgs (client w_flushed);
       channel := [];
       next_message_id := next_message_id (client w_flushed) |} w_flushed.

(** [w_two_files] with a second name [h] for the file [f] (inode 3), and
    the same after [b'x'] was written to that file. *)
Definition w_linked : world := snd (link 3 1 name_h w_two_files).

Definition w_linked_written : world :=
  snd ((open 3 0 ;; write toy_decrypt 3 3 (bs "x"))%monad w_linked).

(** A directory [d] (inode 2) in the root that holds a closed file [f]
    (inode 3). *)
Definition w_dir : world :=
  snd ((mkdir 1 name_d 16877 ctx0 ;;
        fe <- create 2 name_f 33188 0 ctx0 ;;
        release toy_encrypt (fst fe))%monad w_plain).

(** The file [f] (inode 2) is open when [g] (inode 3) is renamed over
    it. *)
Definition w_replaced_open : world :=
  snd ((create 1 name_f 33188 0 ctx0 ;;
        fe <- create 1 name_g 33188 0 ctx0 ;;
        release toy_encrypt (fst fe) ;;
        rename 1 name_g 1 name_f 0)%monad w_plain).

(** The file [f] (inode 2) was created, got a second name [g], and
    [b'x'] was written to it; it is still open. *)
Definition w_two_links_written : world :=
  snd ((fe <- create 1 name_f 33188 0 ctx0 ;;
        link (fst fe) 1 name_g ;;
        write toy_decrypt (fst fe) 0 (bs "x"))%monad w_plain).

(** The upcalls that make two closed files, [g] and [f], in the root. *)
Definition two_creates : list upcall :=
  [Create 1 name_g 33188 0 ctx0; Release 2;
   Create 1 name_f 33188 0 ctx0; Release 3].

(* ===================================================================== *)
(** ** Properties *)
(* ===================================================================== *)

(** The properties hold for every cipher with the interface of Fernet; the
    one law a property needs, [fernet_inverts], is a hypothesis of that
    property. *)
Section Properties.

Variable fernet_encrypt : string → nat → bytes → bytes.
Variable fernet_decrypt : string → bytes → option bytes.

#[local] Abbreviation upload_file := (upload_file fernet_encrypt).
#[local] Abbreviation download_file := (download_file fernet_decrypt).
#[local] Abbreviation get_telegram_data := (get_telegram_data fernet_decrypt).
#[local] Abbreviation setattr := (setattr fernet_decrypt).
#[local] Abbreviation read := (read fernet_decrypt).
#[local] Abbreviation write := (write fernet_decrypt).
#[local] Abbreviation release := (release fernet_encrypt).
#[local] Abbreviation handle := (handle fernet_encrypt fernet_decrypt).
#[local] Abbreviation serve := (serve fernet_encrypt fernet_decrypt).
#[local] Abbreviation upload_payload := (upload_payload fernet_encrypt).
#[local] Abbreviation release_flush := (release_flush fernet_encrypt).
#[local] Abbreviation flush_posts := (flush_posts fernet_encrypt).
#[local] Abbreviation flush_events := (flush_events fernet_encrypt).
#[local] Abbreviation decrypted := (decrypted fernet_decrypt).
#[local] Abbreviation fetched := (fetched fernet_decrypt).
#[local] Abbreviation fernet_inverts :=
  (fernet_inverts fernet_encrypt fernet_decrypt).
#[local] Abbreviation write_release_read :=
  (write_release_read fernet_encrypt fernet_decrypt).

(** *** The monad *)

Lemma bind_ok {A B} (m : M A) (k : A → M B) w a w' :
  m w = (Ok a, w') → bind m k w = k a w'.
Proof. intros H. unfold bind. by rewrite H. Qed.

Lemma bind_raise {A B} (m : M A) (k : A → M B) w e w' :
  m w = (Raise e, w') → bind m k w = (Raise e, w').
Proof. intros H. unfold bind. by rewrite H. Qed.

Lemma get_row_nil {A} (q : database → list A) w :
  q (db w) = [] → get_row q w = (Raise NoSuchRowError, w).
Proof. intros H. unfold get_row, bind, get, raise. by rewrite H. Qed.

Lemma get_row_one {A} (q : database → list A) w r :
  q (db w) = [r] → get_row q w = (Ok r, w).
Proof. intros H. unfold get_row, bind, get, ret. by rewrite H. Qed.

Lemma get_row_many {A} (q : database → list A) w r r' l :
  q (db w) = r :: r' :: l → get_row q w = (Raise NoUniqueValueError, w).
Proof. intros H. unfold get_row, bind, get, raise. by rewrite H. Qed.

Lemma get_row_inode_some w i r :
  inodes (db w) !! i = Some r → get_row (inode_by_id i) w = (Ok r, w).
Proof. intros H. apply get_row_one. unfold inode_by_id. by rewrite H. Qed.

Lemma get_row_inode_none w i :
  inodes (db w) !! i = None →
  get_row (inode_by_id i) w = (Raise NoSuchRowError, w).
Proof. intros H. apply get_row_nil. unfold inode_by_id. by rewrite H. Qed.

(** *** [read] and [write] on a file handle without an inodes row *)

(** C6. [read(fh, offset, length)] on a handle [fh] for which [inodes] has
    no row does not return the empty byte string: [get_row] raises
    [NoSuchRowError], which nothing in [read] catches, and the world is
    left as it was. *)
Theorem read_missing_inode_raises w fh offset length :
  inodes (db w) !! fh = None →
  read fh offset length w = (Raise NoSuchRowError, w).
Proof.
  intros H. unfold read.
  by rewrite (bind_raise _ _ _ _ _ (get_row_inode_none w fh H)).
Qed.

(** C9. [write(fh, offset, buf)] with an empty write buffer on a handle
    [fh] for which [inodes] has no row does not return [len(buf)]: the
    [get_row] that precedes the test [row != None] raises
    [NoSuchRowError], and the buffer stays empty. *)
Theorem write_missing_inode_raises w fh offset buf :
  write_buffer w = [] →
  inodes (db w) !! fh = None →
  write fh offset buf w = (Raise NoSuchRowError, w).
Proof.
  intros Hb H. unfold write.
  rewrite (bind_ok _ _ w w w) by done.
  rewrite decide_True by done.
  erewrite bind_raise; [done|].
  by rewrite (bind_raise _ _ _ _ _ (get_row_inode_none w fh H)).
Qed.

(** *** Running the primitives *)

Lemma execute_ok st w d :
  exec_stmt st (db w) = inl d →
  execute st w
  = (Ok tt, with_trace (trace w ++ [EvExecute st]) (with_db d w)).
Proof. intros H. unfold execute, bind, get, modify, log. by rewrite H. Qed.

Lemma execute_raise st w e :
  exec_stmt st (db w) = inr e → execute st w = (Raise e, w).
Proof. intros H. unfold execute, bind, get, raise. by rewrite H. Qed.

Lemma getattr_some w i r :
  inodes (db w) !! i = Some r →
  getattr i w
  = (Ok {| st_ino := i; generation := 0;
           entry_timeout := 300; attr_timeout := 300;
           st_mode := i_mode r;
           st_nlink := len (contents_by_inode i (db w));
           st_uid := i_uid r; st_gid := i_gid r;
           st_rdev := i_rdev r; st_size := i_size r;
           st_blksize := 512; st_blocks := 1;
           st_atime_ns := i_atime_ns r; st_mtime_ns := i_mtime_ns r;
           st_ctime_ns := i_ctime_ns r |}, w).
Proof.
  intros H. unfold getattr, try_except, bind, gets, ret.
  by rewrite (get_row_inode_some w i r H).
Qed.

Lemma getattr_none w i :
  inodes (db w) !! i = None → getattr i w = (Raise (FUSEError ENOENT), w).
Proof.
  intros H. unfold getattr, try_except, bind.
  by rewrite (get_row_inode_none w i H).
Qed.

(** [getattr] and [lookup] only read. *)
Lemma getattr_world w i : snd (getattr i w) = w.
Proof.
  destruct (inodes (db w) !! i) eqn:E.
  - by rewrite (getattr_some w i _ E).
  - by rewrite (getattr_none w i E).
Qed.

Lemma getattr_ino w i e w' : getattr i w = (Ok e, w') → st_ino e = i ∧ w' = w.
Proof.
  destruct (inodes (db w) !! i) eqn:E.
  - rewrite (getattr_some w i _ E). intros [= <- <-]. done.
  - rewrite (getattr_none w i E). done.
Qed.

Lemma get_row_world {A} (q : database → list A) w : snd (get_row q w) = w.
Proof.
  unfold get_row, bind, get, raise, ret.
  destruct (q (db w)) as [|? [|? ?]]; done.
Qed.

Lemma lookup_world w p n : snd (lookup p n w) = w.
Proof.
  unfold lookup, bind.
  repeat case_decide.
  - unfold ret. apply getattr_world.
  - unfold bind.
    pose proof (get_row_world (contents_by_inode p) w) as Hw.
    destruct (get_row (contents_by_inode p) w) as [[r|e] w1];
      simpl in Hw; subst w1; [|done].
    unfold ret. apply getattr_world.
  - unfold try_except, bind.
    pose proof (get_row_world (contents_by_name n p) w) as Hw.
    destruct (get_row (contents_by_name n p) w) as [[r|e] w1];
      simpl in Hw; subst w1.
    + unfold ret. apply getattr_world.
    + destruct e; simpl; try done.
Qed.

(** *** [_remove] on an inode that is open *)

(** C3. When the inode to remove has no children and is in the open-count
    map, [_remove] executes no DELETE at all: neither of its two guarded
    blocks runs, only the commit. The [contents] row of [(name, inode_p)]
    therefore stays, with the inode row, the message rows and the remote
    messages. *)
Theorem remove_open_inode_deletes_nothing w inode_p name entry :
  contents_by_parent (st_ino entry) (db w) = [] →
  is_Some (inode_open_count w !! st_ino entry) →
  _remove inode_p name entry w
  = (Ok tt, with_trace (trace w ++ [EvCommit]) w).
Proof.
  intros Hc [n Hn]. unfold _remove.
  rewrite (bind_ok _ _ w w w) by done.
  rewrite Hc. rewrite decide_False by (unfold len; simpl; lia).
  erewrite bind_ok by done.
  rewrite decide_False by (intros [_ ?]; congruence).
  erewrite bind_ok by done.
  rewrite decide_False by (intros [_ ?]; congruence).
  erewrite bind_ok by done.
  done.
Qed.

(** *** [_replace] and the rows of [telegram_messages] *)

(** What [_remove] and [_replace] do when the inode has one link and is not
    open. *)
Lemma delete_msgs_for_inode_run w fh :
  delete_msgs_for_inode fh w
  = (Ok tt,
     let ids := t_id <$> messages_by_inode fh (db w) in
     with_trace (trace w ++ [EvDeleteMessages ids])
       (with_client
          {| encryption_key := encryption_key (client w);
             cached_files := cached_files (client w);
             fname_to_msgs := fname_to_msgs (client w);
             channel := filter (λ m, m_id m ∉ ids) (channel (client w));
             next_message_id := next_message_id (client w) |} w)).
Proof. done. Qed.

Lemma remove_last_link_run w inode_p name entry :
  contents_by_parent (st_ino entry) (db w) = [] →
  st_nlink entry = 1 →
  inode_open_count w !! st_ino entry = None →
  ∃ w', _remove inode_p name entry w = (Ok tt, w')
    ∧ telegram_messages (db w')
      = filter (λ r, t_inode r ≠ st_ino entry) (telegram_messages (db w)).
Proof.
  intros Hc Hn Ho. unfold _remove.
  rewrite (bind_ok _ _ w w w) by done.
  rewrite Hc. rewrite decide_False by (unfold len; simpl; lia).
  erewrite bind_ok by done.
  rewrite decide_True by done.
  erewrite bind_ok.
  2:{ erewrite bind_ok by (by apply execute_ok).
      erewrite bind_ok by apply delete_msgs_for_inode_run.
      erewrite bind_ok by (by apply execute_ok).
      by apply execute_ok. }
  rewrite decide_False by lia.
  erewrite bind_ok by done.
  eexists. split; [done|]. done.
Qed.

Lemma replace_last_link_run w inode_p_old name_old inode_p_new name_new
    entry_old entry_new :
  contents_by_parent (st_ino entry_new) (db w) = [] →
  st_nlink entry_new = 1 →
  inode_open_count w !! st_ino entry_new = None →
  ∃ w', _replace inode_p_old name_old inode_p_new name_new
                 entry_old entry_new w = (Ok tt, w')
    ∧ inodes (db w') = delete (st_ino entry_new) (inodes (db w))
    ∧ channel (client w')
      = filter (λ m, m_id m ∉ t_id <$> messages_by_inode (st_ino entry_new)
                                                         (db w))
               (channel (client w))
    ∧ telegram_messages (db w') = telegram_messages (db w).
Proof.
  intros Hc Hn Ho. unfold _replace.
  rewrite (bind_ok _ _ w w w) by done.
  rewrite Hc. rewrite decide_False by (unfold len; simpl; lia).
  erewrite bind_ok by done.
  erewrite bind_ok by (by apply execute_ok).
  erewrite bind_ok by (by apply execute_ok).
  rewrite decide_True by done.
  erewrite bind_ok.
  2:{ erewrite bind_ok by (by apply execute_ok).
      apply delete_msgs_for_inode_run. }
  eexists. split; [done|]. done.
Qed.

(** C10. [_replace] on a destination with one link, no children and no
    open handle returns, deletes the destination's [inodes] row and its
    remote messages, and leaves [telegram_messages] as it was, so every
    mapping row of the deleted inode is still there; [_remove] in the same
    situation deletes those rows. *)
Theorem replace_keeps_message_rows w inode_p_old name_old inode_p_new
    name_new entry_old entry_new :
  contents_by_parent (st_ino entry_new) (db w) = [] →
  st_nlink entry_new = 1 →
  inode_open_count w !! st_ino entry_new = None →
  let ino := st_ino entry_new in
  let ids := t_id <$> messages_by_inode ino (db w) in
  let r := _replace inode_p_old name_old inode_p_new name_new
                    entry_old entry_new w in
  fst r = Ok tt
  ∧ inodes (db (snd r)) !! ino = None
  ∧ channel (client (snd r)) = filter (λ m, m_id m ∉ ids) (channel (client w))
  ∧ telegram_messages (db (snd r)) = telegram_messages (db w)
  ∧ messages_by_inode ino (db (snd r)) = messages_by_inode ino (db w)
  ∧ telegram_messages (db (snd (_remove inode_p_new name_new entry_new w)))
    = filter (λ r, t_inode r ≠ ino) (telegram_messages (db w)).
Proof.
  intros Hc Hn Ho ino ids r.
  destruct (replace_last_link_run w inode_p_old name_old inode_p_new
              name_new entry_old entry_new Hc Hn Ho)
    as (w1 & Hrun & Hi & Hch & Ht).
  destruct (remove_last_link_run w inode_p_new name_new entry_new Hc Hn Ho)
    as (w2 & Hrun2 & Ht2).
  subst r. rewrite Hrun, Hrun2. simpl.
  split_and!; try done.
  - rewrite Hi. apply lookup_delete_eq.
  - unfold messages_by_inode. by rewrite Ht.
Qed.

(** *** The root invariant *)

Lemma keeps_ret {A} (a : A) : keeps_root (ret a).
Proof. by intros w. Qed.

Lemma keeps_raise {A} e : keeps_root (@raise A e).
Proof. by intros w. Qed.

Lemma keeps_get : keeps_root get.
Proof. by intros w. Qed.

Lemma keeps_gets {A} (f : world → A) : keeps_root (gets f).
Proof. by intros w. Qed.

Lemma keeps_modify f : (∀ w, db (f w) = db w) → keeps_root (modify f).
Proof. intros H w Hw. simpl. by rewrite H. Qed.

Lemma keeps_log e : keeps_root (log e).
Proof. by apply keeps_modify. Qed.

Lemma keeps_bind {A B} (m : M A) (k : A → M B) :
  keeps_root m → (∀ a, keeps_root (k a)) → keeps_root (bind m k).
Proof.
  intros Hm Hk w Hw. unfold bind. specialize (Hm w Hw).
  destruct (m w) as [[a|e] w1]; simpl in *; [by apply Hk|done].
Qed.

(** The continuation may use what the first part returned, in the world it
    returned it in. *)
Lemma keeps_bind_with {A B} (m : M A) (k : A → M B) w :
  root_inv (db (snd (m w))) →
  (∀ a w1, m w = (Ok a, w1) → root_inv (db (snd (k a w1)))) →
  root_inv (db (snd (bind m k w))).
Proof.
  intros Hm Hk. unfold bind.
  destruct (m w) as [[a|e] w1] eqn:E; simpl in *; [by eapply Hk|done].
Qed.

Lemma keeps_try {A} (m : M A) (h : exn → option (M A)) :
  keeps_root m → (∀ e k, h e = Some k → keeps_root k) →
  keeps_root (try_except m h).
Proof.
  intros Hm Hh w Hw. unfold try_except. specialize (Hm w Hw).
  destruct (m w) as [[a|e] w1]; simpl in *; [done|].
  destruct (h e) as [k|] eqn:E; [by eapply Hh|done].
Qed.

Lemma keeps_get_row {A} (q : database → list A) : keeps_root (get_row q).
Proof. intros w Hw. by rewrite get_row_world. Qed.

Lemma keeps_get_rows {A} (q : database → list A) : keeps_root (get_rows q).
Proof.
  intros w Hw. unfold get_rows, bind, get, raise, ret.
  by destruct (q (db w)).
Qed.

Lemma keeps_for_each {A} (l : list A) (body : A → M unit) :
  (∀ x, keeps_root (body x)) → keeps_root (for_each l body).
Proof.
  intros H. induction l as [|x l IH]; simpl.
  - apply keeps_ret.
  - apply keeps_bind; [apply H|]. intros _. apply IH.
Qed.

Lemma max_inode_id_ge (m : gmap Z inode_row) i :
  is_Some (m !! i) → i ≤ max_inode_id m.
Proof.
  intros [r Hr]. unfold max_inode_id.
  apply elem_of_map_to_list in Hr.
  assert (Hi : i ∈ (map_to_list m).*1).
  { apply list_elem_of_fmap. by exists (i, r). }
  clear Hr. induction (map_to_list m).*1 as [|x l IH]; simpl.
  - by apply elem_of_nil in Hi.
  - apply elem_of_cons in Hi as [->|Hi]; [lia|].
    specialize (IH Hi). lia.
Qed.

Lemma next_inode_id_fresh (m : gmap Z inode_row) :
  m !! next_inode_id m = None.
Proof.
  destruct (m !! next_inode_id m) eqn:E; [|done].
  assert (next_inode_id m ≤ max_inode_id m) by (by apply max_inode_id_ge).
  unfold next_inode_id in *. lia.
Qed.

Lemma exec_stmt_root st d d' :
  spares_root st → exec_stmt st d = inl d' → root_inv d → root_inv d'.
Proof.
  intros Hs He [Hi (r & Hr & Hn & Hri & Hrp)].
  destruct st as [[id|] row|n i p|id i|id|n p|i|i n p|n' p' n p|c v id];
    simpl in *.
  - destruct (inodes d !! id) eqn:E; [done|]. injection He as <-.
    split; simpl; [|by exists r].
    rewrite lookup_insert_ne; [done|]. intros ->. rewrite E in Hi.
    by destruct Hi.
  - injection He as <-. split; simpl; [|by exists r].
    rewrite lookup_insert_ne; [done|]. intros Heq.
    pose proof (next_inode_id_fresh (inodes d)) as Hf.
    rewrite Heq in Hf. rewrite Hf in Hi. by destruct Hi.
  - destruct (contents_by_name n p d); [|done]. injection He as <-.
    split; simpl; [done|]. exists r. split; [|done].
    apply elem_of_app. by left.
  - case_decide; [done|]. injection He as <-. split; simpl; [done|].
    by exists r.
  - injection He as <-. split; simpl; [|by exists r].
    by rewrite lookup_delete_ne.
  - injection He as <-. split; simpl; [done|]. exists r. split; [|done].
    apply list_elem_of_filter. split; [|done]. intros [? ?]. apply Hs.
    split; congruence.
  - injection He as <-. split; simpl; [done|]. by exists r.
  - injection He as <-. split; simpl; [done|]. exists r. split; [|done].
    apply list_elem_of_fmap. exists r. split; [|done].
    rewrite decide_False; [done|]. intros [? ?]. apply Hs. split; congruence.
  - destruct (contents_by_name n p d).
    { injection He as <-. split; [done|]. by exists r. }
    case_decide.
    { injection He as <-. split; [done|]. by exists r. }
    destruct (contents_by_name n' p' d); [|done]. injection He as <-.
    split; simpl; [done|]. exists r. split; [|done].
    apply list_elem_of_fmap. exists r. split; [|done].
    rewrite decide_False; [done|]. intros [? ?]. apply Hs. split; congruence.
  - injection He as <-. split; simpl; [|by exists r].
    rewrite lookup_alter. case_decide; [|done]. subst id.
    destruct Hi as [x Hx]. rewrite Hx. by eexists.
Qed.

Lemma keeps_execute st : spares_root st → keeps_root (execute st).
Proof.
  intros Hs w Hw. destruct (exec_stmt st (db w)) as [d|e] eqn:E.
  - rewrite (execute_ok _ _ _ E). simpl. by eapply exec_stmt_root.
  - by rewrite (execute_raise _ _ _ E).
Qed.

Create HintDb keeps discriminated.

Ltac keeps_handler :=
  let e := fresh "e" in let k := fresh "k" in let H := fresh "H" in
  intros e k H; unfold no_row_is_ENOENT in H;
  repeat case_match; simplify_eq.

Ltac keeps_step :=
  lazymatch goal with
  | |- keeps_root (bind _ _) => apply keeps_bind; [| intros ?]
  | |- keeps_root (ret _) => apply keeps_ret
  | |- keeps_root (raise _) => apply keeps_raise
  | |- keeps_root get => apply keeps_get
  | |- keeps_root (gets _) => apply keeps_gets
  | |- keeps_root (log _) => apply keeps_log
  | |- keeps_root commit => apply keeps_log
  | |- keeps_root (get_row _) => apply keeps_get_row
  | |- keeps_root (get_rows _) => apply keeps_get_rows
  | |- keeps_root (modify _) => apply keeps_modify; intros; reflexivity
  | |- keeps_root (execute _) =>
      apply keeps_execute; first [exact I | assumption]
  | |- keeps_root (try_except _ _) => apply keeps_try; [| keeps_handler]
  | |- keeps_root (for_each _ _) => apply keeps_for_each; intros ?
  | |- keeps_root (if ?c then _ else _) => destruct c
  | |- keeps_root (match ?x with _ => _ end) => destruct x
  | |- keeps_root _ => solve [auto with keeps]
  end.

Ltac keeps := repeat keeps_step.

Lemma keeps_getattr i : keeps_root (getattr i).
Proof. intros w Hw. by rewrite getattr_world. Qed.

Lemma keeps_lookup p n : keeps_root (lookup p n).
Proof. intros w Hw. by rewrite lookup_world. Qed.

#[local] Hint Resolve keeps_getattr keeps_lookup : keeps.

Lemma keeps_readlink i : keeps_root (readlink i).
Proof. unfold readlink. keeps. Qed.

Lemma keeps_opendir i : keeps_root (opendir i).
Proof. unfold opendir. keeps. Qed.

Lemma keeps_readdir_rows rows : keeps_root (readdir_rows rows).
Proof. induction rows; simpl; keeps. Qed.

#[local] Hint Resolve keeps_readdir_rows : keeps.

Lemma keeps_readdir i off : keeps_root (readdir i off).
Proof. unfold readdir. keeps. Qed.

Lemma keeps_modify_client f : keeps_root (modify_client f).
Proof. unfold modify_client. keeps. Qed.

#[local] Hint Resolve keeps_modify_client : keeps.

Lemma keeps_delete_messages ids : keeps_root (delete_messages ids).
Proof. unfold delete_messages. keeps. Qed.

#[local] Hint Resolve keeps_delete_messages : keeps.

Lemma keeps_delete_msgs_for_inode fh : keeps_root (delete_msgs_for_inode fh).
Proof. unfold delete_msgs_for_inode. keeps. Qed.

#[local] Hint Resolve keeps_delete_msgs_for_inode : keeps.

(** The root always has a child, its own [b'..'] entry, and a link, the
    same entry. *)
Lemma root_has_child d :
  root_inv d → len (contents_by_parent ROOT_INODE d) > 0.
Proof.
  intros [_ (r & Hr & _ & _ & Hp)].
  assert (H : r ∈ contents_by_parent ROOT_INODE d).
  { apply list_elem_of_filter. done. }
  unfold len. destruct (contents_by_parent ROOT_INODE d); simpl; [|lia].
  by apply elem_of_nil in H.
Qed.

Lemma root_has_link d :
  root_inv d → len (contents_by_inode ROOT_INODE d) > 0.
Proof.
  intros [_ (r & Hr & _ & Hi & _)].
  assert (H : r ∈ contents_by_inode ROOT_INODE d).
  { apply list_elem_of_filter. done. }
  unfold len. destruct (contents_by_inode ROOT_INODE d); simpl; [|lia].
  by apply elem_of_nil in H.
Qed.

(** The entry [lookup] finds under the root's [b'..'] is the root. *)
Lemma lookup_root_dotdot w e w' :
  root_inv (db w) →
  lookup ROOT_INODE b_dotdot w = (Ok e, w') → st_ino e = ROOT_INODE.
Proof.
  intros [_ (r & Hr & Hn & Hi & Hp)]. unfold lookup.
  rewrite decide_False by done. rewrite decide_False by done.
  unfold bind at 1, try_except.
  assert (Hin : r ∈ contents_by_name b_dotdot ROOT_INODE (db w)).
  { apply list_elem_of_filter. done. }
  unfold get_row, bind at 1 2, get, raise, ret.
  destruct (contents_by_name b_dotdot ROOT_INODE (db w)) as [|x [|y l]];
    simpl; try done.
  apply list_elem_of_singleton in Hin. subst x. rewrite Hi.
  intros H. by apply getattr_ino in H as [? _].
Qed.

Lemma keeps_remove inode_p name entry w :
  root_inv (db w) →
  (name = b_dotdot ∧ inode_p = ROOT_INODE → st_ino entry = ROOT_INODE) →
  root_inv (db (snd (_remove inode_p name entry w))).
Proof.
  intros Hw Hrel. unfold _remove.
  rewrite (bind_ok _ _ w w w) by done.
  destruct (decide (len (contents_by_parent (st_ino entry) (db w)) > 0))
    as [Hc|Hc].
  { by erewrite bind_raise by done. }
  erewrite bind_ok by done.
  assert (Hne : st_ino entry ≠ ROOT_INODE).
  { intros Heq. rewrite Heq in Hc. by apply Hc, root_has_child. }
  assert (Hs : ¬ (name = b_dotdot ∧ inode_p = ROOT_INODE))
    by (intros H'; apply Hne, Hrel, H').
  generalize (inode_open_count w). intros oc.
  refine ((_ : keeps_root _) w Hw). keeps.
Qed.

Lemma keeps_unlink p n : keeps_root (unlink p n).
Proof.
  intros w Hw. unfold unlink.
  apply keeps_bind_with; [by apply keeps_lookup|]. intros e w1 He.
  pose proof (lookup_world w p n) as Hw1. rewrite He in Hw1. simpl in Hw1.
  subst w1.
  destruct (S_ISDIR (st_mode e)).
  { by erewrite bind_raise by done. }
  erewrite bind_ok by done.
  apply keeps_remove; [done|]. intros [-> ->]. by eapply lookup_root_dotdot.
Qed.

Lemma keeps_rmdir p n : keeps_root (rmdir p n).
Proof.
  intros w Hw. unfold rmdir.
  apply keeps_bind_with; [by apply keeps_lookup|]. intros e w1 He.
  pose proof (lookup_world w p n) as Hw1. rewrite He in Hw1. simpl in Hw1.
  subst w1.
  destruct (negb (S_ISDIR (st_mode e))).
  { by erewrite bind_raise by done. }
  erewrite bind_ok by done.
  apply keeps_remove; [done|]. intros [-> ->]. by eapply lookup_root_dotdot.
Qed.

Lemma keeps_create_ p n mode ctx rdev target :
  keeps_root (_create p n mode ctx rdev target).
Proof. unfold _create. keeps. Qed.

#[local] Hint Resolve keeps_create_ : keeps.

Lemma keeps_replace p_old n_old p_new n_new e_old e_new w :
  root_inv (db w) →
  ¬ (n_old = b_dotdot ∧ p_old = ROOT_INODE) →
  (n_new = b_dotdot ∧ p_new = ROOT_INODE → st_ino e_new = ROOT_INODE) →
  root_inv (db (snd (_replace p_old n_old p_new n_new e_old e_new w))).
Proof.
  intros Hw Hold Hrel. unfold _replace.
  rewrite (bind_ok _ _ w w w) by done.
  destruct (decide (len (contents_by_parent (st_ino e_new) (db w)) > 0))
    as [Hc|Hc].
  { by erewrite bind_raise by done. }
  erewrite bind_ok by done.
  assert (Hne : st_ino e_new ≠ ROOT_INODE).
  { intros Heq. rewrite Heq in Hc. by apply Hc, root_has_child. }
  assert (Hs : ¬ (n_new = b_dotdot ∧ p_new = ROOT_INODE))
    by (intros H'; apply Hne, Hrel, H').
  generalize (inode_open_count w). intros oc.
  refine ((_ : keeps_root _) w Hw). keeps.
Qed.

Lemma keeps_rename p_old n_old p_new n_new flags :
  ¬ (n_old = b_dotdot ∧ p_old = ROOT_INODE) →
  keeps_root (rename p_old n_old p_new n_new flags).
Proof.
  intros Hold w Hw. unfold rename.
  destruct (decide (flags ≠ 0)).
  { by erewrite bind_raise by done. }
  erewrite bind_ok by done.
  apply keeps_bind_with; [by apply keeps_lookup|]. intros e_old w1 He.
  pose proof (lookup_world w p_old n_old) as Hw1. rewrite He in Hw1.
  simpl in Hw1. subst w1.
  assert (Hnew : ∀ t w1,
    try_except (entry_new <- lookup p_new n_new ;; ret (Some entry_new))
      (λ e, match e with
            | FUSEError ENOENT => Some (ret None)
            | _ => None
            end) w = (Ok t, w1) →
    w1 = w ∧ ∀ e_new, t = Some e_new → lookup p_new n_new w = (Ok e_new, w)).
  { intros t w1. unfold try_except, bind, ret.
    pose proof (lookup_world w p_new n_new) as Hl.
    destruct (lookup p_new n_new w) as [[e1|x] w2]; simpl in Hl; subst w2.
    - intros [= <- <-]. split; [done|]. by intros ? [= <-].
    - destruct x as [[]| | | | | | | |]; try done.
      intros [= <- <-]. split; [done|]. done. }
  apply keeps_bind_with.
  { refine ((_ : keeps_root _) w Hw). keeps. }
  intros t w1 Ht. apply Hnew in Ht as [-> Ht].
  destruct t as [e_new|].
  - apply keeps_replace; [done..|]. intros [-> ->].
    eapply lookup_root_dotdot; [done|]. by apply Ht.
  - refine ((_ : keeps_root _) w Hw). keeps.
Qed.

Lemma keeps_symlink p n t ctx : keeps_root (symlink p n t ctx).
Proof. unfold symlink. keeps. Qed.

Lemma keeps_link i p n : keeps_root (link i p n).
Proof. unfold link. keeps. Qed.

Lemma keeps_cache_pop fh : keeps_root (cache_pop fh).
Proof. unfold cache_pop. keeps. Qed.

Lemma keeps_cache_store fh barr : keeps_root (cache_store fh barr).
Proof. unfold cache_store. keeps. Qed.

Lemma keeps_send_file fname c : keeps_root (send_file fname c).
Proof. unfold send_file. keeps. Qed.

#[local] Hint Resolve keeps_cache_pop keeps_cache_store keeps_send_file
  : keeps.

Lemma keeps_upload_chunks file_name i chunks :
  keeps_root (upload_chunks file_name i chunks).
Proof. revert i. induction chunks; intros i; simpl; keeps. Qed.

#[local] Hint Resolve keeps_upload_chunks : keeps.

Lemma keeps_upload_file data fh file_name :
  keeps_root (upload_file data fh file_name).
Proof. unfold upload_file. keeps. Qed.

Lemma keeps_get_cached_file fh : keeps_root (get_cached_file fh).
Proof. unfold get_cached_file. keeps. Qed.

Lemma keeps_get_messages ids : keeps_root (get_messages ids).
Proof. unfold get_messages. keeps. Qed.

Lemma keeps_download_message m : keeps_root (download_message m).
Proof. unfold download_message. keeps. Qed.

#[local] Hint Resolve keeps_upload_file keeps_get_cached_file
  keeps_get_messages keeps_download_message : keeps.

Lemma keeps_download_all msgs : keeps_root (download_all msgs).
Proof. induction msgs; simpl; keeps. Qed.

#[local] Hint Resolve keeps_download_all : keeps.

Lemma keeps_download_file fh ids : keeps_root (download_file fh ids).
Proof. unfold download_file. keeps. Qed.

#[local] Hint Resolve keeps_download_file : keeps.

Lemma keeps_get_telegram_data fh : keeps_root (get_telegram_data fh).
Proof. unfold get_telegram_data. keeps. Qed.

#[local] Hint Resolve keeps_get_telegram_data : keeps.

Lemma keeps_setattr i attr fields fh : keeps_root (setattr i attr fields fh).
Proof. unfold setattr. keeps. Qed.

Lemma keeps_mknod p n mode rdev ctx : keeps_root (mknod p n mode rdev ctx).
Proof. unfold mknod. keeps. Qed.

Lemma keeps_mkdir p n mode ctx : keeps_root (mkdir p n mode ctx).
Proof. unfold mkdir. keeps. Qed.

Lemma keeps_statfs : keeps_root statfs.
Proof. unfold statfs. keeps. Qed.

Lemma keeps_open i flags : keeps_root (open i flags).
Proof. unfold open. keeps. Qed.

Lemma keeps_access i mode : keeps_root (access i mode).
Proof. unfold access. keeps. Qed.

Lemma keeps_create p n mode flags ctx : keeps_root (create p n mode flags ctx).
Proof. unfold create. keeps. Qed.

Lemma keeps_read fh off n : keeps_root (read fh off n).
Proof. unfold read. keeps. Qed.

Lemma keeps_extend_write_buffer buf : keeps_root (extend_write_buffer buf).
Proof.
  unfold extend_write_buffer. apply keeps_modify. intros w.
  by destruct (write_buffer_cached w).
Qed.

#[local] Hint Resolve keeps_extend_write_buffer : keeps.

Lemma keeps_write fh off buf : keeps_root (write fh off buf).
Proof. unfold write. keeps. Qed.

Lemma keeps_decode n : keeps_root (decode n).
Proof. unfold decode. keeps. Qed.

#[local] Hint Resolve keeps_decode : keeps.

Lemma keeps_release fh : keeps_root (release fh).
Proof.
  unfold release.
  apply keeps_bind; [keeps|]. intros _.
  apply keeps_bind; [keeps|]. intros w0.
  apply keeps_bind; [keeps|]. intros _.
  apply keeps_bind; [keeps|]. intros w1.
  case_decide; [|keeps].
  apply keeps_bind; [keeps|]. intros _.
  intros w Hw. apply keeps_bind_with; [by apply keeps_getattr|].
  intros e w2 He.
  pose proof He as He'. apply getattr_ino in He' as [Hino ->].
  case_decide as Hl; [|done].
  assert (fh ≠ ROOT_INODE).
  { intros ->. pose proof (root_has_link _ Hw) as Hk.
    destruct (inodes (db w) !! ROOT_INODE) as [r|] eqn:E.
    - rewrite (getattr_some _ _ _ E) in He. injection He as <-.
      simpl in Hl. lia.
    - by rewrite (getattr_none _ _ E) in He. }
  refine ((_ : keeps_root _) w Hw). keeps.
Qed.

Lemma keeps_void {A} (m : M A) : keeps_root m → keeps_root (void m).
Proof. intros H. unfold void. keeps. Qed.

Lemma keeps_handle u : ¬ renames_root_dotdot u → keeps_root (handle u).
Proof.
  intros Hu. destruct u; simpl in *;
    try (apply keeps_void);
    eauto using keeps_lookup, keeps_getattr, keeps_readlink, keeps_opendir,
      keeps_readdir, keeps_unlink, keeps_rmdir, keeps_symlink, keeps_rename,
      keeps_link, keeps_setattr, keeps_mknod, keeps_mkdir, keeps_statfs,
      keeps_open, keeps_access, keeps_create, keeps_read, keeps_write,
      keeps_release, keeps_ret.
Qed.

Lemma mount_root_inv key uid gid now : root_inv (db (mount key uid gid now)).
Proof.
  unfold mount, init_tables.
  erewrite bind_ok by done.
  erewrite bind_ok by (by apply execute_ok).
  erewrite bind_ok by (by apply execute_ok).
  unfold commit, log, modify, root_inv.
  cbn [snd fst db with_trace with_db inodes contents]. split.
  - rewrite lookup_insert_eq. by eexists.
  - eexists. split; [apply list_elem_of_singleton; reflexivity|done].
Qed.

(** C8. After initialization and after every sequence of upcalls that the
    kernel delivers (none of them a rename of the root's own [b'..'] entry),
    whether they return or raise, the row of the root inode exists and
    [contents] holds a row named [b'..'] whose [inode] and [parent_inode]
    are both the root. *)
Theorem root_invariant key uid gid now (us : list upcall) :
  Forall (λ u, ¬ renames_root_dotdot u) us →
  root_inv (db (serve us (mount key uid gid now))).
Proof.
  intros Hus. generalize (mount_root_inv key uid gid now).
  generalize (mount key uid gid now). induction Hus as [|u us Hu _ IH].
  - done.
  - intros w Hw. simpl. apply IH. by apply keeps_handle.
Qed.

(** *** [upload_file] *)

Lemma posted_messages_length name next i chunks :
  length (posted_messages name next i chunks) = length chunks.
Proof.
  revert next i. induction chunks; intros; simpl; [done|]. by rewrite IHchunks.
Qed.

Lemma posted_messages_media name next i chunks :
  m_media <$> posted_messages name next i chunks = chunks.
Proof.
  revert next i. induction chunks; intros; simpl; [done|]. by rewrite IHchunks.
Qed.

Lemma posted_messages_ids name next i chunks :
  m_id <$> posted_messages name next i chunks = seqZ next (len chunks).
Proof.
  revert next i. induction chunks as [|c chunks IH]; intros; [done|].
  unfold len. simpl length. rewrite Nat2Z.inj_succ, seqZ_cons by lia.
  simpl. rewrite IH. unfold len. do 2 f_equal; lia.
Qed.

Lemma upload_chunks_run name chunks : ∀ i w,
  let msgs := posted_messages name (next_message_id (client w)) i chunks in
  upload_chunks name i chunks w
  = (Ok (m_id <$> msgs),
     with_trace (trace w ++ (EvSendFile <$> msgs))
       (with_client
          {| encryption_key := encryption_key (client w);
             cached_files := cached_files (client w);
             fname_to_msgs := fname_to_msgs (client w);
             channel := channel (client w) ++ msgs;
             next_message_id := next_message_id (client w) + len msgs |} w)).
Proof.
  induction chunks as [|c chunks IH]; intros i w msgs.
  - subst msgs. simpl. unfold ret. f_equal.
    destruct w as [? ? ? ? [? ? ? ? ?] ? ? ?]. unfold with_trace, with_client.
    simpl. by rewrite !app_nil_r, Z.add_0_r.
  - subst msgs. simpl.
    unfold send_file at 1. unfold bind at 1 2 3 4. unfold get at 1.
    unfold modify_client at 1, modify at 1, log at 1, modify at 1.
    unfold ret at 1. cbn [m_id].
    unfold bind at 1. rewrite IH. unfold bind, ret. f_equal.
    destruct w as [? ? ? ? [? ? ? ? ?] ? ? ?]. unfold with_trace, with_client.
    cbn. rewrite <- !app_assoc. simpl. unfold len. simpl length.
    rewrite Nat2Z.inj_succ, <- Z.add_1_l, Z.add_assoc. reflexivity.
Qed.

Lemma filter_none {A} (P : A → Prop) `{∀ x, Decision (P x)} (l : list A) :
  (∀ x, x ∈ l → ¬ P x) → filter P l = [].
Proof.
  induction l as [|x l IH]; intros Hl; [done|].
  rewrite filter_cons_False by (apply Hl; left).
  apply IH. intros y Hy. apply Hl. by right.
Qed.

Lemma filter_all {A} (P : A → Prop) `{∀ x, Decision (P x)} (l : list A) :
  (∀ x, x ∈ l → P x) → filter P l = l.
Proof.
  induction l as [|x l IH]; intros Hl; [done|].
  rewrite filter_cons_True by (apply Hl; left).
  f_equal. apply IH. intros y Hy. apply Hl. by right.
Qed.

Lemma split_chunks_multiple (max_size : Z) (payload : bytes) (k : Z) :
  0 < max_size → 2 ≤ k → len payload = k * max_size →
  split_chunks max_size payload
  = (λ i, slice (Z.to_nat (i * max_size)) (Z.to_nat ((i + 1) * max_size))
                payload) <$> seqZ 0 (k + 1).
Proof.
  intros HF Hk Hlen. unfold split_chunks.
  rewrite decide_True by nia.
  rewrite Hlen.
  replace (k * max_size + max_size) with ((k + 1) * max_size) by lia.
  rewrite Z.div_mul by lia. done.
Qed.

Lemma lru_find_pop k c : lru_find k (lru_pop k c) = None.
Proof.
  unfold lru_find, lru_pop. simpl.
  rewrite filter_none; [done|]. intros e He.
  by apply list_elem_of_filter in He as [? _].
Qed.

Lemma upload_payload_no_key data w :
  encryption_key (client w) = None → upload_payload data w = data.
Proof. intros H. unfold upload_payload. by rewrite H. Qed.

(** [upload_file] always returns, with one message id per chunk, in the
    order of the chunks; it changes the channel, the cache entry of [fh],
    the bookkeeping of the client and the randomness, nothing else. *)
Lemma upload_file_run data fh name w :
  let msgs := posted_messages name (next_message_id (client w)) 0
                (split_chunks FILE_MAX_SIZE_BYTES (upload_payload data w)) in
  ∃ w', upload_file data fh name w = (Ok (m_id <$> msgs), w')
    ∧ db w' = db w
    ∧ inode_open_count w' = inode_open_count w
    ∧ write_buffer w' = write_buffer w
    ∧ trace w' = trace w ++ (EvSendFile <$> msgs)
    ∧ channel (client w') = channel (client w) ++ msgs
    ∧ next_message_id (client w') = next_message_id (client w) + len msgs
    ∧ encryption_key (client w') = encryption_key (client w)
    ∧ lru_maxsize (cached_files (client w'))
      = lru_maxsize (cached_files (client w))
    ∧ lru_find fh (cached_files (client w')) = None.
Proof.
  intros msgs. unfold upload_file.
  rewrite (bind_ok _ _ w w w) by done.
  set (w1 := snd ((match lru_find fh (cached_files (client w)) with
                   | Some _ => cache_pop fh
                   | None => ret tt
                   end) w)).
  assert (H1 : (match lru_find fh (cached_files (client w)) with
                | Some _ => cache_pop fh
                | None => ret tt
                end) w = (Ok tt, w1)).
  { subst w1. by destruct (lru_find fh (cached_files (client w))). }
  assert (Hw1 : db w1 = db w ∧ inode_open_count w1 = inode_open_count w
    ∧ write_buffer w1 = write_buffer w ∧ trace w1 = trace w
    ∧ channel (client w1) = channel (client w)
    ∧ next_message_id (client w1) = next_message_id (client w)
    ∧ encryption_key (client w1) = encryption_key (client w)
    ∧ urandom w1 = urandom w
    ∧ lru_maxsize (cached_files (client w1))
      = lru_maxsize (cached_files (client w))
    ∧ lru_find fh (cached_files (client w1)) = None).
  { subst w1. destruct (lru_find fh (cached_files (client w))) eqn:E.
    - simpl. split_and!; try done. apply lru_find_pop.
    - simpl. split_and!; done. }
  clearbody w1. destruct Hw1 as (Hd & Ho & Hb & Ht & Hc & Hn & Hk & Hu & Hm & Hf).
  rewrite (bind_ok _ _ _ _ _ H1).
  set (w2 := match encryption_key (client w) with
             | Some _ => with_urandom (S (urandom w1)) w1
             | None => w1
             end).
  erewrite (bind_ok _ _ w1 (upload_payload data w) w2).
  2:{ unfold upload_payload. subst w2.
      by destruct (encryption_key (client w)). }
  assert (Hw2 : db w2 = db w1 ∧ inode_open_count w2 = inode_open_count w1
    ∧ write_buffer w2 = write_buffer w1 ∧ trace w2 = trace w1
    ∧ client w2 = client w1).
  { subst w2. by destruct (encryption_key (client w)). }
  clearbody w2. destruct Hw2 as (Hd2 & Ho2 & Hb2 & Ht2 & Hc2).
  erewrite bind_ok by apply upload_chunks_run.
  unfold bind, modify_client, modify, ret.
  assert (Hn2 : next_message_id (client w2) = next_message_id (client w))
    by congruence.
  rewrite Hn2. fold msgs.
  eexists. split; [reflexivity|].
  cbn [db inode_open_count write_buffer trace client with_client with_trace
       channel next_message_id encryption_key cached_files].
  rewrite Hd2, Ho2, Hb2, Ht2, Hc2. split_and!; congruence.
Qed.

(** C2. A payload whose length is [k * FILE_MAX_SIZE_BYTES] with [k >= 2]
    is not uploaded as [k] chunks: [upload_file] posts [k + 1] messages,
    the last of them with an empty document. *)
Theorem upload_exact_multiple_extra_chunk w data fh name (k : Z) :
  2 ≤ k →
  len (upload_payload data w) = k * FILE_MAX_SIZE_BYTES →
  ∃ ids w', upload_file data fh name w = (Ok ids, w')
    ∧ length (split_chunks FILE_MAX_SIZE_BYTES (upload_payload data w))
      = Z.to_nat (k + 1)
    ∧ length ids = Z.to_nat (k + 1)
    ∧ m_media <$> last (channel (client w')) = Some [].
Proof.
  intros Hk Hlen.
  destruct (upload_file_run data fh name w)
    as (w' & Hrun & _ & _ & _ & _ & Hch & _).
  eexists _, w'. split; [exact Hrun|].
  assert (HF : 0 < FILE_MAX_SIZE_BYTES) by done.
  revert Hch. generalize (next_message_id (client w)). intros next Hch.
  assert (Hsplit :
    length (split_chunks FILE_MAX_SIZE_BYTES (upload_payload data w))
      = Z.to_nat (k + 1)
    ∧ last (split_chunks FILE_MAX_SIZE_BYTES (upload_payload data w))
      = Some []).
  { rewrite (split_chunks_multiple _ _ k HF Hk Hlen).
    revert Hlen HF. generalize FILE_MAX_SIZE_BYTES. intros F Hlen HF.
    split.
    - by rewrite length_fmap, length_seqZ.
    - rewrite last_lookup, length_fmap, length_seqZ, list_lookup_fmap.
      rewrite lookup_seqZ_lt by lia.
      simpl. f_equal. unfold slice.
      rewrite drop_ge; [by rewrite take_nil|].
      unfold len in Hlen. nia. }
  destruct Hsplit as [Hl Hlast].
  split_and!; [done| |].
  - by rewrite length_fmap, posted_messages_length.
  - rewrite Hch.
    pose proof (posted_messages_media name next 0
      (split_chunks FILE_MAX_SIZE_BYTES (upload_payload data w))) as Hm.
    pose proof (posted_messages_length name next 0
      (split_chunks FILE_MAX_SIZE_BYTES (upload_payload data w))) as Hpl.
    revert Hm Hpl Hlast Hl.
    generalize (posted_messages name next 0
      (split_chunks FILE_MAX_SIZE_BYTES (upload_payload data w))).
    generalize (split_chunks FILE_MAX_SIZE_BYTES (upload_payload data w)).
    intros chunks msgs Hm Hpl Hlast Hl. subst chunks.
    rewrite last_app. rewrite fmap_last in Hlast.
    by destruct (last msgs).
Qed.

(** *** The order of the steps of [release] *)

Lemma release_unfold fh :
  release fh
  = (modify (λ w, with_open_count
                    (<[fh := open_count fh w - 1]> (inode_open_count w)) w) ;;
     w <- get ;;
     (if decide (len (write_buffer w) > 0)
      then release_flush fh (write_buffer w) else ret tt) ;;
     release_forget fh).
Proof. reflexivity. Qed.

(** The inserts of the new ids: each one that runs leaves its event, and
    the loop stops at the first that sqlite refuses. *)
Lemma for_each_insert_trace fh ids : ∀ w,
  ∃ done,
    done `prefix_of` ((λ id, EvExecute (InsertMessage id fh)) <$> ids)
    ∧ trace (snd (for_each ids (λ id, execute (InsertMessage id fh)) w))
      = trace w ++ done
    ∧ (fst (for_each ids (λ id, execute (InsertMessage id fh)) w) = Ok tt →
       done = (λ id, EvExecute (InsertMessage id fh)) <$> ids).
Proof.
  induction ids as [|id ids IH]; intros w.
  - exists []. simpl. by rewrite app_nil_r.
  - simpl. destruct (exec_stmt (InsertMessage id fh) (db w)) as [d|e] eqn:E.
    + erewrite bind_ok by (by apply execute_ok).
      destruct (IH (with_trace (trace w ++ [EvExecute (InsertMessage id fh)])
                      (with_db d w))) as (done & Hp & Ht & Hok).
      exists (EvExecute (InsertMessage id fh) :: done). split_and!.
      * by apply prefix_cons.
      * rewrite Ht. simpl. by rewrite <- app_assoc.
      * intros H. by rewrite Hok.
    + erewrite bind_raise by (by apply execute_raise).
      exists []. simpl. rewrite app_nil_r. split_and!; try done.
      apply prefix_nil.
Qed.

Lemma release_forget_trace fh w :
  ∃ tail, trace (snd (release_forget fh w)) = trace w ++ tail
    ∧ (tail = [] ∨ tail = [EvExecute (DeleteInode fh); EvCommit]).
Proof.
  unfold release_forget. rewrite (bind_ok _ _ w w w) by done.
  case_decide; [|exists []; rewrite app_nil_r; by split; [|left]].
  erewrite bind_ok by done.
  set (w1 := with_open_count (delete fh (inode_open_count w)) w).
  destruct (inodes (db w1) !! fh) as [r|] eqn:E.
  - erewrite bind_ok by (by apply getattr_some).
    case_decide.
    + erewrite bind_ok by (by apply execute_ok).
      eexists. split; [|by right]. simpl. by rewrite <- app_assoc.
    + exists []. rewrite app_nil_r. by split; [|left].
  - erewrite bind_raise by (by apply getattr_none).
    exists []. rewrite app_nil_r. by split; [|left].
Qed.

Lemma decode_run n w :
  decode n w
  = match n with
    | NBytes b => if utf8_valid b then (Ok (string_of_list_byte b), w)
                  else (Raise UnicodeDecodeError, w)
    | NStr _ => (Raise AttributeError, w)
    end.
Proof. destruct n as [b|?]; simpl; [|done]. by destruct (utf8_valid b). Qed.

Lemma release_flush_trace fh data w :
  ∃ done,
    done `prefix_of` flush_events fh data w
    ∧ trace (snd (release_flush fh data w)) = trace w ++ done
    ∧ (fst (release_flush fh data w) = Ok tt → done = flush_events fh data w).
Proof.
  unfold release_flush.
  erewrite bind_ok by done. erewrite bind_ok by done.
  set (w1 := with_trace _ _).
  assert (Hfirst : [EvBufferReset data] `prefix_of` flush_events fh data w).
  { by eexists. }
  assert (Hdb : db w1 = db w) by done.
  destruct (c_name <$> contents_by_inode fh (db w1)) as [|nm [|nm' l]] eqn:En.
  { erewrite bind_raise by (by apply get_row_nil).
    exists [EvBufferReset data]. by split_and!. }
  2:{ erewrite bind_raise by (by eapply get_row_many).
      exists [EvBufferReset data]. by split_and!. }
  erewrite bind_ok by (by apply get_row_one).
  rewrite Hdb in En.
  destruct nm as [b|?].
  2:{ erewrite bind_raise by (by rewrite decode_run).
      exists [EvBufferReset data]. by split_and!. }
  destruct (utf8_valid b) eqn:Eu.
  2:{ erewrite bind_raise by (by rewrite decode_run, Eu).
      exists [EvBufferReset data]. by split_and!. }
  erewrite bind_ok by (by rewrite decode_run, Eu).
  destruct (upload_file_run data fh (string_of_list_byte b) w1)
    as (w2 & Hup & Hd2 & _ & _ & Ht2 & _).
  assert (Hposts : posted_messages (string_of_list_byte b)
                     (next_message_id (client w1)) 0
                     (split_chunks FILE_MAX_SIZE_BYTES (upload_payload data w1))
                   = flush_posts fh data w).
  { unfold flush_posts, file_name_of. by rewrite En. }
  rewrite Hposts in Hup, Ht2.
  erewrite bind_ok by exact Hup.
  erewrite bind_ok by apply delete_msgs_for_inode_run.
  erewrite bind_ok by (by apply execute_ok).
  set (w4 := with_trace _ _).
  assert (Ht4 : trace w4 = trace w ++ [EvBufferReset data]
                  ++ (EvSendFile <$> flush_posts fh data w)
                  ++ [EvDeleteMessages (t_id <$> messages_by_inode fh (db w));
                      EvExecute (DeleteMessages fh)]).
  { subst w4. cbn [trace with_trace with_db with_client].
    rewrite Ht2. unfold messages_by_inode. rewrite Hd2. subst w1. simpl.
    by rewrite <- !app_assoc. }
  clearbody w4.
  destruct (for_each_insert_trace fh (m_id <$> flush_posts fh data w) w4)
    as (ins & Hp & Hti & Hok).
  rewrite <- list_fmap_compose in Hp, Hok.
  destruct (for_each (m_id <$> flush_posts fh data w)
              (λ id, execute (InsertMessage id fh)) w4) as [[[]|e] w5] eqn:E5.
  - erewrite bind_ok by exact E5. simpl in Hti, Hok.
    erewrite bind_ok by (by apply execute_ok).
    eexists. split_and!; [|simpl; rewrite Hti, Ht4, Hok by done|done].
    + done.
    + unfold flush_events. by rewrite <- !app_assoc.
  - erewrite bind_raise by exact E5. simpl in Hti.
    exists ([EvBufferReset data]
            ++ (EvSendFile <$> flush_posts fh data w)
            ++ [EvDeleteMessages (t_id <$> messages_by_inode fh (db w));
                EvExecute (DeleteMessages fh)] ++ ins).
    split_and!; [| |done].
    + unfold flush_events. do 3 apply prefix_app.
      by apply prefix_app_r.
    + simpl. rewrite Hti, Ht4. by rewrite <- !app_assoc.
Qed.

Lemma insert_by_id_last r l :
  (∀ x, x ∈ l → t_id x < t_id r) → insert_by_id r l = l ++ [r].
Proof.
  induction l as [|x l IH]; intros H; simpl; [done|].
  rewrite decide_False by (specialize (H x (list_elem_of_here _ _)); lia).
  f_equal. apply IH. intros y Hy. apply H. by right.
Qed.

Lemma for_each_insert_fresh fh (n : nat) : ∀ start w,
  (∀ r, r ∈ telegram_messages (db w) → t_id r < start) →
  ∃ w', for_each (seqZ start (Z.of_nat n))
                 (λ id, execute (InsertMessage id fh)) w = (Ok tt, w')
    ∧ telegram_messages (db w')
      = telegram_messages (db w)
        ++ ((λ id, {| t_id := id; t_inode := fh |})
            <$> seqZ start (Z.of_nat n))
    ∧ inodes (db w') = inodes (db w)
    ∧ contents (db w') = contents (db w)
    ∧ client w' = client w
    ∧ inode_open_count w' = inode_open_count w
    ∧ write_buffer w' = write_buffer w.
Proof.
  induction n as [|n IH]; intros start w Hw.
  - exists w. simpl. rewrite app_nil_r. by split_and!.
  - rewrite Nat2Z.inj_succ, seqZ_cons by lia. simpl.
    replace (Z.pred (Z.succ (Z.of_nat n))) with (Z.of_nat n) by lia.
    assert (He : exec_stmt (InsertMessage start fh) (db w)
      = inl {| inodes := inodes (db w); contents := contents (db w);
               contents_seq := contents_seq (db w);
               telegram_messages :=
                 telegram_messages (db w)
                 ++ [{| t_id := start; t_inode := fh |}];
               lastrowid := start |}).
    { simpl. rewrite decide_False.
      2:{ intros Hin. apply list_elem_of_fmap in Hin as (r & -> & Hr).
          specialize (Hw r Hr). lia. }
      by rewrite insert_by_id_last. }
    erewrite bind_ok by (apply execute_ok, He).
    edestruct (IH (Z.succ start)) as (w' & Hrun & Ht & Hi & Hc & Hcl & Ho & Hb);
      [|exists w'; split; [exact Hrun|]].
    + simpl. intros r Hr. apply elem_of_app in Hr as [Hr|Hr].
      * specialize (Hw r Hr). lia.
      * apply list_elem_of_singleton in Hr as ->. simpl. lia.
    + rewrite Ht, Hi, Hc, Hcl, Ho, Hb. simpl.
      rewrite <- app_assoc. by split_and!.
Qed.

(** The flush runs to its end when [fh] has one directory entry, with a
    UTF-8 name, and the ids in [telegram_messages] were issued by the
    channel. *)
Lemma release_flush_returns fh data w row b :
  (∀ r, r ∈ telegram_messages (db w) →
        t_id r < next_message_id (client w)) →
  contents_by_inode fh (db w) = [row] →
  c_name row = NBytes b →
  utf8_valid b = true →
  fst (release_flush fh data w) = Ok tt.
Proof.
  intros Htm Hc Hn Hu. unfold release_flush.
  erewrite bind_ok by done. erewrite bind_ok by done.
  set (w1 := with_trace _ _).
  erewrite bind_ok.
  2:{ apply get_row_one. change (db w1) with (db w). by rewrite Hc. }
  simpl. rewrite Hn.
  erewrite bind_ok by (by rewrite decode_run, Hu).
  destruct (upload_file_run data fh (string_of_list_byte b) w1)
    as (w2 & Hup & Hd2 & _).
  change (next_message_id (client w1)) with (next_message_id (client w)) in *.
  set (chunks := split_chunks FILE_MAX_SIZE_BYTES (upload_payload data w1))
    in *.
  rewrite posted_messages_ids in Hup. unfold len in Hup.
  erewrite bind_ok by exact Hup.
  erewrite bind_ok by apply delete_msgs_for_inode_run.
  erewrite bind_ok by (by apply execute_ok).
  set (w4 := with_trace _ _).
  destruct (for_each_insert_fresh fh (length chunks)
              (next_message_id (client w)) w4) as (w5 & Hrun & _).
  { subst w4. cbn. rewrite Hd2. change (db w1) with (db w).
    intros r Hr. apply list_elem_of_filter in Hr as [_ Hr]. by apply Htm. }
  erewrite bind_ok by exact Hrun.
  erewrite bind_ok by (by apply execute_ok).
  done.
Qed.

(** The steps that a [release] entered with a non-empty write buffer does
    take are in the order of [flush_events]: the events it adds to the
    trace are an initial part of that list; they are the whole list
    whenever [release] returns, and whenever [fh] has one directory entry
    with a UTF-8 name (in a world whose message ids the channel issued);
    nothing but the deferred deletion of the inode (and its commit) can
    follow the list. There the old remote messages are deleted after the
    last upload and before the mapping rows are changed. *)
Theorem release_flush_order w fh :
  write_buffer w ≠ [] →
  ∃ done tail,
    done `prefix_of` flush_events fh (write_buffer w) w
    ∧ trace (snd (release fh w)) = trace w ++ done ++ tail
    ∧ (fst (release fh w) = Ok tt →
       done = flush_events fh (write_buffer w) w)
    ∧ (world_ok w →
       (∃ row b, contents_by_inode fh (db w) = [row]
                 ∧ c_name row = NBytes b ∧ utf8_valid b = true) →
       done = flush_events fh (write_buffer w) w)
    ∧ (tail = []
       ∨ done = flush_events fh (write_buffer w) w
         ∧ tail = [EvExecute (DeleteInode fh); EvCommit]).
Proof.
  intros Hb. rewrite release_unfold.
  erewrite bind_ok by done.
  set (w0 := with_open_count _ w).
  rewrite (bind_ok _ _ w0 w0 w0) by done.
  rewrite decide_True.
  2:{ unfold len. simpl. destruct (write_buffer w); [done|simpl; lia]. }
  destruct (release_flush_trace fh (write_buffer w) w0)
    as (done & Hp & Ht & Hok).
  change (write_buffer w0) with (write_buffer w).
  change (flush_events fh (write_buffer w) w0)
    with (flush_events fh (write_buffer w) w) in *.
  assert (Hfull : world_ok w →
    (∃ row b, contents_by_inode fh (db w) = [row]
              ∧ c_name row = NBytes b ∧ utf8_valid b = true) →
    done = flush_events fh (write_buffer w) w).
  { intros (_ & _ & Htm) (row & b & Hc & Hn & Hu). apply Hok.
    by apply (release_flush_returns fh (write_buffer w) w0 row b). }
  destruct (release_flush fh (write_buffer w) w0) as [[[]|e] w1] eqn:E.
  - erewrite bind_ok by exact E. simpl in Ht, Hok.
    destruct (release_forget_trace fh w1) as (tail & Htt & Htail).
    exists done, tail. split_and!; [done| | |done|].
    + rewrite Htt, Ht. simpl. by rewrite <- app_assoc.
    + intros _. by apply Hok.
    + destruct Htail as [->| ->]; [by left|right]. split; [by apply Hok|done].
  - erewrite bind_raise by exact E. simpl in Ht.
    exists done, []. split_and!; [done| |done|done|by left].
    by rewrite app_nil_r.
Qed.

(** C7. A [release] entered with a non-empty write buffer does not always
    take the steps of the flush. When [fh] has no directory entry, or more
    than one (a file with hard links), the [get_row] that asks for the name
    of the file raises [NoSuchRowError] or [NoUniqueValueError] right after
    the buffer was taken and cleared; the test [fname != None] that follows
    is never reached. Of the steps of [flush_events] only the first has
    happened: nothing is uploaded, no old message is deleted, no row is
    changed, nothing is committed, and the buffered bytes are gone. *)
Theorem release_flush_abandoned w fh :
  write_buffer w ≠ [] →
  length (contents_by_inode fh (db w)) ≠ 1%nat →
  ∃ w',
    release fh w
    = (Raise match contents_by_inode fh (db w) with
             | [] => NoSuchRowError
             | _ :: _ => NoUniqueValueError
             end, w')
    ∧ trace w' = trace w ++ [EvBufferReset (write_buffer w)]
    ∧ trace w' ≠ trace w ++ flush_events fh (write_buffer w) w
    ∧ write_buffer w' = []
    ∧ db w' = db w
    ∧ channel (client w') = channel (client w).
Proof.
  intros Hb Hl. rewrite release_unfold.
  erewrite bind_ok by done.
  set (w0 := with_open_count _ w).
  rewrite (bind_ok _ _ w0 w0 w0) by done.
  rewrite decide_True.
  2:{ unfold len. simpl. destruct (write_buffer w); [done|simpl; lia]. }
  change (write_buffer w0) with (write_buffer w).
  assert (Hne : ∀ t : list event,
            t ++ [EvBufferReset (write_buffer w)]
            ≠ t ++ flush_events fh (write_buffer w) w).
  { intros t Ht. apply app_inv_head in Ht.
    apply (f_equal length) in Ht. unfold flush_events in Ht.
    rewrite !length_app in Ht. simpl in Ht. lia. }
  unfold release_flush.
  destruct (contents_by_inode fh (db w)) as [|row [|row' l]] eqn:E.
  - eexists. split_and!.
    + erewrite bind_raise; [done|].
      erewrite bind_ok by done. erewrite bind_ok by done.
      erewrite bind_raise; [done|].
      apply get_row_nil. simpl. by rewrite E.
    + done.
    + apply Hne.
    + done.
    + done.
    + done.
  - done.
  - eexists. split_and!.
    + erewrite bind_raise; [done|].
      erewrite bind_ok by done. erewrite bind_ok by done.
      erewrite bind_raise; [done|].
      eapply get_row_many. simpl. by rewrite E.
    + done.
    + apply Hne.
    + done.
    + done.
    + done.
Qed.

(** *** Reading a file whose content is not cached *)

Lemma get_cached_file_miss fh w :
  lru_find fh (cached_files (client w)) = None →
  get_cached_file fh w = (Ok None, w).
Proof.
  intros H. unfold get_cached_file.
  rewrite (bind_ok _ _ w w w) by done. by rewrite H.
Qed.

Lemma download_all_run msgs w :
  download_all msgs w
  = (match media_of msgs with
     | Some b => Ok b
     | None => Raise AttributeError
     end, w).
Proof.
  induction msgs as [|[m|] msgs IH]; simpl; [done| |done].
  unfold bind at 1, ret at 1. unfold bind at 1. rewrite IH.
  by destruct (media_of msgs).
Qed.

Lemma get_rows_some {A} (q : database → list A) w :
  q (db w) ≠ [] → get_rows q w = (Ok (q (db w)), w).
Proof.
  intros H. unfold get_rows. rewrite (bind_ok _ _ w w w) by done.
  by destruct (q (db w)).
Qed.

Lemma get_rows_nil {A} (q : database → list A) w :
  q (db w) = [] → get_rows q w = (Raise NoSuchRowError, w).
Proof.
  intros H. unfold get_rows. rewrite (bind_ok _ _ w w w) by done.
  by rewrite H.
Qed.

Lemma lru_setitem_too_large k v c :
  len v > lru_maxsize c → lru_setitem k v c = None.
Proof. intros H. unfold lru_setitem. by rewrite decide_True. Qed.

Lemma lru_setitem_fits k v c :
  ¬ len v > lru_maxsize c → is_Some (lru_setitem k v c).
Proof. intros H. unfold lru_setitem. by rewrite decide_False. Qed.

Lemma download_file_miss fh ids w :
  lru_find fh (cached_files (client w)) = None →
  ∃ w', db w' = db w ∧
  download_file fh ids w
  = match media_of ((λ id, head (filter (λ m, m_id m = id)
                                   (channel (client w)))) <$> ids) with
    | None => (Raise AttributeError, w)
    | Some payload =>
        match decrypted (encryption_key (client w)) payload with
        | None => (Raise InvalidToken, w)
        | Some plain =>
            if decide (len plain > lru_maxsize (cached_files (client w)))
            then (Raise ValueError, w)
            else (Ok plain, w')
        end
    end.
Proof.
  intros Hc. unfold download_file.
  unfold bind at 1. rewrite (get_cached_file_miss fh w Hc). lazy beta iota.
  unfold bind at 1, get_messages at 1, bind at 1, get at 1, ret at 1.
  lazy beta iota.
  unfold bind at 1. rewrite download_all_run.
  destruct (media_of _) as [payload|]; [|by exists w].
  lazy beta iota. unfold bind at 1, get at 1. lazy beta iota.
  unfold decrypted.
  assert (Hstore : ∀ plain, ∃ w', db w' = db w ∧
    (cache_store fh plain ;; ret plain) w
    = if decide (len plain > lru_maxsize (cached_files (client w)))
      then (Raise ValueError, w) else (Ok plain, w')).
  { intros plain. unfold cache_store, bind, get.
    destruct (decide (len plain > lru_maxsize (cached_files (client w))))
      as [E|E].
    - rewrite (lru_setitem_too_large _ _ _ E). by exists w.
    - destruct (lru_setitem_fits fh plain _ E) as [c' ->]. simpl.
      eexists. split; [|reflexivity]. done. }
  destruct (encryption_key (client w)) as [key|].
  - destruct (fernet_decrypt key payload) as [plain|].
    + unfold bind at 1, ret at 1. apply Hstore.
    + by exists w.
  - unfold bind at 1, ret at 1. apply Hstore.
Qed.

(** On a cache miss with rows, [get_telegram_data] returns [fetched]. *)
Lemma get_telegram_data_miss fh w :
  lru_find fh (cached_files (client w)) = None →
  messages_by_inode fh (db w) ≠ [] →
  ∃ cached w', get_telegram_data fh w = (Ok (fetched fh w, cached), w')
    ∧ db w' = db w.
Proof.
  intros Hc Hr. unfold get_telegram_data.
  unfold bind at 1. rewrite (get_cached_file_miss fh w Hc). lazy beta iota.
  unfold try_except, bind at 1.
  rewrite (get_rows_some _ w Hr). lazy beta iota.
  destruct (download_file_miss fh (t_id <$> messages_by_inode fh (db w)) w Hc)
    as (w' & Hdb & Hd).
  unfold bind at 1. rewrite Hd. unfold fetched, remote_payload.
  destruct (media_of _) as [payload|]; simpl; [|by eauto].
  destruct (decrypted (encryption_key (client w)) payload) as [plain|];
    simpl; [|by eauto].
  case_decide; simpl; eauto.
Qed.

(** A read that misses the cache returns a slice of [fetched]. *)
Lemma read_miss fh offset length w row :
  inodes (db w) !! fh = Some row →
  lru_find fh (cached_files (client w)) = None →
  messages_by_inode fh (db w) ≠ [] →
  fst (read fh offset length w)
  = Ok (slice offset (offset + length) (fetched fh w)).
Proof.
  intros Hi Hc Hr. unfold read.
  erewrite bind_ok by (by eapply get_row_inode_some).
  destruct (get_telegram_data_miss fh w Hc Hr) as (cached & w' & Hg & _).
  by erewrite bind_ok by exact Hg.
Qed.

(** C4, as amended. With a key configured, when the remote payload of a
    file does not decrypt (it was altered after the upload) and the content
    is not in the cache, [read] does not fail with [EIO]: the exception is
    caught in [get_telegram_data] and [read] returns the empty byte
    string. *)
Theorem read_swallows_decryption_failure w fh offset length row key payload :
  inodes (db w) !! fh = Some row →
  lru_find fh (cached_files (client w)) = None →
  messages_by_inode fh (db w) ≠ [] →
  encryption_key (client w) = Some key →
  remote_payload fh w = Some payload →
  fernet_decrypt key payload = None →
  fst (read fh offset length w) = Ok [].
Proof.
  intros Hi Hc Hr Hk Hp Hd.
  rewrite (read_miss _ _ _ _ _ Hi Hc Hr).
  unfold fetched. rewrite Hp, Hk. simpl. rewrite Hd.
  unfold slice. by rewrite drop_nil, take_nil.
Qed.

(** *** The chunks of a payload put together again *)

Lemma slices_join (F : nat) (l : bytes) (k : nat) :
  (0 < F)%nat →
  mjoin ((λ i, slice (Z.to_nat (i * Z.of_nat F))
                     (Z.to_nat ((i + 1) * Z.of_nat F)) l)
         <$> seqZ 0 (Z.of_nat k))
  = take (k * F) l.
Proof.
  intros HF. induction k as [|k IH]; [done|].
  rewrite seqZ_S, fmap_app, join_app, IH. simpl. rewrite app_nil_r.
  unfold slice.
  replace (Z.to_nat ((0 + Z.of_nat k + 1) * Z.of_nat F)
           - Z.to_nat ((0 + Z.of_nat k) * Z.of_nat F))%nat with F by nia.
  replace (Z.to_nat ((0 + Z.of_nat k) * Z.of_nat F)) with (k * F)%nat by nia.
  rewrite take_take_drop. f_equal. lia.
Qed.

Lemma split_chunks_join (max_size : Z) (l : bytes) :
  0 < max_size → mjoin (split_chunks max_size l) = l.
Proof.
  intros HF. unfold split_chunks. case_decide as Hl.
  2:{ simpl. by rewrite app_nil_r. }
  set (n := (len l + max_size) `div` max_size).
  assert (Hn : 0 ≤ n) by (apply Z.div_pos; unfold len; lia).
  assert (Hgt : len l < n * max_size).
  { pose proof (Z.mul_succ_div_gt (len l + max_size) max_size HF). 
    fold n in H. lia. }
  rewrite <- (Z2Nat.id max_size) by lia.
  rewrite <- (Z2Nat.id n) by lia.
  rewrite slices_join by lia.
  apply take_ge. unfold len in Hgt. nia.
Qed.

(** *** The rows and the messages a flush leaves *)

(** The messages just posted are found under their ids. *)
Lemma posted_messages_found name chunks : ∀ next i ch,
  (∀ m, m ∈ ch → m_id m < next) →
  media_of ((λ id, head (filter (λ m, m_id m = id)
                           (ch ++ posted_messages name next i chunks)))
            <$> (m_id <$> posted_messages name next i chunks))
  = Some (mjoin chunks).
Proof.
  induction chunks as [|c chunks IH]; intros next i ch Hch; [done|].
  set (m0 := {| m_id := next;
                m_file_name := name +:+ "_part" +:+ pretty i +:+ ".txt";
                m_media := c |}).
  change (posted_messages name next i (c :: chunks))
    with (m0 :: posted_messages name (next + 1) (S i) chunks).
  rewrite !fmap_cons.
  assert (Hf : head (filter (λ m, m_id m = m_id m0)
                 (ch ++ m0 :: posted_messages name (next + 1) (S i) chunks))
               = Some m0).
  { rewrite filter_app, (filter_none _ ch).
    - by rewrite filter_cons_True.
    - intros m Hm. specialize (Hch m Hm). simpl. lia. }
  cbn [media_of]. rewrite Hf.
  rewrite (cons_middle m0), app_assoc.
  rewrite IH; [done|].
  intros m Hm. apply elem_of_app in Hm as [Hm|Hm].
  - specialize (Hch m Hm). lia.
  - apply list_elem_of_singleton in Hm as ->. simpl. lia.
Qed.

(** *** Write, release, reopen, read *)

Lemma create_run w parent name mode flags ctx :
  can_create parent name w →
  let fh := next_inode_id (inodes (db w)) in
  ∃ e w1, create parent name mode flags ctx w = (Ok (fh, e), w1)
    ∧ is_Some (inodes (db w1) !! fh)
    ∧ contents (db w1)
      = contents (db w)
        ++ [{| c_rowid := contents_seq (db w) + 1; c_name := name;
               c_inode := fh; c_parent_inode := parent |}]
    ∧ telegram_messages (db w1) = telegram_messages (db w)
    ∧ client w1 = client w
    ∧ write_buffer w1 = write_buffer w.
Proof.
  intros ([prow Hp] & Hl & Hn) fh. unfold create, _create.
  erewrite bind_ok.
  2:{ erewrite bind_ok by (by apply getattr_some).
      rewrite decide_False.
      2:{ simpl. unfold len. destruct (contents_by_inode parent (db w));
            [done|simpl; lia]. }
      erewrite bind_ok by done.
      rewrite (bind_ok _ _ w w w) by done.
      erewrite bind_ok by (by apply execute_ok).
      erewrite bind_ok by done.
      erewrite bind_ok.
      2:{ apply execute_ok. cbn -[next_inode_id].
          unfold contents_by_name in *. cbn -[next_inode_id]. by rewrite Hn. }
      erewrite bind_ok by done.
      apply getattr_some. cbn -[next_inode_id]. apply lookup_insert_eq. }
  erewrite bind_ok by done.
  eexists _, _. split; [reflexivity|].
  cbn -[next_inode_id]. split_and!; try done.
  rewrite lookup_insert_eq. by eexists.
Qed.

Lemma get_telegram_data_empty fh w :
  lru_find fh (cached_files (client w)) = None →
  messages_by_inode fh (db w) = [] →
  get_telegram_data fh w = (Ok ([], false), w).
Proof.
  intros Hc Hr. unfold get_telegram_data.
  erewrite bind_ok by (by apply get_cached_file_miss).
  unfold try_except.
  by erewrite bind_raise by (by apply get_rows_nil).
Qed.

Lemma write_fresh_run w fh B :
  write_buffer w = [] →
  is_Some (inodes (db w) !! fh) →
  lru_find fh (cached_files (client w)) = None →
  messages_by_inode fh (db w) = [] →
  write fh 0 B w = (Ok (len B), with_buffer B None w).
Proof.
  intros Hb [row Hi] Hc Hr. unfold write.
  rewrite (bind_ok _ _ w w w) by done.
  rewrite decide_True by done.
  erewrite bind_ok.
  2:{ erewrite bind_ok by (by eapply get_row_inode_some).
      erewrite bind_ok by (by apply get_telegram_data_empty).
      erewrite bind_ok by done. done. }
  rewrite decide_True by done.
  erewrite bind_ok by done. done.
Qed.

Lemma release_forget_linked fh w :
  is_Some (inodes (db w) !! fh) →
  contents_by_inode fh (db w) ≠ [] →
  ∃ w', release_forget fh w = (Ok tt, w')
    ∧ db w' = db w ∧ client w' = client w.
Proof.
  intros [row Hi] Hl. unfold release_forget.
  rewrite (bind_ok _ _ w w w) by done.
  case_decide; [|by exists w].
  erewrite bind_ok by done.
  erewrite bind_ok by (by apply getattr_some).
  rewrite decide_False.
  2:{ simpl. unfold len. destruct (contents_by_inode fh (db w));
        [done|simpl; lia]. }
  by eexists.
Qed.

Lemma split_chunks_nonempty (max_size : Z) (l : bytes) :
  0 < max_size → split_chunks max_size l ≠ [].
Proof.
  intros HF. unfold split_chunks. case_decide as Hl; [|done].
  intros H. apply fmap_nil_inv in H.
  assert (0 < (len l + max_size) `div` max_size).
  { apply Z.div_str_pos. unfold len. lia. }
  rewrite seqZ_cons in H by lia. done.
Qed.

Lemma release_flush_fresh fh B w b row :
  world_ok w →
  is_Some (inodes (db w) !! fh) →
  contents_by_inode fh (db w) = [row] →
  c_name row = NBytes b →
  utf8_valid b = true →
  messages_by_inode fh (db w) = [] →
  ∃ w', release_flush fh B w = (Ok tt, w')
    ∧ is_Some (inodes (db w') !! fh)
    ∧ contents (db w') = contents (db w)
    ∧ lru_find fh (cached_files (client w')) = None
    ∧ lru_maxsize (cached_files (client w')) = CACHE_MAXSIZE
    ∧ encryption_key (client w') = encryption_key (client w)
    ∧ messages_by_inode fh (db w') ≠ []
    ∧ remote_payload fh w' = Some (upload_payload B w).
Proof.
  intros (Hmax & Hch & Htm) [irow Hi] Hc Hn Hu Hr. unfold release_flush.
  erewrite bind_ok by done. erewrite bind_ok by done.
  set (w1 := with_trace _ _).
  erewrite bind_ok.
  2:{ apply get_row_one. change (db w1) with (db w). by rewrite Hc. }
  simpl. rewrite Hn.
  erewrite bind_ok by (by rewrite decode_run, Hu).
  destruct (upload_file_run B fh (string_of_list_byte b) w1)
    as (w2 & Hup & Hd2 & Ho2 & Hb2 & Ht2 & Hc2 & Hn2 & Hk2 & Hm2 & Hf2).
  change (upload_payload B w1) with (upload_payload B w) in *.
  change (next_message_id (client w1)) with (next_message_id (client w)) in *.
  change (channel (client w1)) with (channel (client w)) in *.
  set (chunks := split_chunks FILE_MAX_SIZE_BYTES (upload_payload B w)) in *.
  set (msgs := posted_messages (string_of_list_byte b)
                 (next_message_id (client w)) 0 chunks) in *.
  erewrite bind_ok by exact Hup.
  erewrite bind_ok by apply delete_msgs_for_inode_run.
  erewrite bind_ok by (by apply execute_ok).
  set (w4 := with_trace _ _).
  assert (Hw4 : telegram_messages (db w4) = telegram_messages (db w)
    ∧ inodes (db w4) = inodes (db w) ∧ contents (db w4) = contents (db w)
    ∧ channel (client w4) = channel (client w) ++ msgs
    ∧ cached_files (client w4) = cached_files (client w2)
    ∧ encryption_key (client w4) = encryption_key (client w2)).
  { subst w4. cbn. rewrite Hd2. change (db w1) with (db w).
    unfold messages_by_inode in *.
    rewrite Hr. simpl. rewrite Hc2.
    split_and!; try done.
    - apply filter_all. intros r Hin Heq.
      assert (r ∈ filter (λ r, t_inode r = fh) (telegram_messages (db w))).
      { by apply list_elem_of_filter. }
      rewrite Hr in H. by apply elem_of_nil in H.
    - apply filter_all. intros m _. apply not_elem_of_nil. }
  clearbody w4. destruct Hw4 as (Ht4 & Hi4 & Hc4 & Hch4 & Hca4 & Hk4).
  assert (Hids : m_id <$> msgs
    = seqZ (next_message_id (client w)) (Z.of_nat (length chunks))).
  { unfold msgs. by rewrite posted_messages_ids. }
  rewrite Hids.
  destruct (for_each_insert_fresh fh (length chunks)
              (next_message_id (client w)) w4)
    as (w5 & Hrun & Ht5 & Hi5 & Hc5 & Hcl5 & _).
  { rewrite Ht4. exact Htm. }
  erewrite bind_ok by exact Hrun.
  erewrite bind_ok by (by apply execute_ok).
  eexists. split; [reflexivity|].
  cbn. rewrite Hi5, Hi4, Hc5, Hc4, Hcl5, Hca4, Hk4, Hm2, Hk2.
  assert (Hrows : filter (λ r, t_inode r = fh) (telegram_messages (db w5))
    = (λ id, {| t_id := id; t_inode := fh |})
      <$> seqZ (next_message_id (client w)) (Z.of_nat (length chunks))).
  { rewrite Ht5, Ht4, filter_app.
    unfold messages_by_inode in Hr. rewrite Hr. simpl.
    apply filter_all. intros r Hin.
    by apply list_elem_of_fmap in Hin as (id & -> & _). }
  split_and!; try done.
  - rewrite lookup_alter, decide_True by done. rewrite Hi. by eexists.
  - unfold messages_by_inode. cbn. rewrite Hrows.
    intros H. apply fmap_nil_inv in H.
    assert (chunks ≠ []) by (by apply split_chunks_nonempty).
    destruct chunks; [done|].
    rewrite seqZ_cons in H by (simpl; lia). done.
  - unfold remote_payload, messages_by_inode. cbn. rewrite Hrows.
    assert (Htid : ∀ l : list Z,
      t_id <$> ((λ id, {| t_id := id; t_inode := fh |}) <$> l) = l).
    { intros l. rewrite <- list_fmap_compose. apply list_fmap_id. }
    rewrite Htid, Hch4, <- Hids.
    unfold msgs. rewrite posted_messages_found by exact Hch.
    f_equal. by apply split_chunks_join.
Qed.

Lemma fetched_ext fh w w' :
  db w' = db w → client w' = client w → fetched fh w' = fetched fh w.
Proof.
  intros Hd Hc. unfold fetched, remote_payload, messages_by_inode.
  by rewrite Hd, Hc.
Qed.

Lemma open_run inode flags w :
  open inode flags w
  = (Ok inode,
     with_open_count (<[inode := open_count inode w + 1]> (inode_open_count w))
                     w).
Proof. done. Qed.

Lemma slice_all {A} (l : list A) : slice 0 (0 + length l) l = l.
Proof. unfold slice. simpl. rewrite Nat.sub_0_r. apply firstn_all. Qed.

Lemma slice_nil {A} (a b : nat) : slice a b (@nil A) = [].
Proof. unfold slice. by rewrite drop_nil, take_nil. Qed.

(** What the scenario returns, for a plaintext of any size: the cache
    refuses a value above its maximum size, [get_telegram_data] catches
    that, and the read comes back empty. *)
Lemma write_release_read_result w parent b mode flags ctx B :
  world_ok w →
  write_buffer w = [] →
  fernet_inverts w →
  can_create parent (NBytes b) w →
  utf8_valid b = true →
  unused_inode (next_inode_id (inodes (db w))) w →
  fst (write_release_read parent (NBytes b) mode flags ctx B w)
  = Ok (if decide (len B > CACHE_MAXSIZE) then [] else B).
Proof.
  intros Hok Hbuf Hinv Hcan Hutf (Hu1 & Hu2 & Hu3).
  destruct (create_run w parent (NBytes b) mode flags ctx Hcan)
    as (e & w1 & Hcreate & Hi1 & Hc1 & Ht1 & Hcl1 & Hb1).
  set (fh := next_inode_id (inodes (db w))) in *.
  set (row := {| c_rowid := contents_seq (db w) + 1; c_name := NBytes b;
                 c_inode := fh; c_parent_inode := parent |}) in *.
  assert (Hl1 : contents_by_inode fh (db w1) = [row]).
  { unfold contents_by_inode in *. rewrite Hc1, filter_app, Hu1. simpl.
    by rewrite filter_cons_True. }
  assert (Hm1 : messages_by_inode fh (db w1) = []).
  { unfold messages_by_inode in *. by rewrite Ht1. }
  assert (Hf1 : lru_find fh (cached_files (client w1)) = None)
    by (by rewrite Hcl1).
  assert (Hok1 : world_ok w1).
  { unfold world_ok in *. by rewrite Hcl1, Ht1. }
  unfold write_release_read.
  erewrite bind_ok by exact Hcreate. cbn [fst].
  erewrite bind_ok by (apply write_fresh_run; by rewrite ?Hb1).
  rewrite release_unfold.
  set (w2 := with_buffer B None w1).
  set (w3 := with_open_count (<[fh := open_count fh w2 - 1]>
                                (inode_open_count w2)) w2).
  destruct (decide (B = [])) as [->|HB].
  - (* nothing was written: no flush *)
    destruct (release_forget_linked fh w3) as (w4 & Hfor & Hd4 & Hc4).
    { exact Hi1. }
    { change (db w3) with (db w1). by rewrite Hl1. }
    erewrite (bind_ok (bind _ _) _ w2 tt w4).
    2:{ erewrite bind_ok by done. rewrite (bind_ok _ _ w3 w3 w3) by done.
        rewrite decide_False by (unfold len; simpl; lia).
        erewrite bind_ok by done. exact Hfor. }
    erewrite bind_ok by apply open_run.
    set (w5 := with_open_count _ w4).
    unfold read.
    destruct Hi1 as [irow Hi1].
    erewrite bind_ok.
    2:{ eapply get_row_inode_some. change (db w5) with (db w4).
        rewrite Hd4. exact Hi1. }
    erewrite bind_ok.
    2:{ apply get_telegram_data_empty.
        - change (client w5) with (client w4). by rewrite Hc4.
        - unfold messages_by_inode. change (db w5) with (db w4).
          by rewrite Hd4. }
    cbn. rewrite decide_False by (unfold CACHE_MAXSIZE, len; simpl; lia).
    done.
  - (* the flush *)
    destruct (release_flush_fresh fh B w3 b row)
      as (w4 & Hflush & Hi4 & Hc4 & Hf4 & Hmax4 & Hk4 & Hr4 & Hp4);
      try done.
    destruct (release_forget_linked fh w4) as (w5 & Hfor & Hd5 & Hc5).
    { exact Hi4. }
    { unfold contents_by_inode in *. rewrite Hc4.
      change (db w3) with (db w1). by rewrite Hl1. }
    erewrite (bind_ok (bind _ _) _ w2 tt w5).
    2:{ erewrite bind_ok by done. rewrite (bind_ok _ _ w3 w3 w3) by done.
        rewrite decide_True.
        2:{ unfold len. simpl. destruct B; [done|simpl; lia]. }
        erewrite bind_ok by exact Hflush. exact Hfor. }
    erewrite bind_ok by apply open_run.
    set (w6 := with_open_count _ w5).
    destruct Hi4 as [irow Hi4].
    erewrite (read_miss fh 0 (length B) w6 irow).
    2:{ change (db w6) with (db w5). by rewrite Hd5. }
    2:{ change (client w6) with (client w5). by rewrite Hc5. }
    2:{ unfold messages_by_inode in *. change (db w6) with (db w5).
        by rewrite Hd5. }
    rewrite (fetched_ext fh w4 w6) by done.
    unfold fetched. rewrite Hp4, Hmax4, Hk4. cbn [mbind option_bind].
    assert (Hdec : decrypted (encryption_key (client w3))
                     (upload_payload B w3) = Some B).
    { unfold decrypted, upload_payload.
      destruct (encryption_key (client w3)) as [key|] eqn:Ek; [|done].
      apply Hinv. change (client w3) with (client w1) in Ek.
      by rewrite Hcl1 in Ek. }
    rewrite Hdec. case_decide.
    + by rewrite slice_nil.
    + by rewrite slice_all.
Qed.

(** C1, as amended. For every byte sequence [B] of at most
    [CACHE_MAXSIZE] bytes: create a file with a UTF-8 name under an
    existing, linked directory (the inode id it gets carrying no left-over
    directory entry, mapping row or cache entry), write [B] at offset 0,
    release, reopen and read [len(B)] bytes at offset 0; every step
    returns and the read returns exactly [B], decryption inverting
    encryption when a key is configured. *)
Theorem write_read_roundtrip w parent b mode flags ctx B :
  world_ok w →
  write_buffer w = [] →
  fernet_inverts w →
  can_create parent (NBytes b) w →
  utf8_valid b = true →
  unused_inode (next_inode_id (inodes (db w))) w →
  len B ≤ CACHE_MAXSIZE →
  fst (write_release_read parent (NBytes b) mode flags ctx B w) = Ok B.
Proof.
  intros Hok Hbuf Hinv Hcan Hutf Hun Hlen.
  rewrite write_release_read_result by done.
  by rewrite decide_False by lia.
Qed.

(** Above [CACHE_MAXSIZE] the same scenario reads back nothing. *)
Lemma write_read_oversize w parent b mode flags ctx B :
  world_ok w →
  write_buffer w = [] →
  fernet_inverts w →
  can_create parent (NBytes b) w →
  utf8_valid b = true →
  unused_inode (next_inode_id (inodes (db w))) w →
  len B > CACHE_MAXSIZE →
  fst (write_release_read parent (NBytes b) mode flags ctx B w) = Ok [].
Proof.
  intros Hok Hbuf Hinv Hcan Hutf Hun Hlen.
  rewrite write_release_read_result by done.
  by rewrite decide_True by lia.
Qed.

(** *** The contract of [write] where it returns *)

(** [get_telegram_data] never raises. *)
Lemma get_telegram_data_returns fh w :
  ∃ d w', get_telegram_data fh w = (Ok d, w').
Proof.
  unfold get_telegram_data, bind at 1.
  assert (Hc : ∃ o w1, get_cached_file fh w = (Ok o, w1)).
  { unfold get_cached_file. rewrite (bind_ok _ _ w w w) by done.
    destruct (lru_find fh (cached_files (client w))); [|by eauto].
    erewrite bind_ok by done. case_decide; by eauto. }
  destruct Hc as (o & w1 & ->). destruct o as [v|]; [by eauto|].
  unfold try_except.
  match goal with |- context [match ?m w1 with _ => _ end] =>
    destruct (m w1) as [[a|e] w2] end; by eauto.
Qed.

(** When the write buffer is not empty, or is empty and [fh] has an inodes
    row, [write] returns [len(buf)], and the buffer becomes: the buffer it
    had, or the data of [get_telegram_data(fh)] when it was empty, with
    [buf] appended when [offset] is its length, and
    [seed[:offset] + buf + seed[offset+len(buf):]] otherwise. *)
Lemma write_contract w fh offset buf :
  write_buffer w ≠ [] ∨ is_Some (inodes (db w) !! fh) →
  ∃ seed w',
    write fh offset buf w = (Ok (len buf), w')
    ∧ (write_buffer w ≠ [] → seed = write_buffer w)
    ∧ (write_buffer w = [] →
       ∃ cached w1, get_telegram_data fh w = (Ok (seed, cached), w1))
    ∧ write_buffer w'
      = if decide (Z.of_nat offset = len seed) then seed ++ buf
        else take offset seed ++ buf ++ drop (offset + length buf) seed.
Proof.
  intros Hpre. unfold write. rewrite (bind_ok _ _ w w w) by done.
  assert (Hend : ∀ seed w1, write_buffer w1 = seed →
    ∃ w', ((if decide (Z.of_nat offset = len seed)
            then extend_write_buffer buf
            else modify (with_buffer
                   (take offset seed ++ buf
                    ++ drop (offset + length buf) seed) None)) ;;
           ret (len buf)) w1 = (Ok (len buf), w')
      ∧ write_buffer w'
        = if decide (Z.of_nat offset = len seed) then seed ++ buf
          else take offset seed ++ buf ++ drop (offset + length buf) seed).
  { intros seed w1 Hs. case_decide.
    - erewrite bind_ok by done. eexists. split; [done|].
      unfold extend_write_buffer. simpl.
      destruct (write_buffer_cached w1); simpl; by rewrite Hs.
    - erewrite bind_ok by done. by eexists. }
  destruct (decide (write_buffer w = [])) as [Hb|Hb].
  - destruct Hpre as [?|[row Hi]]; [done|].
    destruct (get_telegram_data_returns fh w) as ([seed cached] & w1 & Hg).
    erewrite bind_ok.
    2:{ erewrite bind_ok by (by eapply get_row_inode_some).
        erewrite bind_ok by exact Hg.
        erewrite bind_ok by done. done. }
    destruct (Hend seed
                (with_buffer seed (if cached then Some fh else None) w1))
      as (w' & Hrun & Hbuf); [done|].
    exists seed, w'. split_and!; [done|done|by eauto|done].
  - erewrite bind_ok by done.
    destruct (Hend (write_buffer w) w) as (w' & Hrun & Hbuf); [done|].
    exists (write_buffer w), w'. by split_and!.
Qed.

(* ===================================================================== *)
(** ** Further properties of the code *)
(* ===================================================================== *)

(** *** The chunks of [upload_file], for every payload *)

Lemma slice_length_le {A} (a b : nat) (l : list A) :
  (length (slice a b l) ≤ b - a)%nat.
Proof. unfold slice. rewrite length_take. lia. Qed.

(** X1. The chunks [upload_file] cuts a payload into are a partition of
    it: put together in order they are the payload, and none is longer
    than the size limit. *)
Theorem chunks_partition (max_size : Z) (payload : bytes) :
  0 < max_size →
  mjoin (split_chunks max_size payload) = payload
  ∧ Forall (λ c, len c ≤ max_size) (split_chunks max_size payload).
Proof.
  intros HF. split; [by apply split_chunks_join|].
  unfold split_chunks. case_decide as Hl.
  - apply Forall_fmap, Forall_forall. intros i Hi.
    apply elem_of_seqZ in Hi. simpl.
    pose proof (slice_length_le (Z.to_nat (i * max_size))
                  (Z.to_nat ((i + 1) * max_size)) payload) as Hs.
    unfold len. nia.
  - apply Forall_singleton. lia.
Qed.

(** X2. Away from the exact multiples of the size limit, the chunking is
    the expected one: a non-empty payload whose length is at most the limit
    or not a multiple of it is cut into ceil(len / limit) chunks, none of
    them empty. *)
Theorem chunks_count (max_size : Z) (payload : bytes) :
  0 < max_size →
  0 < len payload →
  len payload ≤ max_size ∨ len payload `mod` max_size ≠ 0 →
  len (split_chunks max_size payload)
  = (len payload + max_size - 1) `div` max_size
  ∧ Forall (λ c, c ≠ []) (split_chunks max_size payload).
Proof.
  intros HF Hpos Hcase. unfold split_chunks. case_decide as Hl.
  - destruct Hcase as [?|Hm]; [lia|].
    pose proof (Z.div_mod (len payload) max_size ltac:(lia)) as Hdm.
    pose proof (Z.mod_pos_bound (len payload) max_size HF) as Hb.
    set (q := len payload `div` max_size) in *.
    set (r := len payload `mod` max_size) in *.
    assert (Hq : 0 ≤ q) by (apply Z.div_pos; lia).
    assert (Hn : (len payload + max_size) `div` max_size = q + 1).
    { symmetry. apply (Z.div_unique _ _ _ r); lia. }
    rewrite Hn. split.
    + unfold len at 1. rewrite length_fmap, length_seqZ.
      rewrite Z2Nat.id by lia.
      apply (Z.div_unique _ _ _ (r - 1)); lia.
    + apply Forall_fmap, Forall_forall. intros i Hi.
      apply elem_of_seqZ in Hi. simpl. unfold slice.
      intros Hnil. apply (f_equal length) in Hnil.
      rewrite length_take, length_drop in Hnil. simpl in Hnil.
      unfold len in *. nia.
  - split.
    + unfold len at 1. simpl.
      apply (Z.div_unique _ _ _ (len payload - 1)); lia.
    + apply Forall_singleton. intros ->. unfold len in Hpos. simpl in Hpos.
      lia.
Qed.

(** *** The upcalls that only read *)

Lemma void_world {A} (m : M A) w : snd (void m w) = snd (m w).
Proof. unfold void, bind. by destruct (m w) as [[a|e] w1]. Qed.

Lemma readdir_rows_world rows w : snd (readdir_rows rows w) = w.
Proof.
  induction rows as [|row rows IH]; [done|]. simpl. unfold bind at 1.
  pose proof (getattr_world w (c_inode row)) as Hg.
  destruct (getattr (c_inode row) w) as [[e|e] w1]; simpl in Hg; subst w1;
    [|done].
  unfold bind. destruct (readdir_rows rows w) as [[rest|e'] w1];
    simpl in IH; by subst w1.
Qed.

(** X3. [lookup], [getattr], [readlink], [opendir], [readdir], [statfs],
    [access], [close] and [fsync] change nothing, whether they return or
    raise: the tables, the cache, the open counts, the write buffer and the
    channel are after the upcall what they were before, and nothing is
    executed or committed. *)
Theorem read_only_upcalls (u : upcall) w :
  reads_only u → snd (handle u w) = w.
Proof.
  intros Hu. destruct u; try done; simpl; rewrite ?void_world.
  - apply lookup_world.
  - apply getattr_world.
  - unfold readlink, bind.
    pose proof (get_row_world (inode_by_id inode) w) as Hg.
    destruct (get_row _ w) as [[r|e] w1]; simpl in Hg; by subst w1.
  - unfold readdir. rewrite (bind_ok _ _ w w w) by done.
    apply readdir_rows_world.
  - unfold statfs. rewrite (bind_ok _ _ w w w) by done.
    by destruct (sum_size (db w)).
Qed.

(** *** What [read] and [write] leave alone *)

Section Frame.

Context (R : world → world → Prop) `{!PreOrder R}.

Lemma within_ret {A} (a : A) : within R (ret a).
Proof. by intros w. Qed.

Lemma within_raise {A} e : within R (@raise A e).
Proof. by intros w. Qed.

Lemma within_get : within R get.
Proof. by intros w. Qed.

Lemma within_gets {A} (f : world → A) : within R (gets f).
Proof. by intros w. Qed.

Lemma within_modify f : (∀ w, R w (f w)) → within R (modify f).
Proof. intros H w. apply H. Qed.

Lemma within_bind {A B} (m : M A) (k : A → M B) :
  within R m → (∀ a, within R (k a)) → within R (bind m k).
Proof.
  intros Hm Hk w. unfold bind. specialize (Hm w).
  destruct (m w) as [[a|e] w1]; simpl in *; [|done].
  etrans; [exact Hm|apply Hk].
Qed.

Lemma within_try {A} (m : M A) (h : exn → option (M A)) :
  within R m → (∀ e k, h e = Some k → within R k) →
  within R (try_except m h).
Proof.
  intros Hm Hh w. unfold try_except. specialize (Hm w).
  destruct (m w) as [[a|e] w1]; simpl in *; [done|].
  destruct (h e) as [k|] eqn:E; [|done].
  etrans; [exact Hm|by eapply Hh].
Qed.

Lemma within_get_row {A} (q : database → list A) : within R (get_row q).
Proof. intros w. by rewrite get_row_world. Qed.

Lemma within_get_rows {A} (q : database → list A) : within R (get_rows q).
Proof.
  intros w. unfold get_rows, bind, get, raise, ret. by destruct (q (db w)).
Qed.

End Frame.

#[local] Instance same_stored_preorder : PreOrder same_stored.
Proof.
  split.
  - by intros w.
  - intros w1 w2 w3 (?&?&?&?&?&?&?&?) (?&?&?&?&?&?&?&?).
    unfold same_stored. split_and!; congruence.
Qed.

#[local] Instance same_but_cache_preorder : PreOrder same_but_cache.
Proof.
  split.
  - by intros w.
  - intros w1 w2 w3 [H1 ?] [H2 ?]. split; [by etrans|congruence].
Qed.

Ltac within_step :=
  lazymatch goal with
  | |- within _ (bind _ _) => apply within_bind; [apply _| | intros ?]
  | |- within _ (ret _) => apply within_ret; apply _
  | |- within _ (raise _) => apply within_raise; apply _
  | |- within _ get => apply within_get; apply _
  | |- within _ (gets _) => apply within_gets; apply _
  | |- within _ (get_row _) => apply within_get_row; apply _
  | |- within _ (get_rows _) => apply within_get_rows; apply _
  | |- within _ (modify _) => apply within_modify; intros ?; done
  | |- within _ (try_except _ _) =>
      apply within_try; [apply _| | intros ? ? [= <-]]
  | |- within _ (if ?c then _ else _) => destruct c
  | |- within _ (match ?x with _ => _ end) => destruct x
  end.

Lemma within_get_cached_file fh : within same_but_cache (get_cached_file fh).
Proof. unfold get_cached_file, modify_client. repeat within_step. Qed.

Lemma within_download_all msgs : within same_but_cache (download_all msgs).
Proof. intros w. by rewrite download_all_run. Qed.

Lemma lru_setitem_maxsize k v c c' :
  lru_setitem k v c = Some c' → lru_maxsize c' = lru_maxsize c.
Proof. unfold lru_setitem. case_decide; [done|]. by intros [= <-]. Qed.

Lemma within_cache_store fh barr :
  within same_but_cache (cache_store fh barr).
Proof.
  intros w. unfold cache_store, bind, get.
  destruct (lru_setitem fh barr (cached_files (client w))) as [c|] eqn:E;
    [|done].
  simpl. split; [|done]. split_and!; try done.
  by apply lru_setitem_maxsize in E.
Qed.

Lemma within_download_file fh ids :
  within same_but_cache (download_file fh ids).
Proof.
  unfold download_file, get_messages.
  repeat first [ apply within_get_cached_file | apply within_download_all
               | apply within_cache_store | within_step ].
Qed.

Lemma within_get_telegram_data fh :
  within same_but_cache (get_telegram_data fh).
Proof.
  unfold get_telegram_data.
  repeat first [ apply within_get_cached_file | apply within_download_file
               | within_step ].
Qed.

Lemma within_read fh offset length :
  within same_but_cache (read fh offset length).
Proof.
  unfold read.
  repeat first [ apply within_get_telegram_data | within_step ].
Qed.

Lemma within_write fh offset buf : within same_stored (write fh offset buf).
Proof.
  assert (Hg : within same_stored (get_telegram_data fh)).
  { intros w. apply within_get_telegram_data. }
  unfold write, extend_write_buffer.
  repeat first [ apply Hg | within_step ].
  apply within_modify. intros w'. by destruct (write_buffer_cached w').
Qed.

(** X4. [read] changes nothing but the content cache, whether it returns
    or raises: it executes no statement, posts and deletes no message, and
    leaves the open counts and the write buffer as they are. *)
Theorem read_touches_cache_only fh offset length w :
  same_but_cache w (snd (read fh offset length w)).
Proof. apply within_read. Qed.

(** X5. [write] only buffers: whether it returns or raises, the tables,
    the channel, the open counts and the trace are what they were, so no
    byte of a write is stored anywhere before [release]. *)
Theorem write_stores_nothing fh offset buf w :
  same_stored w (snd (write fh offset buf w)).
Proof. apply within_write. Qed.

(** X6. A cached content is returned as it is: when the cache holds a
    non-empty value for [fh], [read] returns its slice without looking at
    [telegram_messages] or at the channel, whatever they hold. *)
Theorem read_served_from_cache fh offset length w row v :
  inodes (db w) !! fh = Some row →
  lru_find fh (cached_files (client w)) = Some v →
  v ≠ [] →
  fst (read fh offset length w) = Ok (slice offset (offset + length) v).
Proof.
  intros Hi Hc Hv. unfold read.
  erewrite bind_ok by (by eapply get_row_inode_some).
  unfold get_telegram_data, get_cached_file.
  unfold bind at 1. unfold bind at 1. unfold bind at 1.
  unfold get at 1. lazy beta iota. rewrite Hc.
  unfold bind at 1, modify_client, modify. lazy beta iota.
  rewrite decide_True by done. done.
Qed.

(** X7. A file whose remote messages are gone reads as empty, not as an
    error: when the content is not cached and a message named by the
    mapping rows of [fh] is missing from the channel, the failure of the
    download is caught in [get_telegram_data] and [read] returns the empty
    byte string. *)
Theorem read_of_missing_messages fh offset length w row :
  inodes (db w) !! fh = Some row →
  lru_find fh (cached_files (client w)) = None →
  messages_by_inode fh (db w) ≠ [] →
  remote_payload fh w = None →
  fst (read fh offset length w) = Ok [].
Proof.
  intros Hi Hc Hr Hp.
  rewrite (read_miss _ _ _ _ _ Hi Hc Hr).
  unfold fetched. rewrite Hp. simpl. by rewrite slice_nil.
Qed.

(** *** Names and entries *)

(** [lookup] of a name the kernel sends (a [bytes] value). *)
Lemma lookup_bytes w p b :
  lookup p (NBytes b) w
  = match contents_by_name (NBytes b) p (db w) with
    | [] => (Raise (FUSEError ENOENT), w)
    | [row] => getattr (c_inode row) w
    | _ :: _ :: _ => (Raise NoUniqueValueError, w)
    end.
Proof.
  unfold lookup. rewrite !decide_False by done.
  unfold try_except, bind at 1, bind at 1.
  destruct (contents_by_name (NBytes b) p (db w)) as [|row [|row' l]] eqn:E.
  - by rewrite (get_row_nil _ _ E).
  - by rewrite (get_row_one _ _ _ E).
  - by rewrite (get_row_many _ _ _ _ _ E).
Qed.

Lemma len_nonempty {A} (l : list A) : l ≠ [] → len l ≠ 0.
Proof. destruct l; [done|]. unfold len. simpl. lia. Qed.

Lemma len_snoc {A} (l : list A) x : len (l ++ [x]) = len l + 1.
Proof. unfold len. by rewrite length_app, Nat2Z.inj_add. Qed.

Lemma create_entry_run w parent name mode ctx rdev target :
  can_create parent name w →
  let fh := next_inode_id (inodes (db w)) in
  let row := {| i_uid := ctx_uid ctx; i_gid := ctx_gid ctx; i_mode := mode;
                i_mtime_ns := now_ns w; i_atime_ns := now_ns w;
                i_ctime_ns := now_ns w; i_target := target; i_size := 0;
                i_rdev := rdev |} in
  ∃ w1,
    _create parent name mode ctx rdev target w
    = (Ok {| st_ino := fh; generation := 0;
             entry_timeout := 300; attr_timeout := 300;
             st_mode := mode;
             st_nlink := len (contents_by_inode fh (db w)) + 1;
             st_uid := ctx_uid ctx; st_gid := ctx_gid ctx;
             st_rdev := rdev; st_size := 0;
             st_blksize := 512; st_blocks := 1;
             st_atime_ns := now_ns w; st_mtime_ns := now_ns w;
             st_ctime_ns := now_ns w |}, w1)
    ∧ inodes (db w1) = <[fh := row]> (inodes (db w))
    ∧ contents (db w1)
      = contents (db w)
        ++ [{| c_rowid := contents_seq (db w) + 1; c_name := name;
               c_inode := fh; c_parent_inode := parent |}]
    ∧ telegram_messages (db w1) = telegram_messages (db w)
    ∧ inode_open_count w1 = inode_open_count w
    ∧ write_buffer w1 = write_buffer w
    ∧ client w1 = client w
    ∧ trace w1
      = trace w ++ [EvExecute (InsertInode None row);
                    EvExecute (InsertContents name fh parent); EvCommit].
Proof.
  intros ([prow Hp] & Hl & Hn) fh row. unfold _create.
  erewrite bind_ok by (by apply getattr_some).
  rewrite decide_False by (simpl; by apply len_nonempty).
  erewrite bind_ok by done.
  rewrite (bind_ok _ _ w w w) by done.
  erewrite bind_ok by (by apply execute_ok).
  erewrite bind_ok by done.
  erewrite bind_ok.
  2:{ apply execute_ok. cbn -[next_inode_id].
      unfold contents_by_name in *. cbn -[next_inode_id]. by rewrite Hn. }
  erewrite bind_ok by done.
  eexists. split.
  { erewrite getattr_some by (cbn -[next_inode_id]; apply lookup_insert_eq).
    f_equal. cbn -[next_inode_id]. f_equal.
    unfold contents_by_inode. cbn -[next_inode_id].
    rewrite filter_app, filter_cons_True, filter_nil by done.
    by rewrite len_snoc. }
  cbn -[next_inode_id]. split_and!; try done.
  by rewrite <- !app_assoc.
Qed.

(** X8. A file just created is found under its name: [create] in a
    linked directory that has no entry of that name returns a handle that
    is a new inode id, with the mode asked for, the caller's uid and gid
    and size 0; [lookup] of the name then returns the same attributes, and
    the open count of the inode has gone up by one. *)
Theorem create_then_lookup w parent b mode flags ctx :
  can_create parent (NBytes b) w →
  ∃ e w1,
    create parent (NBytes b) mode flags ctx w = (Ok (st_ino e, e), w1)
    ∧ inodes (db w) !! st_ino e = None
    ∧ st_mode e = mode ∧ st_uid e = ctx_uid ctx ∧ st_gid e = ctx_gid ctx
    ∧ st_size e = 0
    ∧ st_nlink e = len (contents_by_inode (st_ino e) (db w)) + 1
    ∧ lookup parent (NBytes b) w1 = (Ok e, w1)
    ∧ open_count (st_ino e) w1 = open_count (st_ino e) w + 1.
Proof.
  intros Hc.
  destruct (create_entry_run w parent (NBytes b) mode ctx 0 None Hc)
    as (w1 & Hrun & Hi & Hcn & Ht & Ho & Hb & Hcl & Htr).
  destruct Hc as (Hp & Hl & Hn).
  unfold create. erewrite bind_ok by exact Hrun.
  erewrite bind_ok by done.
  eexists _, _. split; [reflexivity|].
  cbn -[next_inode_id].
  split_and!; try done.
  - apply next_inode_id_fresh.
  - rewrite lookup_bytes. cbn -[next_inode_id].
    unfold contents_by_name in *. rewrite Hcn, filter_app, Hn.
    rewrite filter_cons_True by done. cbn -[next_inode_id].
    erewrite getattr_some.
    2:{ cbn -[next_inode_id]. rewrite Hi. apply lookup_insert_eq. }
    f_equal. cbn -[next_inode_id]. f_equal.
    unfold contents_by_inode. cbn -[next_inode_id]. rewrite Hcn.
    rewrite filter_app, filter_cons_True, filter_nil by done.
    by rewrite len_snoc.
  - unfold open_count. cbn -[next_inode_id].
    rewrite lookup_insert_eq. simpl. by rewrite Ho.
Qed.

(** X9. A symbolic link keeps its target: [symlink] in a linked directory
    that has no entry of that name makes an inode of mode
    [S_IFLNK | 0o777], and [readlink] of that inode returns the target
    given. *)
Theorem symlink_then_readlink w parent name target ctx :
  can_create parent name w →
  ∃ e w1,
    symlink parent name target ctx w = (Ok e, w1)
    ∧ st_mode e = 41471
    ∧ readlink (st_ino e) w1 = (Ok (Some target), w1).
Proof.
  intros Hc. unfold symlink.
  edestruct (create_entry_run w parent name) as (w1 & Hrun & Hi & _);
    [exact Hc|].
  eexists _, w1. split; [exact Hrun|].
  cbn -[next_inode_id]. split; [done|].
  unfold readlink. erewrite bind_ok.
  2:{ apply get_row_inode_some. rewrite Hi. apply lookup_insert_eq. }
  done.
Qed.

(** X10. An entry cannot be made without a linked parent, and nothing
    changes when it is tried: [_create] (behind [create], [mkdir], [mknod]
    and [symlink]) and [link] raise [ENOENT] when the parent inode has no
    row, and [EINVAL] when it has a row but no directory entry. *)
Theorem entry_needs_linked_parent w p name mode ctx rdev target i :
  inodes (db w) !! p = None ∨ contents_by_inode p (db w) = [] →
  let e := match inodes (db w) !! p with
           | Some _ => EINVAL
           | None => ENOENT
           end in
  _create p name mode ctx rdev target w = (Raise (FUSEError e), w)
  ∧ link i p name w = (Raise (FUSEError e), w).
Proof.
  intros H e. subst e. unfold _create, link.
  destruct (inodes (db w) !! p) as [r|] eqn:E.
  - destruct H as [?|Hn]; [done|].
    split.
    + erewrite bind_ok by (by apply getattr_some).
      simpl. rewrite Hn. rewrite decide_True by done.
      by erewrite bind_raise by done.
    + erewrite bind_ok by (by apply getattr_some).
      simpl. rewrite Hn. rewrite decide_True by done.
      by erewrite bind_raise by done.
  - split; by erewrite bind_raise by (by apply getattr_none).
Qed.

(** X11. [_create] on a name the directory already has raises
    [IntegrityError] after the new inode row was inserted: the row stays in
    [inodes] without a directory entry, and nothing was committed. *)
Theorem create_existing_name_leaves_inode w p name mode ctx rdev target :
  is_Some (inodes (db w) !! p) →
  contents_by_inode p (db w) ≠ [] →
  contents_by_name name p (db w) ≠ [] →
  let fh := next_inode_id (inodes (db w)) in
  let row := {| i_uid := ctx_uid ctx; i_gid := ctx_gid ctx; i_mode := mode;
                i_mtime_ns := now_ns w; i_atime_ns := now_ns w;
                i_ctime_ns := now_ns w; i_target := target; i_size := 0;
                i_rdev := rdev |} in
  ∃ w1,
    _create p name mode ctx rdev target w = (Raise IntegrityError, w1)
    ∧ inodes (db w) !! fh = None
    ∧ inodes (db w1) = <[fh := row]> (inodes (db w))
    ∧ contents (db w1) = contents (db w)
    ∧ contents_by_inode fh (db w1) = contents_by_inode fh (db w)
    ∧ trace w1 = trace w ++ [EvExecute (InsertInode None row)].
Proof.
  intros [prow Hp] Hl Hn fh row. unfold _create.
  erewrite bind_ok by (by apply getattr_some).
  rewrite decide_False by (simpl; by apply len_nonempty).
  erewrite bind_ok by done.
  rewrite (bind_ok _ _ w w w) by done.
  erewrite bind_ok by (by apply execute_ok).
  erewrite bind_ok by done.
  erewrite bind_raise.
  2:{ apply execute_raise. cbn -[next_inode_id].
      unfold contents_by_name in *. cbn -[next_inode_id].
      by destruct (filter _ (contents (db w))). }
  eexists. split; [reflexivity|]. cbn -[next_inode_id].
  split_and!; try done. apply next_inode_id_fresh.
Qed.

(** X12. A hard link adds one to the link count: [link] of an inode that
    has a row, under a new name in a linked directory, returns the
    attributes of the inode with [st_nlink] one more than before; the new
    name resolves to the same inode, and no inode row changes. *)
Theorem link_adds_link w i r p b :
  inodes (db w) !! i = Some r →
  can_create p (NBytes b) w →
  ∃ e w1,
    link i p (NBytes b) w = (Ok e, w1)
    ∧ st_ino e = i
    ∧ st_nlink e = len (contents_by_inode i (db w)) + 1
    ∧ inodes (db w1) = inodes (db w)
    ∧ lookup p (NBytes b) w1 = (Ok e, w1).
Proof.
  intros Hi ([prow Hp] & Hl & Hn). unfold link.
  erewrite bind_ok by (by apply getattr_some).
  rewrite decide_False by (simpl; by apply len_nonempty).
  erewrite bind_ok by done.
  erewrite bind_ok.
  2:{ apply execute_ok. simpl. unfold contents_by_name in *. by rewrite Hn. }
  erewrite bind_ok by done.
  erewrite getattr_some by exact Hi.
  eexists _, _. split; [reflexivity|]. simpl.
  assert (Hlen : len (contents_by_inode i
                   (with_contents (contents (db w) ++
                      [{| c_rowid := contents_seq (db w) + 1;
                          c_name := NBytes b; c_inode := i;
                          c_parent_inode := p |}]) (db w)))
                 = len (contents_by_inode i (db w)) + 1).
  { unfold contents_by_inode. simpl.
    rewrite filter_app, filter_cons_True, filter_nil by done.
    by rewrite len_snoc. }
  split_and!; try done.
  rewrite lookup_bytes. simpl. unfold contents_by_name in *. simpl.
  rewrite filter_app, Hn, filter_cons_True by done. simpl.
  erewrite getattr_some by exact Hi. done.
Qed.

(** X13. [link] does not check that the inode exists: for an inode id
    without a row it inserts and commits the directory entry and only then
    raises [ENOENT], so the directory keeps an entry that resolves to
    nothing and whose name is taken. *)
Theorem link_missing_inode_leaves_entry w i p b :
  inodes (db w) !! i = None →
  can_create p (NBytes b) w →
  ∃ w1,
    link i p (NBytes b) w = (Raise (FUSEError ENOENT), w1)
    ∧ contents (db w1)
      = contents (db w)
        ++ [{| c_rowid := contents_seq (db w) + 1; c_name := NBytes b;
               c_inode := i; c_parent_inode := p |}]
    ∧ inodes (db w1) = inodes (db w)
    ∧ trace w1
      = trace w ++ [EvExecute (InsertContents (NBytes b) i p); EvCommit]
    ∧ lookup p (NBytes b) w1 = (Raise (FUSEError ENOENT), w1).
Proof.
  intros Hi ([prow Hp] & Hl & Hn). unfold link.
  erewrite bind_ok by (by apply getattr_some).
  rewrite decide_False by (simpl; by apply len_nonempty).
  erewrite bind_ok by done.
  erewrite bind_ok.
  2:{ apply execute_ok. simpl. unfold contents_by_name in *. by rewrite Hn. }
  erewrite bind_ok by done.
  erewrite getattr_none by exact Hi.
  eexists. split; [reflexivity|]. simpl. split_and!; try done.
  - by rewrite <- app_assoc.
  - rewrite lookup_bytes. simpl. unfold contents_by_name in *. simpl.
    rewrite filter_app, Hn, filter_cons_True by done. simpl.
    by apply getattr_none.
Qed.

(** *** Removing entries *)

Lemma filter_filter_not {A} (P : A → Prop) `{∀ x, Decision (P x)}
    (l : list A) :
  filter P (filter (λ x, ¬ P x) l) = [].
Proof.
  apply filter_none. intros x Hx. by apply list_elem_of_filter in Hx as [? _].
Qed.

Lemma filter_length_split {A} (P Q : A → Prop) `{∀ x, Decision (P x)}
    `{∀ x, Decision (Q x)} (l : list A) :
  length (filter P l)
  = (length (filter P (filter Q l))
     + length (filter P (filter (λ x, ¬ Q x) l)))%nat.
Proof.
  induction l as [|x l IH]; [done|].
  rewrite !filter_cons.
  destruct (decide (P x)), (decide (Q x)), (decide (¬ Q x)); try done;
    rewrite ?filter_cons_True, ?filter_cons_False by done; simpl; lia.
Qed.

(** What [_remove] does to an inode without children that is not open,
    when the entry is its only link and when it has others. *)
Lemma remove_closed_run w inode_p name entry :
  contents_by_parent (st_ino entry) (db w) = [] →
  1 ≤ st_nlink entry →
  inode_open_count w !! st_ino entry = None →
  ∃ w', _remove inode_p name entry w = (Ok tt, w')
    ∧ contents (db w')
      = filter (λ r, ¬ (c_name r = name ∧ c_parent_inode r = inode_p))
               (contents (db w))
    ∧ inode_open_count w' = inode_open_count w
    ∧ write_buffer w' = write_buffer w
    ∧ cached_files (client w') = cached_files (client w)
    ∧ if decide (st_nlink entry = 1) then
        inodes (db w') = delete (st_ino entry) (inodes (db w))
        ∧ telegram_messages (db w')
          = filter (λ r, t_inode r ≠ st_ino entry) (telegram_messages (db w))
        ∧ channel (client w')
          = filter (λ m, m_id m ∉ t_id <$> messages_by_inode (st_ino entry)
                                                             (db w))
                   (channel (client w))
      else
        inodes (db w') = inodes (db w)
        ∧ telegram_messages (db w') = telegram_messages (db w)
        ∧ channel (client w') = channel (client w).
Proof.
  intros Hc Hn Ho. unfold _remove.
  rewrite (bind_ok _ _ w w w) by done.
  rewrite Hc. rewrite decide_False by (unfold len; simpl; lia).
  erewrite bind_ok by done.
  destruct (decide (st_nlink entry = 1)) as [H1|H1].
  - rewrite decide_True by done.
    erewrite bind_ok.
    2:{ erewrite bind_ok by (by apply execute_ok).
        erewrite bind_ok by apply delete_msgs_for_inode_run.
        erewrite bind_ok by (by apply execute_ok).
        by apply execute_ok. }
    rewrite decide_False by lia.
    erewrite bind_ok by done.
    eexists. split; [done|]. done.
  - rewrite decide_False by (intros [? _]; done).
    erewrite bind_ok by done.
    rewrite decide_True by (split; [lia|done]).
    erewrite bind_ok by (by apply execute_ok).
    eexists. split; [done|]. done.
Qed.

Lemma filter_nil_not {A} (P : A → Prop) `{∀ x, Decision (P x)} (l : list A) :
  filter P l = [] → ∀ x, x ∈ l → ¬ P x.
Proof.
  intros Hf x Hx HP.
  assert (Hin : x ∈ filter P l) by (by apply list_elem_of_filter).
  rewrite Hf in Hin. by apply elem_of_nil in Hin.
Qed.

(** [unlink] of the only name of a closed file. *)
Lemma unlink_closed_run w p b row r :
  contents_by_name (NBytes b) p (db w) = [row] →
  inodes (db w) !! c_inode row = Some r →
  S_ISDIR (i_mode r) = false →
  len (contents_by_inode (c_inode row) (db w)) = 1 →
  contents_by_parent (c_inode row) (db w) = [] →
  inode_open_count w !! c_inode row = None →
  ∃ w', unlink p (NBytes b) w = (Ok tt, w')
    ∧ inodes (db w') = delete (c_inode row) (inodes (db w))
    ∧ contents (db w')
      = filter (λ r, ¬ (c_name r = NBytes b ∧ c_parent_inode r = p))
               (contents (db w))
    ∧ telegram_messages (db w')
      = filter (λ r, t_inode r ≠ c_inode row) (telegram_messages (db w))
    ∧ channel (client w')
      = filter (λ m, m_id m ∉ t_id <$> messages_by_inode (c_inode row) (db w))
               (channel (client w))
    ∧ cached_files (client w') = cached_files (client w)
    ∧ inode_open_count w' = inode_open_count w
    ∧ write_buffer w' = write_buffer w.
Proof.
  intros Hn Hi Hd Hl Hc Ho. unfold unlink.
  erewrite bind_ok.
  2:{ rewrite lookup_bytes, Hn. by apply getattr_some. }
  simpl. rewrite Hd. erewrite bind_ok by done.
  match goal with
  | |- context [_remove _ _ ?e _] =>
      destruct (remove_closed_run w p (NBytes b) e)
        as (w' & Hrun & Hcn & Hoc & Hwb & Hca & Hrest);
        [exact Hc|simpl; lia|exact Ho|]
  end.
  simpl in Hrun, Hcn, Hca, Hrest.
  rewrite decide_True in Hrest by exact Hl.
  destruct Hrest as (Hin & Ht & Hch).
  exists w'. split; [exact Hrun|]. split_and!; done.
Qed.

(** X14. [unlink] of the only name of a file that is not open removes the
    file everywhere but in the cache: the call returns, the inode row and
    the mapping rows of the inode are deleted, the channel loses exactly
    the messages those rows named, and the name no longer resolves; the
    content cache is left as it was. *)
Theorem unlink_last_link w p b row r :
  contents_by_name (NBytes b) p (db w) = [row] →
  inodes (db w) !! c_inode row = Some r →
  S_ISDIR (i_mode r) = false →
  len (contents_by_inode (c_inode row) (db w)) = 1 →
  contents_by_parent (c_inode row) (db w) = [] →
  inode_open_count w !! c_inode row = None →
  ∃ w', unlink p (NBytes b) w = (Ok tt, w')
    ∧ inodes (db w') = delete (c_inode row) (inodes (db w))
    ∧ messages_by_inode (c_inode row) (db w') = []
    ∧ channel (client w')
      = filter (λ m, m_id m ∉ t_id <$> messages_by_inode (c_inode row) (db w))
               (channel (client w))
    ∧ lookup p (NBytes b) w' = (Raise (FUSEError ENOENT), w')
    ∧ cached_files (client w') = cached_files (client w).
Proof.
  intros Hn Hi Hd Hl Hc Ho.
  destruct (unlink_closed_run w p b row r Hn Hi Hd Hl Hc Ho)
    as (w' & Hrun & Hin & Hcn & Ht & Hch & Hca & _).
  exists w'. split; [exact Hrun|]. split_and!; try done.
  - unfold messages_by_inode. rewrite Ht. apply filter_filter_not.
  - rewrite lookup_bytes. unfold contents_by_name. rewrite Hcn.
    by rewrite filter_filter_not.
Qed.

(** X15. [unlink] of one of several names of a file that is not open
    removes that name only: the inode row, the mapping rows and the channel
    stay as they are, the name no longer resolves, and the link count of
    the inode is one less. *)
Theorem unlink_one_of_links w p b row r :
  contents_by_name (NBytes b) p (db w) = [row] →
  inodes (db w) !! c_inode row = Some r →
  S_ISDIR (i_mode r) = false →
  1 < len (contents_by_inode (c_inode row) (db w)) →
  contents_by_parent (c_inode row) (db w) = [] →
  inode_open_count w !! c_inode row = None →
  ∃ w' e, unlink p (NBytes b) w = (Ok tt, w')
    ∧ inodes (db w') = inodes (db w)
    ∧ telegram_messages (db w') = telegram_messages (db w)
    ∧ channel (client w') = channel (client w)
    ∧ lookup p (NBytes b) w' = (Raise (FUSEError ENOENT), w')
    ∧ getattr (c_inode row) w' = (Ok e, w')
    ∧ st_nlink e = len (contents_by_inode (c_inode row) (db w)) - 1.
Proof.
  intros Hn Hi Hd Hl Hc Ho. unfold unlink.
  erewrite bind_ok.
  2:{ rewrite lookup_bytes, Hn. by apply getattr_some. }
  simpl. rewrite Hd. erewrite bind_ok by done.
  match goal with
  | |- context [_remove _ _ ?e _] =>
      destruct (remove_closed_run w p (NBytes b) e)
        as (w' & Hrun & Hcn & _ & _ & Hca & Hrest);
        [exact Hc|simpl; lia|exact Ho|]
  end.
  simpl in Hrun, Hcn, Hca, Hrest.
  rewrite decide_False in Hrest by lia.
  destruct Hrest as (Hin & Ht & Hch).
  exists w'. eexists. split; [exact Hrun|]. split_and!; try done.
  - rewrite lookup_bytes. unfold contents_by_name. rewrite Hcn.
    by rewrite filter_filter_not.
  - apply getattr_some. rewrite Hin. exact Hi.
  - simpl. unfold contents_by_inode. rewrite Hcn.
    unfold len.
    rewrite (filter_length_split (λ r, c_inode r = c_inode row)
               (λ r, c_name r = NBytes b ∧ c_parent_inode r = p)
               (contents (db w))).
    unfold contents_by_name in Hn. rewrite Hn.
    rewrite filter_cons_True, filter_nil by done. simpl length. lia.
Qed.

(** X16. The type checks of [unlink] and [rmdir] come before any change:
    [unlink] of a directory raises [EISDIR], [rmdir] of something that is
    not a directory raises [ENOTDIR], [rmdir] of a directory that has an
    entry raises [ENOTEMPTY], and in each case the world is left as it
    was. *)
Theorem remove_type_errors w p b row r :
  contents_by_name (NBytes b) p (db w) = [row] →
  inodes (db w) !! c_inode row = Some r →
  (if S_ISDIR (i_mode r)
   then unlink p (NBytes b) w = (Raise (FUSEError EISDIR), w)
        ∧ (contents_by_parent (c_inode row) (db w) ≠ [] →
           rmdir p (NBytes b) w = (Raise (FUSEError ENOTEMPTY), w))
   else rmdir p (NBytes b) w = (Raise (FUSEError ENOTDIR), w)).
Proof.
  intros Hn Hi.
  assert (Hlk : lookup p (NBytes b) w = getattr (c_inode row) w).
  { by rewrite lookup_bytes, Hn. }
  destruct (S_ISDIR (i_mode r)) eqn:Hd.
  - split.
    + unfold unlink. erewrite bind_ok.
      2:{ rewrite Hlk. by apply getattr_some. }
      simpl. rewrite Hd. by erewrite bind_raise by done.
    + intros Hc. unfold rmdir. erewrite bind_ok.
      2:{ rewrite Hlk. by apply getattr_some. }
      simpl. rewrite Hd. simpl. erewrite bind_ok by done.
      unfold _remove. rewrite (bind_ok _ _ w w w) by done.
      simpl. rewrite decide_True.
      2:{ pose proof (len_nonempty _ Hc). unfold len in *. lia. }
      by erewrite bind_raise by done.
  - unfold rmdir. erewrite bind_ok.
    2:{ rewrite Hlk. by apply getattr_some. }
    simpl. rewrite Hd. simpl. by erewrite bind_raise by done.
Qed.

(** *** Renaming to a free name *)

Lemma renamed_by_new_name n' p' n p (l : list contents_row) :
  filter (λ r, c_name r = n' ∧ c_parent_inode r = p') l = [] →
  filter (λ r, c_name r = n' ∧ c_parent_inode r = p')
         (renamed n' p' n p <$> l)
  = renamed n' p' n p
      <$> filter (λ r, c_name r = n ∧ c_parent_inode r = p) l.
Proof.
  induction l as [|x l IH]; [done|]. intros Hf.
  rewrite filter_cons in Hf. case_decide as Hx'; [done|].
  specialize (IH Hf). rewrite fmap_cons.
  destruct (decide (c_name x = n ∧ c_parent_inode x = p)) as [Hx|Hx].
  - rewrite (filter_cons_True _ x l) by done.
    rewrite fmap_cons, <- IH.
    apply filter_cons_True. unfold renamed. by rewrite decide_True.
  - rewrite (filter_cons_False _ x l) by done. rewrite <- IH.
    apply filter_cons_False. unfold renamed. by rewrite decide_False.
Qed.

Lemma renamed_by_old_name n' p' n p (l : list contents_row) :
  (n', p') ≠ (n, p) →
  filter (λ r, c_name r = n ∧ c_parent_inode r = p)
         (renamed n' p' n p <$> l) = [].
Proof.
  intros Hne. apply filter_none. intros y Hy.
  apply list_elem_of_fmap in Hy as (x & -> & _). unfold renamed.
  case_decide as Hx; [|done]. simpl. intros [-> ->]. done.
Qed.

Lemma renamed_by_inode n' p' n p i (l : list contents_row) :
  filter (λ r, c_inode r = i) (renamed n' p' n p <$> l)
  = renamed n' p' n p <$> filter (λ r, c_inode r = i) l.
Proof.
  induction l as [|x l IH]; [done|].
  assert (Hi : c_inode (renamed n' p' n p x) = c_inode x).
  { unfold renamed. by case_decide. }
  rewrite fmap_cons, !filter_cons, IH, Hi. by case_decide.
Qed.

(** X17. [rename] to a name that is free moves the entry and nothing
    else: the call returns, the new name resolves to the attributes the old
    name resolved to, the old name no longer resolves, and the inode rows,
    the mapping rows and the channel are as before. *)
Theorem rename_moves_entry w p b p' b' row r :
  contents_by_name (NBytes b) p (db w) = [row] →
  inodes (db w) !! c_inode row = Some r →
  contents_by_name (NBytes b') p' (db w) = [] →
  (b, p) ≠ (b', p') →
  ∃ e w',
    lookup p (NBytes b) w = (Ok e, w)
    ∧ rename p (NBytes b) p' (NBytes b') 0 w = (Ok tt, w')
    ∧ lookup p' (NBytes b') w' = (Ok e, w')
    ∧ lookup p (NBytes b) w' = (Raise (FUSEError ENOENT), w')
    ∧ inodes (db w') = inodes (db w)
    ∧ telegram_messages (db w') = telegram_messages (db w)
    ∧ client w' = client w.
Proof.
  intros Hn Hi Hn' Hne.
  assert (Hlk : lookup p (NBytes b) w = getattr (c_inode row) w).
  { by rewrite lookup_bytes, Hn. }
  assert (Hlk' : lookup p' (NBytes b') w = (Raise (FUSEError ENOENT), w)).
  { by rewrite lookup_bytes, Hn'. }
  rewrite Hlk, (getattr_some _ _ _ Hi).
  eexists _, _. split; [reflexivity|].
  unfold rename. rewrite decide_False by lia.
  erewrite bind_ok by done.
  erewrite bind_ok by (rewrite Hlk; by apply getattr_some).
  erewrite bind_ok.
  2:{ unfold try_except. erewrite bind_raise by exact Hlk'. done. }
  lazy beta iota.
  erewrite bind_ok.
  2:{ apply execute_ok. simpl. rewrite Hn, Hn'.
      rewrite decide_False; [done|]. intros [= -> ->]. done. }
  split; [reflexivity|]. simpl.
  change (λ r0 : contents_row,
            if decide (c_name r0 = NBytes b ∧ c_parent_inode r0 = p)
            then {| c_rowid := c_rowid r0; c_name := NBytes b';
                    c_inode := c_inode r0; c_parent_inode := p' |}
            else r0)
    with (renamed (NBytes b') p' (NBytes b) p).
  assert (Hfrow : renamed (NBytes b') p' (NBytes b) p row
                  = {| c_rowid := c_rowid row; c_name := NBytes b';
                       c_inode := c_inode row; c_parent_inode := p' |}).
  { unfold renamed. rewrite decide_True; [done|].
    assert (Hin : row ∈ contents_by_name (NBytes b) p (db w))
      by (rewrite Hn; left).
    by apply list_elem_of_filter in Hin as [? _]. }
  split_and!; try done.
  - rewrite lookup_bytes. unfold contents_by_name in *. simpl.
    rewrite renamed_by_new_name by exact Hn'.
    rewrite Hn. rewrite fmap_cons, Hfrow. simpl.
    erewrite getattr_some by exact Hi. f_equal. f_equal.
    simpl. unfold contents_by_inode. simpl.
    rewrite renamed_by_inode.
    unfold len. by rewrite length_fmap.
  - rewrite lookup_bytes. unfold contents_by_name. simpl.
    rewrite renamed_by_old_name; [done|].
    intros [= <- <-]. done.
Qed.

(** *** The open counts and [release] *)

Lemma release_empty_buffer fh w :
  write_buffer w = [] →
  release fh w
  = release_forget fh
      (with_open_count (<[fh := open_count fh w - 1]> (inode_open_count w)) w).
Proof.
  intros Hb. rewrite release_unfold.
  erewrite bind_ok by done.
  erewrite bind_ok by done. simpl. rewrite Hb.
  rewrite decide_False by (unfold len; simpl; lia).
  by erewrite bind_ok by done.
Qed.

(** X18. An open followed by its release leaves the process where it
    was: with nothing buffered, for an inode that has a row and a name and
    whose open count is not a stored zero, [open] and then [release]
    return, and the world after them is the world before. *)
Theorem open_then_release w fh flags r :
  write_buffer w = [] →
  inodes (db w) !! fh = Some r →
  contents_by_inode fh (db w) ≠ [] →
  inode_open_count w !! fh ≠ Some 0 →
  (open fh flags ;; release fh) w = (Ok tt, w).
Proof.
  intros Hb Hi Hl Ho.
  erewrite bind_ok by apply open_run.
  rewrite release_empty_buffer by done.
  unfold release_forget.
  erewrite bind_ok by done.
  unfold open_count. simpl. rewrite !lookup_insert_eq. simpl.
  destruct w as [d oc wb wbc cl now ur tr]. simpl in *.
  destruct (oc !! fh) as [n|] eqn:E; simpl.
  - rewrite decide_False by (intros ?; apply Ho; f_equal; lia).
    unfold ret, with_open_count. simpl. do 2 f_equal.
    rewrite insert_insert_eq. replace (n + 1 - 1) with n by lia.
    by apply insert_id.
  - erewrite bind_ok by done.
    erewrite bind_ok by (by apply getattr_some).
    simpl. rewrite decide_False by (by apply len_nonempty).
    unfold ret, with_open_count. simpl. do 2 f_equal.
    rewrite !delete_insert_eq. by apply delete_id.
Qed.

(** X19. The deletion of an inode that lost its last name while it was
    open is done by the last [release], and is partial: with nothing
    buffered, [release] of the only handle of an inode that has a row but
    no directory entry returns, deletes the inode row and the open count,
    and leaves every mapping row and every remote message of the inode in
    place. *)
Theorem release_forgets_unlinked w fh r :
  write_buffer w = [] →
  inodes (db w) !! fh = Some r →
  contents_by_inode fh (db w) = [] →
  inode_open_count w !! fh = Some 1 →
  ∃ w', release fh w = (Ok tt, w')
    ∧ inodes (db w') = delete fh (inodes (db w))
    ∧ inode_open_count w' = delete fh (inode_open_count w)
    ∧ telegram_messages (db w') = telegram_messages (db w)
    ∧ channel (client w') = channel (client w)
    ∧ trace w' = trace w ++ [EvExecute (DeleteInode fh); EvCommit].
Proof.
  intros Hb Hi Hl Ho.
  rewrite release_empty_buffer by done.
  unfold release_forget.
  erewrite bind_ok by done.
  unfold open_count. simpl. rewrite lookup_insert_eq, Ho. simpl.
  erewrite bind_ok by done.
  erewrite bind_ok by (by apply getattr_some).
  simpl. rewrite Hl. rewrite decide_True by done.
  erewrite bind_ok by (by apply execute_ok).
  eexists. split; [reflexivity|]. simpl. split_and!; try done.
  - by rewrite delete_insert_eq.
  - by rewrite <- app_assoc.
Qed.

(** X20. A flush that cannot name the file loses the data: when the write
    buffer is not empty and [fh] does not have exactly one directory entry
    with a name that decodes as UTF-8 (it has none, or several hard links,
    or an undecodable name), [release] raises after it has emptied the
    buffer; nothing was uploaded and no table changed, so the buffered
    bytes are nowhere. *)
Theorem release_failure_drops_buffer w fh :
  write_buffer w ≠ [] →
  (∀ row b, contents_by_inode fh (db w) = [row] → c_name row = NBytes b →
            utf8_valid b = false) →
  ∃ e w', release fh w = (Raise e, w')
    ∧ write_buffer w' = []
    ∧ db w' = db w
    ∧ channel (client w') = channel (client w)
    ∧ trace w' = trace w ++ [EvBufferReset (write_buffer w)].
Proof.
  intros Hb Hname. rewrite release_unfold.
  erewrite bind_ok by done.
  erewrite bind_ok by done. simpl.
  rewrite decide_True.
  2:{ pose proof (len_nonempty _ Hb). unfold len in *. lia. }
  unfold release_flush.
  set (w0 := with_open_count _ w).
  assert (Hflush : ∃ e w',
    (modify (with_buffer [] None) ;;
     log (EvBufferReset (write_buffer w)) ;;
     fname <- get_row (λ d, c_name <$> contents_by_inode fh d) ;;
     filename <- decode fname ;;
     telegram_msgs <- upload_file (write_buffer w) fh filename ;;
     delete_msgs_for_inode fh ;;
     execute (DeleteMessages fh) ;;
     for_each telegram_msgs (λ id, execute (InsertMessage id fh)) ;;
     execute (UpdateInode col_size (len (write_buffer w)) fh) ;;
     commit) w0 = (Raise e, w')
    ∧ write_buffer w' = [] ∧ db w' = db w
    ∧ channel (client w') = channel (client w)
    ∧ trace w' = trace w ++ [EvBufferReset (write_buffer w)]).
  { erewrite bind_ok by done.
    erewrite bind_ok by done.
    set (w1 := with_trace _ _).
    destruct (contents_by_inode fh (db w)) as [|row [|row' l]] eqn:E.
    - erewrite bind_raise.
      2:{ apply get_row_nil. subst w1 w0. simpl. by rewrite E. }
      by eexists _, _.
    - erewrite bind_ok.
      2:{ apply get_row_one. subst w1 w0. simpl. by rewrite E. }
      destruct (c_name row) as [b0|s] eqn:En.
      + erewrite bind_raise.
        2:{ rewrite decode_run, (Hname row b0 eq_refl En). reflexivity. }
        by eexists _, _.
      + erewrite bind_raise by (by rewrite decode_run). by eexists _, _.
    - erewrite bind_raise.
      2:{ eapply get_row_many. subst w1 w0. simpl. by rewrite E. }
      by eexists _, _. }
  destruct Hflush as (e & w' & Hrun & H).
  exists e, w'. split; [|exact H].
  erewrite bind_raise; [done|]. exact Hrun.
Qed.

(** *** Properties of the tables that every upcall keeps *)

Section DbInvariant.

Context (I : database → Prop).
Hypothesis I_exec : ∀ st d d', exec_stmt st d = inl d' → I d → I d'.

#[local] Instance keeps_db_preorder : PreOrder (keeps_db I).
Proof.
  split.
  - intros w H. exact H.
  - intros w1 w2 w3 H1 H2 H. by apply H2, H1.
Qed.

Lemma inv_execute st : within (keeps_db I) (execute st).
Proof.
  intros w Hw. destruct (exec_stmt st (db w)) as [d|e] eqn:E.
  - rewrite (execute_ok _ _ _ E). simpl. by eapply I_exec.
  - by rewrite (execute_raise _ _ _ E).
Qed.

Lemma inv_for_each {A} (l : list A) (body : A → M unit) :
  (∀ x, within (keeps_db I) (body x)) →
  within (keeps_db I) (for_each l body).
Proof.
  intros H. induction l as [|x l IH]; simpl.
  - apply within_ret, _.
  - apply within_bind; [apply _|apply H|]. intros _. apply IH.
Qed.

Ltac inv_handler :=
  let e := fresh "e" in let k := fresh "k" in let H := fresh "H" in
  intros e k H; unfold no_row_is_ENOENT in H;
  repeat case_match; simplify_eq.

Ltac inv_step :=
  lazymatch goal with
  | |- within _ (bind _ _) => apply within_bind; [apply _| | intros ?]
  | |- within _ (ret _) => apply within_ret; apply _
  | |- within _ (raise _) => apply within_raise; apply _
  | |- within _ get => apply within_get; apply _
  | |- within _ (gets _) => apply within_gets; apply _
  | |- within _ (get_row _) => apply within_get_row; apply _
  | |- within _ (get_rows _) => apply within_get_rows; apply _
  | |- within _ (modify _) =>
      let w := fresh in let H := fresh in
      apply within_modify; intros w H;
      first [exact H | destruct (write_buffer_cached w); exact H]
  | |- within _ (execute _) => apply inv_execute
  | |- within _ (for_each _ _) => apply inv_for_each; intros ?
  | |- within _ (try_except _ _) => apply within_try; [apply _| | inv_handler]
  | |- within _ (if ?c then _ else _) => destruct c
  | |- within _ (match ?x with _ => _ end) => destruct x
  | |- within _ (log _) => unfold log
  | |- within _ commit => unfold commit, log
  | |- within _ (modify_client _) => unfold modify_client
  | |- within _ (getattr _) =>
      let w := fresh in intros w; rewrite getattr_world; reflexivity
  | |- within _ (lookup _ _) =>
      let w := fresh in intros w; rewrite lookup_world; reflexivity
  | |- within _ (download_all _) =>
      let w := fresh in intros w; rewrite download_all_run; reflexivity
  | |- within _ (readdir_rows _) =>
      let w := fresh in intros w; rewrite readdir_rows_world; reflexivity
  end.

Lemma inv_upload_chunks file_name chunks : ∀ i,
  within (keeps_db I) (upload_chunks file_name i chunks).
Proof.
  induction chunks as [|c chunks IH]; intros i; simpl.
  - apply within_ret, _.
  - unfold send_file. apply within_bind; [apply _|repeat inv_step|].
    intros ?. apply within_bind; [apply _|apply IH|]. intros ?. inv_step.
Qed.

Lemma inv_get_telegram_data fh :
  within (keeps_db I) (get_telegram_data fh).
Proof.
  intros w Hw. by destruct (within_get_telegram_data fh w) as [[-> _] _].
Qed.

Lemma inv_delete_msgs_for_inode fh :
  within (keeps_db I) (delete_msgs_for_inode fh).
Proof. unfold delete_msgs_for_inode, delete_messages. repeat inv_step. Qed.

Ltac inv_call :=
  lazymatch goal with
  | |- within _ (upload_chunks _ _ _) => apply inv_upload_chunks
  | |- within _ (get_telegram_data _) => apply inv_get_telegram_data
  | |- within _ (delete_msgs_for_inode _) => apply inv_delete_msgs_for_inode
  | |- within _ (cache_pop _) => unfold cache_pop
  | |- within _ (decode _) => unfold decode
  | |- within _ (upload_file _ _ _) => unfold upload_file
  | |- within _ (extend_write_buffer _) => unfold extend_write_buffer
  | |- _ => inv_step
  end.

Lemma inv_remove p n e : within (keeps_db I) (_remove p n e).
Proof. unfold _remove. repeat inv_call. Qed.

Lemma inv_replace p n p' n' e e' :
  within (keeps_db I) (_replace p n p' n' e e').
Proof. unfold _replace. repeat inv_call. Qed.

Lemma inv_create_ p n mode ctx rdev target :
  within (keeps_db I) (_create p n mode ctx rdev target).
Proof. unfold _create. repeat inv_call. Qed.

Lemma inv_setattr i attr fields fh :
  within (keeps_db I) (setattr i attr fields fh).
Proof. unfold setattr. repeat inv_call. Qed.

Lemma inv_write fh offset buf : within (keeps_db I) (write fh offset buf).
Proof. unfold write. repeat inv_call. Qed.

Lemma inv_release fh : within (keeps_db I) (release fh).
Proof. unfold release. repeat inv_call. Qed.

Ltac inv_upcall :=
  lazymatch goal with
  | |- within _ (_create _ _ _ _ _ _) => apply inv_create_
  | |- within _ (_remove _ _ _) => apply inv_remove
  | |- within _ (_replace _ _ _ _ _ _) => apply inv_replace
  | |- within _ (setattr _ _ _ _) => apply inv_setattr
  | |- within _ (write _ _ _) => apply inv_write
  | |- within _ (release _) => apply inv_release
  | |- _ => inv_call
  end.

Lemma inv_handle u : within (keeps_db I) (handle u).
Proof.
  destruct u;
    unfold handle, void, readlink, opendir, readdir, unlink, rmdir, symlink,
      rename, link, mknod, mkdir, statfs, open, access, create, read, close,
      fsync;
    repeat inv_upcall.
Qed.

Lemma inv_serve us : ∀ w, I (db w) → I (db (serve us w)).
Proof.
  induction us as [|u us IH]; intros w Hw; [done|].
  simpl. apply IH. by apply inv_handle.
Qed.

End DbInvariant.

(** The constraint UNIQUE (name, parent_inode). *)
Lemma exec_stmt_names_unique st d d' :
  exec_stmt st d = inl d' → names_unique d → names_unique d'.
Proof.
  unfold names_unique. intros He Hu.
  destruct st as [[id|] row|n i p|id i|id|n p|i|i n p|n' p' n p|c v id];
    simpl in He.
  - destruct (inodes d !! id); [done|]. by injection He as <-.
  - by injection He as <-.
  - destruct (contents_by_name n p d) eqn:E; [|done]. injection He as <-.
    simpl. rewrite fmap_app. apply NoDup_app. split_and!; [done| |].
    + intros k Hk Hk'. apply list_elem_of_singleton in Hk'. subst k.
      apply list_elem_of_fmap in Hk as (r & [= Hn Hp] & Hr).
      assert (r ∈ contents_by_name n p d) as Hin.
      { apply list_elem_of_filter. by split. }
      rewrite E in Hin. by apply elem_of_nil in Hin.
    + apply NoDup_singleton.
  - case_decide; [done|]. by injection He as <-.
  - by injection He as <-.
  - injection He as <-. simpl.
    eapply sublist_NoDup; [exact Hu|]. apply fmap_sublist, sublist_filter.
  - by injection He as <-.
  - injection He as <-. simpl. rewrite <- list_fmap_compose.
    erewrite list_fmap_ext; [exact Hu|]. intros ? r _. simpl.
    by case_decide.
  - destruct (contents_by_name n p d); [by injection He as <-|].
    case_decide as Hk; [by injection He as <-|].
    destruct (contents_by_name n' p' d) eqn:E'; [|done].
    injection He as <-. simpl. rewrite <- list_fmap_compose.
    erewrite (list_fmap_ext _
      ((λ k, if decide (k = (n, p)) then (n', p') else k)
       ∘ (λ r, (c_name r, c_parent_inode r)))).
    2:{ intros ? r _. simpl.
        destruct (decide (c_name r = n ∧ c_parent_inode r = p))
          as [[<- <-]|Hr]; simpl.
        - by rewrite decide_True.
        - rewrite decide_False; [done|]. intros [= ? ?]. by apply Hr. }
    rewrite list_fmap_compose.
    apply NoDup_fmap_2_strong; [|done].
    assert (Hfree : (n', p') ∉ (λ r, (c_name r, c_parent_inode r))
                               <$> contents d).
    { intros Hk'. apply list_elem_of_fmap in Hk' as (r & [= Hn Hp] & Hr).
      assert (r ∈ contents_by_name n' p' d) as Hin.
      { apply list_elem_of_filter. by split. }
      rewrite E' in Hin. by apply elem_of_nil in Hin. }
    intros x y Hx Hy. repeat case_decide; congruence.
  - by injection He as <-.
Qed.

Lemma names_unique_one d n p :
  names_unique d → (length (contents_by_name n p d) ≤ 1)%nat.
Proof.
  unfold names_unique, contents_by_name.
  induction (contents d) as [|x l IH]; [simpl; lia|].
  rewrite fmap_cons, NoDup_cons. intros [Hx Hl].
  rewrite filter_cons. case_decide as Hk; [|by apply IH].
  rewrite filter_none; [simpl; lia|].
  intros y Hy [Hn Hp]. apply Hx. apply list_elem_of_fmap.
  exists y. split; [|done]. destruct Hk. congruence.
Qed.

(** The AUTOINCREMENT key of [contents]. *)
Lemma increasing_weaken lo lo' l :
  lo' ≤ lo → increasing lo l → increasing lo' l.
Proof. destruct l; simpl; [done|]. intros ? [? ?]. split; [lia|done]. Qed.

Lemma increasing_filter (P : contents_row → Prop) `{∀ x, Decision (P x)} l :
  ∀ lo, increasing lo l → increasing lo (filter P l).
Proof.
  induction l as [|x l IH]; intros lo; [done|]. simpl. intros [Hx Hl].
  rewrite filter_cons. case_decide.
  - simpl. split; [done|]. by apply IH.
  - apply IH. eapply increasing_weaken; [|exact Hl]. lia.
Qed.

Lemma increasing_fmap (f : contents_row → contents_row) l :
  (∀ r, c_rowid (f r) = c_rowid r) →
  ∀ lo, increasing lo l → increasing lo (f <$> l).
Proof.
  intros Hf. induction l as [|x l IH]; intros lo; [done|].
  simpl. intros [Hx Hl]. rewrite Hf. split; [done|]. by apply IH.
Qed.

Lemma increasing_snoc l r :
  ∀ lo, increasing lo l → Forall (λ x, c_rowid x < c_rowid r) l →
        lo < c_rowid r → increasing lo (l ++ [r]).
Proof.
  induction l as [|x l IH]; intros lo; simpl; [done|].
  intros [Hx Hl] Hall Hlo. apply Forall_cons in Hall as [Hxr Hall].
  split; [done|]. by apply IH.
Qed.

Lemma increasing_above l : ∀ lo,
  increasing lo l → Forall (λ r, lo < c_rowid r) l.
Proof.
  induction l as [|x l IH]; intros lo; [by constructor|].
  simpl. intros [Hx Hl]. constructor; [done|].
  eapply Forall_impl; [by apply IH|]. simpl. intros. lia.
Qed.

Lemma increasing_split l1 r l2 : ∀ lo,
  increasing lo (l1 ++ r :: l2) →
  Forall (λ x, c_rowid x < c_rowid r) l1
  ∧ Forall (λ x, c_rowid r < c_rowid x) l2
  ∧ lo < c_rowid r.
Proof.
  induction l1 as [|x l1 IH]; intros lo; simpl.
  - intros [Hr Hl]. split_and!; [by constructor| |done].
    by apply increasing_above.
  - intros [Hx Hl]. destruct (IH _ Hl) as (H1 & H2 & H3).
    split_and!; [|done|lia]. constructor; [lia|done].
Qed.

Lemma exec_stmt_rowids_ok st d d' :
  exec_stmt st d = inl d' → rowids_ok d → rowids_ok d'.
Proof.
  unfold rowids_ok. intros He (Hinc & Hle & Hseq).
  destruct st as [[id|] row|n i p|id i|id|n p|i|i n p|n' p' n p|c v id];
    simpl in He.
  - destruct (inodes d !! id); [done|]. by injection He as <-.
  - by injection He as <-.
  - destruct (contents_by_name n p d); [|done]. injection He as <-. simpl.
    split_and!; [| |lia].
    + apply increasing_snoc; [done| |simpl; lia].
      eapply Forall_impl; [exact Hle|]. simpl. intros. lia.
    + apply Forall_app. split.
      * eapply Forall_impl; [exact Hle|]. simpl. intros. lia.
      * apply Forall_singleton. simpl. lia.
  - case_decide; [done|]. by injection He as <-.
  - by injection He as <-.
  - injection He as <-. simpl. split_and!; [| |done].
    + by apply increasing_filter.
    + apply Forall_forall. intros x Hx.
      apply list_elem_of_filter in Hx as [_ Hx].
      rewrite Forall_forall in Hle. by apply Hle.
  - by injection He as <-.
  - injection He as <-. simpl. split_and!; [| |done].
    + apply increasing_fmap; [|done]. intros r. by case_decide.
    + apply Forall_fmap. eapply Forall_impl; [exact Hle|].
      intros r. simpl. by case_decide.
  - destruct (contents_by_name n p d); [by injection He as <-|].
    case_decide as Hk; [by injection He as <-|].
    destruct (contents_by_name n' p' d); [|done].
    injection He as <-. simpl. split_and!; [| |done].
    + apply increasing_fmap; [|done]. intros r. by case_decide.
    + apply Forall_fmap. eapply Forall_impl; [exact Hle|].
      intros r. simpl. by case_decide.
  - by injection He as <-.
Qed.

Lemma mount_tables key uid gid now :
  names_unique (db (mount key uid gid now))
  ∧ rowids_ok (db (mount key uid gid now)).
Proof.
  unfold mount, init_tables.
  erewrite bind_ok by done.
  erewrite bind_ok by (by apply execute_ok).
  erewrite bind_ok by (by apply execute_ok).
  unfold commit, log, modify, names_unique, rowids_ok.
  cbn [snd fst db with_trace with_db inodes contents contents_seq].
  simpl. split_and!; try done.
  - apply NoDup_singleton.
  - apply Forall_singleton. simpl. lia.
Qed.

(** X21. In every world the process can reach from its start-up, by
    whatever sequence of upcalls, returning or raising, the lookup of a
    name the kernel sends has two outcomes only: it returns the attributes
    of an entry, or it raises [ENOENT]. No other exception leaves
    [lookup], because no directory ever has two entries of one name. *)
Theorem lookup_returns_or_ENOENT key uid gid now (us : list upcall) p b :
  let w := serve us (mount key uid gid now) in
  (∃ e, lookup p (NBytes b) w = (Ok e, w))
  ∨ lookup p (NBytes b) w = (Raise (FUSEError ENOENT), w).
Proof.
  intros w.
  assert (Hu : names_unique (db w)).
  { apply (inv_serve names_unique exec_stmt_names_unique).
    apply mount_tables. }
  pose proof (names_unique_one _ (NBytes b) p Hu) as Hone.
  rewrite lookup_bytes.
  destruct (contents_by_name (NBytes b) p (db w)) as [|row [|row' l]].
  - by right.
  - destruct (inodes (db w) !! c_inode row) as [r|] eqn:E.
    + left. eexists. by apply getattr_some.
    + right. by apply getattr_none.
  - simpl in Hone. lia.
Qed.

(** *** Listing a directory in several calls *)

Lemma readdir_rows_cursors rows : ∀ w replies w',
  readdir_rows rows w = (Ok replies, w') →
  replies.*2 = c_rowid <$> rows.
Proof.
  induction rows as [|row rows IH]; intros w replies w'; simpl.
  - by intros [= <- <-].
  - unfold bind at 1.
    pose proof (getattr_world w (c_inode row)) as Hg.
    destruct (getattr (c_inode row) w) as [[e|e] w1]; simpl in Hg; subst w1;
      [|done].
    unfold bind at 1.
    destruct (readdir_rows rows w) as [[rest|e'] w1] eqn:E; [|done].
    intros [= <- <-]. simpl. f_equal. by eapply IH.
Qed.

Lemma readdir_rows_app rows1 : ∀ rows2 w replies,
  readdir_rows (rows1 ++ rows2) w = (Ok replies, w) →
  ∃ r1 r2, replies = r1 ++ r2
    ∧ readdir_rows rows1 w = (Ok r1, w)
    ∧ readdir_rows rows2 w = (Ok r2, w).
Proof.
  induction rows1 as [|row rows1 IH]; intros rows2 w replies; simpl.
  - intros H. by exists [], replies.
  - intros H. unfold bind at 1 in H.
    pose proof (getattr_world w (c_inode row)) as Hg.
    destruct (getattr (c_inode row) w) as [[e|e] w1] eqn:Eg; simpl in Hg;
      subst w1; [|done].
    unfold bind at 1 in H.
    pose proof (readdir_rows_world (rows1 ++ rows2) w) as Hw.
    destruct (readdir_rows (rows1 ++ rows2) w) as [[rest|e'] w1] eqn:E;
      simpl in Hw; subst w1; [|done].
    injection H as <-.
    destruct (IH _ _ _ E) as (r1 & r2 & -> & H1 & H2).
    exists ((c_name row, e, c_rowid row) :: r1), r2.
    split_and!; [done| |done].
    unfold bind at 1. rewrite Eg. unfold bind at 1. by rewrite H1.
Qed.

(** X22. A directory listing can be taken up where it stopped: in every
    world the process can reach from its start-up, when [readdir] from an
    offset returns a list of replies, [readdir] from the cursor of any one
    of them returns exactly the replies that followed it, so a listing
    read in several calls shows no entry twice and skips none. *)
Theorem readdir_resumes key uid gid now (us : list upcall) i off
    pre n e c post w' :
  let w := serve us (mount key uid gid now) in
  readdir i off w = (Ok (pre ++ (n, e, c) :: post), w') →
  readdir i c w = (Ok post, w).
Proof.
  intros w Hrun.
  assert (Hok : rowids_ok (db w)).
  { apply (inv_serve rowids_ok exec_stmt_rowids_ok). apply mount_tables. }
  destruct Hok as (Hinc & _ & _).
  unfold readdir in *.
  rewrite (bind_ok _ _ w w w) in Hrun by done.
  rewrite (bind_ok _ _ w w w) by done.
  set (off' := if decide (off = 0) then -1 else off) in *.
  pose proof (readdir_rows_world (contents_after i off' (db w)) w) as Hw.
  rewrite Hrun in Hw. simpl in Hw. subst w'.
  pose proof (readdir_rows_cursors _ _ _ _ Hrun) as Hcur.
  rewrite fmap_app, fmap_cons in Hcur. simpl in Hcur. symmetry in Hcur.
  apply fmap_app_inv in Hcur as (rows1 & rows' & Hpre & Hrest & Hrows).
  symmetry in Hrest. apply fmap_cons_inv in Hrest
    as (row & rows2 & Hc & Hpost & ->).
  rewrite Hrows in Hrun.
  apply readdir_rows_app in Hrun as (r1 & r2 & Heq & Hr1 & Hr2).
  apply readdir_rows_cursors in Hr1 as Hlen.
  apply app_inj_1 in Heq as [<- <-].
  2:{ apply (f_equal length) in Hlen, Hpre.
      rewrite !length_fmap in Hlen, Hpre. congruence. }
  assert (Hrows_inc : increasing 0 (rows1 ++ row :: rows2)).
  { rewrite <- Hrows. by apply increasing_filter. }
  apply increasing_split in Hrows_inc as (Hlt & Hgt & Hpos).
  assert (Hoff : off' < c).
  { assert (Hin : row ∈ contents_after i off' (db w)).
    { rewrite Hrows. apply elem_of_app. right. left. }
    apply list_elem_of_filter in Hin as [[_ ?] _]. by subst c. }
  rewrite decide_False by lia.
  assert (Hafter : contents_after i c (db w) = rows2).
  { unfold contents_after in *.
    rewrite (list_filter_iff _
               (λ r, c < c_rowid r ∧
                     (c_parent_inode r = i ∧ off' < c_rowid r))).
    2:{ intros r. split.
        - intros [? ?]. split_and!; [done|done|lia].
        - intros (? & ? & ?). done. }
    rewrite <- list_filter_filter, Hrows.
    rewrite filter_app, filter_cons_False by (subst c; lia).
    rewrite (filter_none _ rows1), (filter_all _ rows2); [done| |].
    - intros x Hx. rewrite Forall_forall in Hgt. specialize (Hgt x Hx).
      subst c. lia.
    - intros x Hx. rewrite Forall_forall in Hlt. specialize (Hlt x Hx).
      subst c. lia. }
  rewrite Hafter.
  simpl in Hr2. unfold bind at 1 in Hr2.
  pose proof (getattr_world w (c_inode row)) as Hg.
  destruct (getattr (c_inode row) w) as [[e0|e0] w1]; simpl in Hg; subst w1;
    [|done].
  unfold bind at 1 in Hr2.
  pose proof (readdir_rows_world rows2 w) as Hw2.
  destruct (readdir_rows rows2 w) as [[rest|e'] w1]; simpl in Hw2; subst w1;
    [|done].
  by injection Hr2 as _ _ _ ->.
Qed.

(** *** Making and removing, deleting and making again *)

(** X23. [mkdir] followed by [rmdir] of the same name undoes itself: for
    a name that is free in a linked directory, when nothing is left under
    the inode id the new directory gets, both calls return, and [inodes],
    [contents], [telegram_messages] and the channel are what they were
    before the two calls. *)
Theorem mkdir_then_rmdir w parent b mode ctx :
  can_create parent (NBytes b) w →
  S_ISDIR mode = true →
  unused_inode (next_inode_id (inodes (db w))) w →
  contents_by_parent (next_inode_id (inodes (db w))) (db w) = [] →
  inode_open_count w !! next_inode_id (inodes (db w)) = None →
  ∃ w2,
    (mkdir parent (NBytes b) mode ctx ;; rmdir parent (NBytes b)) w
    = (Ok tt, w2)
    ∧ inodes (db w2) = inodes (db w)
    ∧ contents (db w2) = contents (db w)
    ∧ telegram_messages (db w2) = telegram_messages (db w)
    ∧ channel (client w2) = channel (client w).
Proof.
  intros Hc Hdir (Hci & Hmi & _) Hcp Hopen.
  destruct (create_entry_run w parent (NBytes b) mode ctx 0 None Hc)
    as (w1 & Hrun & Hi & Hcn & Ht & Ho & Hb & Hcl & Htr).
  destruct Hc as ([prow Hp] & Hl & Hn).
  set (fh := next_inode_id (inodes (db w))) in *.
  assert (Hfresh : inodes (db w) !! fh = None) by apply next_inode_id_fresh.
  assert (Hne : parent ≠ fh) by (intros ->; congruence).
  unfold mkdir. erewrite bind_ok by exact Hrun.
  unfold rmdir.
  assert (Hcn1 : contents_by_name (NBytes b) parent (db w1)
                 = [{| c_rowid := contents_seq (db w) + 1;
                       c_name := NBytes b; c_inode := fh;
                       c_parent_inode := parent |}]).
  { unfold contents_by_name in *. rewrite Hcn, filter_app, Hn.
    by rewrite filter_cons_True. }
  erewrite bind_ok.
  2:{ rewrite lookup_bytes, Hcn1. simpl. apply getattr_some.
      rewrite Hi. apply lookup_insert_eq. }
  simpl. rewrite Hdir. simpl. erewrite bind_ok by done.
  match goal with
  | |- context [_remove _ _ ?e _] =>
      destruct (remove_closed_run w1 parent (NBytes b) e)
        as (w2 & Hrun2 & Hcn2 & _ & _ & _ & Hrest)
  end.
  { simpl. unfold contents_by_parent in *. rewrite Hcn, filter_app, Hcp.
    by rewrite filter_cons_False. }
  { simpl. unfold contents_by_inode in *. rewrite Hcn, filter_app, Hci.
    rewrite filter_cons_True by done. unfold len. simpl. lia. }
  { simpl. by rewrite Ho. }
  simpl in Hrun2, Hcn2, Hrest.
  rewrite decide_True in Hrest.
  2:{ unfold contents_by_inode in *. rewrite Hcn, filter_app, Hci.
      by rewrite filter_cons_True. }
  destruct Hrest as (Hin2 & Ht2 & Hch2).
  exists w2. split; [exact Hrun2|]. split_and!.
  - rewrite Hin2, Hi, delete_insert_eq. by apply delete_id.
  - rewrite Hcn2, Hcn, filter_app, filter_cons_False by (intros H; by apply H).
    rewrite filter_nil, app_nil_r. apply filter_all.
    intros x Hx. by apply (filter_nil_not _ _ Hn).
  - rewrite Ht2, Ht. apply filter_all.
    intros x Hx. by apply (filter_nil_not _ _ Hmi).
  - rewrite Hch2, Hcl. apply filter_all. intros m _.
    unfold messages_by_inode in *. rewrite Ht, Hmi. simpl.
    apply not_elem_of_nil.
Qed.

Lemma get_telegram_data_hit fh w v :
  lru_find fh (cached_files (client w)) = Some v →
  v ≠ [] →
  ∃ w', get_telegram_data fh w = (Ok (v, true), w').
Proof.
  intros Hc Hv. unfold get_telegram_data, get_cached_file.
  unfold bind at 1. unfold bind at 1.
  unfold get at 1. lazy beta iota. rewrite Hc.
  unfold bind at 1, modify_client, modify. lazy beta iota.
  rewrite decide_True by done. by eexists.
Qed.

(** X24. The content of a deleted file can come back in a new one. The
    cache is keyed by inode id, [unlink] does not evict, and [inodes]
    gives a new file the greatest id in use plus one: when the only name of
    a closed file whose content is cached is unlinked and the id of the
    file is given out again, the file [create] makes next has the old
    content in the cache. It has size 0, yet [read] returns the old bytes,
    and a first [write] at offset 0 builds its buffer on them, keeping the
    old bytes after the new ones. *)
Theorem deleted_content_reappears w p b row r v mode flags ctx n buf :
  contents_by_name (NBytes b) p (db w) = [row] →
  inodes (db w) !! c_inode row = Some r →
  S_ISDIR (i_mode r) = false →
  len (contents_by_inode (c_inode row) (db w)) = 1 →
  contents_by_parent (c_inode row) (db w) = [] →
  inode_open_count w !! c_inode row = None →
  is_Some (inodes (db w) !! p) →
  contents_by_inode p (db w) ≠ [] →
  write_buffer w = [] →
  lru_find (c_inode row) (cached_files (client w)) = Some v →
  v ≠ [] →
  next_inode_id (delete (c_inode row) (inodes (db w))) = c_inode row →
  ∃ e w',
    (unlink p (NBytes b) ;; create p (NBytes b) mode flags ctx) w
    = (Ok (c_inode row, e), w')
    ∧ st_size e = 0
    ∧ fst (read (c_inode row) 0 n w') = Ok (slice 0 (0 + n) v)
    ∧ write_buffer (snd (write (c_inode row) 0 buf w'))
      = buf ++ drop (length buf) v.
Proof.
  intros Hn Hi Hd Hl Hc Ho [prow Hp] Hlp Hwb Hv Hvne Hnext.
  destruct (unlink_closed_run w p b row r Hn Hi Hd Hl Hc Ho)
    as (w1 & Hrun & Hin & Hcn & Ht & Hch & Hca & Hoc & Hwb1).
  set (i := c_inode row) in *.
  assert (Hrow : row ∈ contents (db w) ∧ c_name row = NBytes b
                 ∧ c_parent_inode row = p).
  { assert (Hin' : row ∈ contents_by_name (NBytes b) p (db w))
      by (rewrite Hn; left).
    apply list_elem_of_filter in Hin' as [[? ?] ?]. done. }
  destruct Hrow as (Hrin & Hrn & Hrp).
  assert (Hpi : p ≠ i).
  { intros ->.
    assert (Hin' : row ∈ contents_by_parent i (db w))
      by (by apply list_elem_of_filter).
    rewrite Hc in Hin'. by apply elem_of_nil in Hin'. }
  assert (Hcan : can_create p (NBytes b) w1).
  { split_and!.
    - rewrite Hin, lookup_delete_ne by done. by eexists.
    - unfold contents_by_inode in *. rewrite Hcn.
      destruct (filter (λ r0, c_inode r0 = p) (contents (db w)))
        as [|x l] eqn:E; [done|].
      assert (Hx : x ∈ filter (λ r0, c_inode r0 = p) (contents (db w)))
        by (rewrite E; left).
      apply list_elem_of_filter in Hx as [Hxp Hx].
      intros Hnil. apply (filter_nil_not _ _ Hnil x); [|done].
      apply list_elem_of_filter. split; [|done].
      intros [Hxn Hxq].
      assert (Hx' : x ∈ contents_by_name (NBytes b) p (db w))
        by (by apply list_elem_of_filter).
      rewrite Hn in Hx'. apply list_elem_of_singleton in Hx'. subst x.
      by apply Hpi.
    - unfold contents_by_name. rewrite Hcn. apply filter_filter_not. }
  destruct (create_entry_run w1 p (NBytes b) mode ctx 0 None Hcan)
    as (w2 & Hrun2 & Hi2 & Hcn2 & Ht2 & Ho2 & Hb2 & Hcl2 & Htr2).
  rewrite Hin, Hnext in Hrun2, Hi2, Hcn2. fold i in Hrun2, Hi2, Hcn2.
  erewrite bind_ok by exact Hrun.
  unfold create. erewrite bind_ok by exact Hrun2.
  erewrite bind_ok by done.
  eexists _, _. split; [reflexivity|]. split; [done|].
  set (w3 := with_open_count _ w2).
  assert (Hi3 : is_Some (inodes (db w3) !! i)).
  { subst w3. simpl. rewrite Hi2, lookup_insert_eq. by eexists. }
  assert (Hv3 : lru_find i (cached_files (client w3)) = Some v).
  { subst w3. simpl. by rewrite Hcl2, Hca. }
  assert (Hb3 : write_buffer w3 = []).
  { subst w3. simpl. by rewrite Hb2, Hwb1. }
  destruct (get_telegram_data_hit i w3 v Hv3 Hvne) as (w4 & Hg).
  split.
  - destruct Hi3 as [r3 Hr3]. unfold read.
    erewrite bind_ok by (by eapply get_row_inode_some).
    by erewrite bind_ok by exact Hg.
  - destruct (write_contract w3 i 0 buf (or_intror Hi3))
      as (seed & w5 & Hw & _ & Hseed & Hbuf).
    rewrite Hw. simpl. rewrite Hbuf.
    destruct (Hseed Hb3) as (cached & w6 & Hg').
    rewrite Hg in Hg'. injection Hg' as <- _ _.
    rewrite decide_False.
    2:{ pose proof (len_nonempty _ Hvne). simpl. lia. }
    by rewrite take_0.
Qed.

(** *** Uploading and downloading *)

(** X25. What [upload_file] posts, [download_file] gives back: when the
    ids in the channel were issued by it, decryption inverts encryption
    under the configured key, and the data fit into the cache, the ids
    [upload_file] returns for a payload of any size, in one chunk or in
    many, make [download_file] return exactly the data. *)
Theorem upload_then_download w data fh name :
  (∀ m, m ∈ channel (client w) → m_id m < next_message_id (client w)) →
  fernet_inverts w →
  len data ≤ lru_maxsize (cached_files (client w)) →
  ∃ ids w1 w2,
    upload_file data fh name w = (Ok ids, w1)
    ∧ len ids = len (split_chunks FILE_MAX_SIZE_BYTES (upload_payload data w))
    ∧ download_file fh ids w1 = (Ok data, w2).
Proof.
  intros Hch Hinv Hfit.
  destruct (upload_file_run data fh name w)
    as (w1 & Hrun & Hdb & _ & _ & _ & Hc1 & _ & Hk1 & Hm1 & Hf1).
  set (chunks := split_chunks FILE_MAX_SIZE_BYTES (upload_payload data w))
    in *.
  set (msgs := posted_messages name (next_message_id (client w)) 0 chunks)
    in *.
  destruct (download_file_miss fh (m_id <$> msgs) w1 Hf1) as (w2 & _ & Hd).
  exists (m_id <$> msgs), w1, w2. split; [exact Hrun|]. split.
  { subst msgs. unfold len. by rewrite length_fmap, posted_messages_length. }
  rewrite Hd, Hc1. subst msgs.
  rewrite (posted_messages_found name chunks _ 0 _ Hch).
  subst chunks. rewrite split_chunks_join by done.
  rewrite Hk1. unfold decrypted, upload_payload.
  destruct (encryption_key (client w)) as [key|] eqn:Ek.
  - rewrite (Hinv key _ data Ek). by rewrite decide_False by lia.
  - by rewrite decide_False by lia.
Qed.

(** *** Renaming over an existing entry *)

Lemma filter_fmap_pres {A} (P : A → Prop) `{∀ x, Decision (P x)}
    (f : A → A) (l : list A) :
  (∀ x, P (f x) ↔ P x) → filter P (f <$> l) = f <$> filter P l.
Proof.
  intros Hf. induction l as [|x l IH]; [done|].
  rewrite fmap_cons, !filter_cons, IH.
  destruct (decide (P x)) as [Hx|Hx].
  - by rewrite decide_True by (by apply Hf).
  - by rewrite decide_False by (by rewrite Hf).
Qed.

Lemma replace_closed_run w p n p' n' e_old e_new :
  contents_by_parent (st_ino e_new) (db w) = [] →
  st_nlink e_new = 1 →
  inode_open_count w !! st_ino e_new = None →
  ∃ w', _replace p n p' n' e_old e_new w = (Ok tt, w')
    ∧ inodes (db w') = delete (st_ino e_new) (inodes (db w))
    ∧ contents (db w')
      = filter (λ r, ¬ (c_name r = n ∧ c_parent_inode r = p))
               (retargeted (st_ino e_old) n' p' <$> contents (db w))
    ∧ telegram_messages (db w') = telegram_messages (db w)
    ∧ channel (client w')
      = filter (λ m, m_id m ∉ t_id <$> messages_by_inode (st_ino e_new)
                                                         (db w))
               (channel (client w)).
Proof.
  intros Hc Hn Ho. unfold _replace.
  rewrite (bind_ok _ _ w w w) by done.
  rewrite Hc. rewrite decide_False by (unfold len; simpl; lia).
  erewrite bind_ok by done.
  erewrite bind_ok by (by apply execute_ok).
  erewrite bind_ok by (by apply execute_ok).
  rewrite decide_True by done.
  erewrite bind_ok.
  2:{ erewrite bind_ok by (by apply execute_ok).
      apply delete_msgs_for_inode_run. }
  eexists. split; [done|]. done.
Qed.

(** X26. [rename] over the only name of a closed file replaces it: when
    the source and the destination name different inodes, and the
    destination inode has one link, no entry below it and no open handle,
    the call returns; afterwards the destination name resolves to the
    source inode, the source name no longer resolves, and the row of the
    destination inode is deleted. *)
Theorem rename_replaces_target w p b p' b' row r row' r' :
  contents_by_name (NBytes b) p (db w) = [row] →
  inodes (db w) !! c_inode row = Some r →
  contents_by_name (NBytes b') p' (db w) = [row'] →
  inodes (db w) !! c_inode row' = Some r' →
  c_inode row ≠ c_inode row' →
  len (contents_by_inode (c_inode row') (db w)) = 1 →
  contents_by_parent (c_inode row') (db w) = [] →
  inode_open_count w !! c_inode row' = None →
  ∃ e w',
    rename p (NBytes b) p' (NBytes b') 0 w = (Ok tt, w')
    ∧ lookup p' (NBytes b') w' = (Ok e, w')
    ∧ st_ino e = c_inode row
    ∧ st_mode e = i_mode r ∧ st_size e = i_size r
    ∧ lookup p (NBytes b) w' = (Raise (FUSEError ENOENT), w')
    ∧ inodes (db w') = delete (c_inode row') (inodes (db w)).
Proof.
  intros Hn Hi Hn' Hi' Hne Hl Hc Ho.
  assert (Hkey : (b, p) ≠ (b', p')).
  { intros [= <- <-]. rewrite Hn in Hn'. by injection Hn' as <-. }
  assert (Hrow' : c_name row' = NBytes b' ∧ c_parent_inode row' = p').
  { assert (Hin : row' ∈ contents_by_name (NBytes b') p' (db w))
      by (rewrite Hn'; left).
    by apply list_elem_of_filter in Hin as [? _]. }
  unfold rename. rewrite decide_False by lia.
  erewrite bind_ok by done.
  erewrite bind_ok by (rewrite lookup_bytes, Hn; by apply getattr_some).
  erewrite bind_ok.
  2:{ unfold try_except. erewrite bind_ok; [reflexivity|].
      rewrite lookup_bytes, Hn'. by apply getattr_some. }
  lazy beta iota.
  match goal with
  | |- context [_replace _ _ _ _ ?eo ?en _] =>
      destruct (replace_closed_run w p (NBytes b) p' (NBytes b') eo en)
        as (w' & Hrun & Hin & Hcn & _ & _); [exact Hc|exact Hl|exact Ho|]
  end.
  simpl in Hrun, Hin, Hcn.
  assert (Hnew : contents_by_name (NBytes b') p' (db w')
                 = [retargeted (c_inode row) (NBytes b') p' row']).
  { unfold contents_by_name in *. rewrite Hcn.
    rewrite list_filter_filter_l.
    2:{ intros x [Hx1 Hx2] [Hx3 Hx4]. apply Hkey. congruence. }
    rewrite filter_fmap_pres, Hn'; [done|].
    intros x. unfold retargeted. by case_decide. }
  assert (Hold : contents_by_name (NBytes b) p (db w') = []).
  { unfold contents_by_name. rewrite Hcn. apply filter_filter_not. }
  assert (Hino : inodes (db w') !! c_inode row = Some r).
  { by rewrite Hin, lookup_delete_ne. }
  eexists _, w'. split; [exact Hrun|].
  rewrite !lookup_bytes, Hnew, Hold.
  unfold retargeted at 1. rewrite decide_True by done. simpl.
  rewrite (getattr_some _ _ _ Hino). done.
Qed.

(** *** The message ids the process knows *)

#[local] Instance keeps_ok_preorder : PreOrder keeps_ok.
Proof.
  split.
  - intros w H. exact H.
  - intros w1 w2 w3 H1 H2 H. by apply H2, H1.
Qed.

Lemma world_ok_same w w' :
  lru_maxsize (cached_files (client w'))
  = lru_maxsize (cached_files (client w)) →
  channel (client w') = channel (client w) →
  next_message_id (client w') = next_message_id (client w) →
  telegram_messages (db w') = telegram_messages (db w) →
  keeps_ok w w'.
Proof. intros H1 H2 H3 H4. unfold keeps_ok, world_ok. by rewrite H1, H2, H3, H4. Qed.

Lemma ok_stored {A} (m : M A) : within same_stored m → within keeps_ok m.
Proof.
  intros H w. destruct (H w) as (Hd & _ & _ & Hc & Hn & _ & Hm & _).
  apply world_ok_same; [done..|]. by rewrite Hd.
Qed.

Lemma exec_stmt_messages st d d' r :
  (∀ id i, st ≠ InsertMessage id i) →
  exec_stmt st d = inl d' →
  r ∈ telegram_messages d' → r ∈ telegram_messages d.
Proof.
  intros Hst He.
  destruct st as [[id|] row|n i p|id i|id|n p|i|i n p|n' p' n p|c v id];
    simpl in He.
  - destruct (inodes d !! id); [done|]. by injection He as <-.
  - by injection He as <-.
  - destruct (contents_by_name n p d); [|done]. by injection He as <-.
  - by destruct (Hst id i).
  - by injection He as <-.
  - by injection He as <-.
  - injection He as <-. simpl. intros Hr.
    by apply list_elem_of_filter in Hr as [_ ?].
  - by injection He as <-.
  - destruct (contents_by_name n p d); [by injection He as <-|].
    case_decide; [by injection He as <-|].
    destruct (contents_by_name n' p' d); [|done]. by injection He as <-.
  - by injection He as <-.
Qed.

Lemma ok_execute st :
  (∀ id i, st ≠ InsertMessage id i) → within keeps_ok (execute st).
Proof.
  intros Hst w (H1 & H2 & H3).
  destruct (exec_stmt st (db w)) as [d|e] eqn:E.
  - rewrite (execute_ok _ _ _ E). split_and!; [done..|]. simpl.
    intros r Hr. apply H3. by eapply exec_stmt_messages.
  - by rewrite (execute_raise _ _ _ E).
Qed.

Lemma ok_delete_messages ids : within keeps_ok (delete_messages ids).
Proof.
  intros w (H1 & H2 & H3). split_and!; [done| |done].
  simpl. intros m Hm. apply list_elem_of_filter in Hm as [_ Hm]. by apply H2.
Qed.

Ltac ok_handler :=
  let e := fresh "e" in let k := fresh "k" in let H := fresh "H" in
  intros e k H; unfold no_row_is_ENOENT in H;
  repeat case_match; simplify_eq.

Ltac ok_step :=
  lazymatch goal with
  | |- within _ (bind _ _) => apply within_bind; [apply _| | intros ?]
  | |- within _ (ret _) => apply within_ret; apply _
  | |- within _ (raise _) => apply within_raise; apply _
  | |- within _ get => apply within_get; apply _
  | |- within _ (gets _) => apply within_gets; apply _
  | |- within _ (get_row _) => apply within_get_row; apply _
  | |- within _ (get_rows _) => apply within_get_rows; apply _
  | |- within _ (modify _) =>
      let w := fresh in
      apply within_modify; intros w; apply world_ok_same; reflexivity
  | |- within _ (execute _) => apply ok_execute; intros ? ?; discriminate
  | |- within _ (try_except _ _) => apply within_try; [apply _| | ok_handler]
  | |- within _ (if ?c then _ else _) => destruct c
  | |- within _ (match ?x with _ => _ end) => destruct x
  | |- within _ (log _) => unfold log
  | |- within _ commit => unfold commit, log
  | |- within _ (getattr _) =>
      let w := fresh in intros w; rewrite getattr_world; reflexivity
  | |- within _ (lookup _ _) =>
      let w := fresh in intros w; rewrite lookup_world; reflexivity
  | |- within _ (readdir_rows _) =>
      let w := fresh in intros w; rewrite readdir_rows_world; reflexivity
  | |- within _ (delete_msgs_for_inode _) => unfold delete_msgs_for_inode
  | |- within _ (delete_messages _) => apply ok_delete_messages
  | |- within _ (get_telegram_data _) =>
      apply ok_stored; let w := fresh in
      intros w; apply within_get_telegram_data
  end.

Lemma ok_remove p n e : within keeps_ok (_remove p n e).
Proof. unfold _remove. repeat ok_step. Qed.

Lemma ok_replace p n p' n' e e' : within keeps_ok (_replace p n p' n' e e').
Proof. unfold _replace. repeat ok_step. Qed.

Lemma ok_create_ p n mode ctx rdev target :
  within keeps_ok (_create p n mode ctx rdev target).
Proof. unfold _create. repeat ok_step. Qed.

Lemma ok_setattr i attr fields fh :
  within keeps_ok (setattr i attr fields fh).
Proof. unfold setattr. repeat ok_step. Qed.

Lemma ok_write fh offset buf : within keeps_ok (write fh offset buf).
Proof. apply ok_stored, within_write. Qed.

Lemma ok_send_file fname c : within keeps_ok (send_file fname c).
Proof.
  intros w (H1 & H2 & H3). split_and!; [done| |]; simpl.
  - intros m Hm. apply elem_of_app in Hm as [Hm|Hm].
    + specialize (H2 m Hm). lia.
    + apply list_elem_of_singleton in Hm as ->. simpl. lia.
  - intros r Hr. specialize (H3 r Hr). lia.
Qed.

Lemma ok_upload_chunks file_name chunks : ∀ i,
  within keeps_ok (upload_chunks file_name i chunks).
Proof.
  induction chunks as [|c chunks IH]; intros i; simpl.
  - apply within_ret, _.
  - apply within_bind; [apply _|apply ok_send_file|].
    intros ?. apply within_bind; [apply _|apply IH|]. intros ?. ok_step.
Qed.

(** The ids [upload_file] returns are below the next id of the channel it
    leaves. *)
Lemma upload_file_ok data fh name w ids w1 :
  world_ok w →
  upload_file data fh name w = (Ok ids, w1) →
  world_ok w1
  ∧ ids = seqZ (next_message_id (client w1) - len ids) (len ids)
  ∧ (∀ r, r ∈ telegram_messages (db w1) →
          t_id r < next_message_id (client w1) - len ids).
Proof.
  intros (H1 & H2 & H3) Hrun.
  destruct (upload_file_run data fh name w)
    as (wu & Hrunu & Hdb & _ & _ & _ & Hch & Hnx & _ & Hm & _).
  rewrite Hrun in Hrunu. injection Hrunu as -> <-.
  set (chunks := split_chunks FILE_MAX_SIZE_BYTES (upload_payload data w))
    in *.
  assert (Hids : m_id <$> posted_messages name (next_message_id (client w))
                            0 chunks
                 = seqZ (next_message_id (client w)) (len chunks))
    by apply posted_messages_ids.
  assert (Hlen : len (m_id <$> posted_messages name
                        (next_message_id (client w)) 0 chunks)
                 = len chunks).
  { unfold len. by rewrite length_fmap, posted_messages_length. }
  assert (Hlenp : len (posted_messages name (next_message_id (client w))
                         0 chunks) = len chunks).
  { unfold len. by rewrite posted_messages_length. }
  rewrite Hlen, Hnx, Hlenp.
  replace (next_message_id (client w) + len chunks - len chunks)
    with (next_message_id (client w)) by lia.
  split_and!.
  - split_and!.
    + by rewrite Hm.
    + rewrite Hch, Hnx, Hlenp. intros m Hmm.
      apply elem_of_app in Hmm as [Hmm|Hmm].
      * specialize (H2 m Hmm). unfold len. lia.
      * assert (Hin : m_id m ∈ seqZ (next_message_id (client w))
                                      (len chunks)).
        { rewrite <- Hids. apply list_elem_of_fmap. by exists m. }
        apply elem_of_seqZ in Hin. lia.
    + rewrite Hdb, Hnx, Hlenp. intros r Hr. specialize (H3 r Hr).
      unfold len. lia.
  - exact Hids.
  - rewrite Hdb. exact H3.
Qed.

Lemma ok_release_flush fh data : within keeps_ok (release_flush fh data).
Proof.
  intros w Hok. unfold release_flush.
  erewrite bind_ok by done. erewrite bind_ok by done.
  set (w1 := with_trace _ _).
  assert (Hok1 : world_ok w1) by exact Hok.
  clearbody w1. clear Hok w.
  unfold bind at 1.
  pose proof (get_row_world (λ d, c_name <$> contents_by_inode fh d) w1) as Hg.
  destruct (get_row _ w1) as [[fname|e] w2]; simpl in Hg; subst w2; [|done].
  unfold bind at 1. rewrite decode_run.
  assert (Hrest : ∀ filename,
    world_ok (snd ((telegram_msgs <- upload_file data fh filename ;;
                    delete_msgs_for_inode fh ;;
                    execute (DeleteMessages fh) ;;
                    for_each telegram_msgs
                      (λ id, execute (InsertMessage id fh)) ;;
                    execute (UpdateInode col_size (len data) fh) ;;
                    commit) w1))).
  { intros filename. unfold bind at 1.
    destruct (upload_file data fh filename w1) as [[ids|e] w2] eqn:Eu.
    2:{ destruct (upload_file_run data fh filename w1) as (? & Hr & _).
        rewrite Eu in Hr. done. }
    destruct (upload_file_ok _ _ _ _ _ _ Hok1 Eu) as (Hok2 & Hids & Hlt).
    erewrite bind_ok by apply delete_msgs_for_inode_run.
    erewrite bind_ok by (by apply execute_ok).
    set (w4 := with_trace _ _).
    assert (Hn : 0 ≤ len ids) by (unfold len; lia).
    rewrite Hids. rewrite <- (Z2Nat.id (len ids)) by exact Hn.
    destruct (for_each_insert_fresh fh (Z.to_nat (len ids))
                (next_message_id (client w2) - len ids) w4)
      as (w5 & Hrun & Ht5 & _ & _ & Hc5 & _).
    { subst w4. cbn. intros r Hr.
      apply list_elem_of_filter in Hr as [_ Hr]. by apply Hlt. }
    rewrite Z2Nat.id in Hrun, Ht5 by exact Hn.
    rewrite Z2Nat.id by exact Hn.
    erewrite bind_ok by exact Hrun.
    erewrite bind_ok by (by apply execute_ok).
    destruct Hok2 as (H1 & H2 & H3).
    split_and!; simpl; rewrite ?Hc5; subst w4; simpl.
    - done.
    - intros m Hm. apply list_elem_of_filter in Hm as [_ Hm]. by apply H2.
    - rewrite Ht5. simpl. intros r Hr. apply elem_of_app in Hr as [Hr|Hr].
      + apply list_elem_of_filter in Hr as [_ Hr]. by apply H3.
      + apply list_elem_of_fmap in Hr as (id & -> & Hid).
        apply elem_of_seqZ in Hid. simpl. lia. }
  destruct fname as [b|s]; [|done].
  destruct (utf8_valid b); [|done].
  apply Hrest.
Qed.

Lemma ok_release_forget fh : within keeps_ok (release_forget fh).
Proof. unfold release_forget. repeat ok_step. Qed.

Lemma ok_release fh : within keeps_ok (release fh).
Proof.
  rewrite release_unfold.
  apply within_bind; [apply _|ok_step|]. intros _.
  apply within_bind; [apply _|ok_step|]. intros w.
  apply within_bind; [apply _| |intros _; apply ok_release_forget].
  case_decide; [apply ok_release_flush|ok_step].
Qed.

Ltac ok_upcall :=
  lazymatch goal with
  | |- within _ (_create _ _ _ _ _ _) => apply ok_create_
  | |- within _ (_remove _ _ _) => apply ok_remove
  | |- within _ (_replace _ _ _ _ _ _) => apply ok_replace
  | |- within _ (setattr _ _ _ _) => apply ok_setattr
  | |- within _ (write _ _ _) => apply ok_write
  | |- within _ (release _) => apply ok_release
  | |- _ => ok_step
  end.

Lemma ok_handle u : within keeps_ok (handle u).
Proof.
  destruct u;
    unfold handle, void, readlink, opendir, readdir, unlink, rmdir, symlink,
      rename, link, mknod, mkdir, statfs, open, access, create, read, close,
      fsync;
    repeat ok_upcall.
Qed.

Lemma ok_serve us : ∀ w, world_ok w → world_ok (serve us w).
Proof.
  induction us as [|u us IH]; intros w Hw; [done|].
  simpl. apply IH. by apply ok_handle.
Qed.

Lemma release_forget_result fh w :
  fst (release_forget fh w) = Ok tt
  ∨ fst (release_forget fh w) = Raise (FUSEError ENOENT).
Proof.
  unfold release_forget. rewrite (bind_ok _ _ w w w) by done.
  case_decide; [|by left].
  erewrite bind_ok by done.
  set (w1 := with_open_count _ w).
  destruct (inodes (db w1) !! fh) as [r|] eqn:E.
  - erewrite bind_ok by (by apply getattr_some).
    case_decide; [|by left].
    erewrite bind_ok by (by apply execute_ok). by left.
  - erewrite bind_raise by (by apply getattr_none). by right.
Qed.

(** X27. The message ids the process records are ids its uploads were
    given. In every world the process can reach from its start-up, by
    whatever sequence of upcalls, every id in [telegram_messages] and every
    id in the channel is below the id the channel gives out next, and the
    cache has the capacity it was made with. So an upload never meets a
    recorded id: no [release] fails with the [IntegrityError] of a
    duplicate key in [telegram_messages]. *)
Theorem recorded_ids_were_issued key uid gid now (us : list upcall) fh :
  let w := serve us (mount key uid gid now) in
  world_ok w ∧ fst (release fh w) ≠ Raise IntegrityError.
Proof.
  intros w.
  assert (Hok : world_ok w).
  { apply ok_serve.
    split_and!; [done| |]; intros x Hx; by apply elem_of_nil in Hx. }
  split; [exact Hok|].
  rewrite release_unfold.
  erewrite bind_ok by done.
  erewrite bind_ok by done.
  set (w0 := with_open_count _ w).
  assert (Hok0 : world_ok w0) by exact Hok.
  assert (Hforget : ∀ w1, fst ((release_forget fh) w1) ≠ Raise IntegrityError).
  { intros w1. by destruct (release_forget_result fh w1) as [-> | ->]. }
  case_decide as Hbuf.
  2:{ erewrite bind_ok by done. apply Hforget. }
  unfold bind at 1.
  destruct (release_flush fh (write_buffer w0) w0) as [[[]|e] w1] eqn:E;
    [apply Hforget|].
  simpl. intros [= ->].
  assert (Hfst : fst (release_flush fh (write_buffer w0) w0)
                 = Raise IntegrityError) by (by rewrite E).
  clear E. revert Hfst. unfold release_flush.
  erewrite bind_ok by done. erewrite bind_ok by done.
  set (w2 := with_trace _ _).
  destruct (contents_by_inode fh (db w0)) as [|row [|row' l]] eqn:Ec.
  - erewrite bind_raise
      by (apply get_row_nil; change (db w2) with (db w0); cbv beta; by rewrite Ec).
    done.
  - erewrite bind_ok.
    2:{ apply get_row_one. change (db w2) with (db w0). cbv beta.
        by rewrite Ec. }
    destruct (c_name row) as [b|s] eqn:En.
    + destruct (utf8_valid b) eqn:Eu.
      * intros Hfst.
        assert (Hret : fst (release_flush fh (write_buffer w0) w0) = Ok tt).
        { eapply release_flush_returns; [apply Hok0|exact Ec|exact En|done]. }
        unfold release_flush in Hret.
        erewrite bind_ok in Hret by done.
        erewrite bind_ok in Hret by done.
        erewrite bind_ok in Hret.
        2:{ apply get_row_one. exact (f_equal (fmap c_name) Ec). }
        rewrite En in Hret. fold w2 in Hret. congruence.
      * erewrite bind_raise by (by rewrite decode_run, Eu). done.
    + erewrite bind_raise by (by rewrite decode_run). done.
  - erewrite bind_raise
      by (eapply get_row_many; change (db w2) with (db w0); cbv beta; by rewrite Ec).
    done.
Qed.

(** *** What a flush leaves *)

Lemma release_flush_run fh B w b row irow :
  world_ok w →
  inodes (db w) !! fh = Some irow →
  contents_by_inode fh (db w) = [row] →
  c_name row = NBytes b →
  utf8_valid b = true →
  ∃ w', release_flush fh B w = (Ok tt, w')
    ∧ inodes (db w') = alter (set_column col_size (len B)) fh (inodes (db w))
    ∧ contents (db w') = contents (db w)
    ∧ write_buffer w' = []
    ∧ inode_open_count w' = inode_open_count w
    ∧ lru_find fh (cached_files (client w')) = None
    ∧ channel (client w')
      = filter (λ m, m_id m ∉ t_id <$> messages_by_inode fh (db w))
               (channel (client w))
        ++ flush_posts fh B w
    ∧ t_id <$> messages_by_inode fh (db w') = m_id <$> flush_posts fh B w
    ∧ remote_payload fh w' = Some (upload_payload B w)
    ∧ (∀ j, j ≠ fh →
            messages_by_inode j (db w') = messages_by_inode j (db w)).
Proof.
  intros (Hmax & Hch & Htm) Hi Hc Hn Hu. unfold release_flush.
  erewrite bind_ok by done. erewrite bind_ok by done.
  set (w1 := with_trace _ _).
  erewrite bind_ok.
  2:{ apply get_row_one. change (db w1) with (db w). by rewrite Hc. }
  simpl. rewrite Hn.
  erewrite bind_ok by (by rewrite decode_run, Hu).
  destruct (upload_file_run B fh (string_of_list_byte b) w1)
    as (w2 & Hup & Hd2 & Ho2 & Hb2 & Ht2 & Hc2 & Hn2 & Hk2 & Hm2 & Hf2).
  change (upload_payload B w1) with (upload_payload B w) in *.
  change (next_message_id (client w1)) with (next_message_id (client w)) in *.
  change (channel (client w1)) with (channel (client w)) in *.
  assert (Hname : file_name_of fh (db w) = string_of_list_byte b).
  { unfold file_name_of. by rewrite Hc, fmap_cons, Hn. }
  unfold flush_posts. rewrite Hname.
  set (chunks := split_chunks FILE_MAX_SIZE_BYTES (upload_payload B w)) in *.
  set (msgs := posted_messages (string_of_list_byte b)
                 (next_message_id (client w)) 0 chunks) in *.
  set (old := t_id <$> messages_by_inode fh (db w)).
  assert (Hids : m_id <$> msgs
    = seqZ (next_message_id (client w)) (Z.of_nat (length chunks))).
  { unfold msgs. by rewrite posted_messages_ids. }
  assert (Hold : ∀ id, id ∈ old → id < next_message_id (client w)).
  { intros id Hid. apply list_elem_of_fmap in Hid as (r & -> & Hr).
    apply list_elem_of_filter in Hr as [_ Hr]. by apply Htm. }
  assert (Hnew : filter (λ m, m_id m ∉ old) msgs = msgs).
  { apply filter_all. intros m Hm Hin.
    assert (Hmid : m_id m ∈ m_id <$> msgs).
    { apply list_elem_of_fmap. by exists m. }
    rewrite Hids in Hmid. apply elem_of_seqZ in Hmid.
    specialize (Hold _ Hin). lia. }
  erewrite bind_ok by exact Hup.
  erewrite bind_ok by apply delete_msgs_for_inode_run.
  erewrite bind_ok by (by apply execute_ok).
  set (w4 := with_trace _ _).
  assert (Hw4 : telegram_messages (db w4)
                = filter (λ r, t_inode r ≠ fh) (telegram_messages (db w))
    ∧ inodes (db w4) = inodes (db w) ∧ contents (db w4) = contents (db w)
    ∧ channel (client w4)
      = filter (λ m, m_id m ∉ old) (channel (client w)) ++ msgs
    ∧ cached_files (client w4) = cached_files (client w2)
    ∧ write_buffer w4 = []
    ∧ inode_open_count w4 = inode_open_count w).
  { subst w4. cbn. rewrite Hd2. change (db w1) with (db w).
    rewrite Hc2, filter_app. fold old. rewrite Hnew, Hb2, Ho2.
    split_and!; done. }
  clearbody w4. destruct Hw4 as (Ht4 & Hi4 & Hc4 & Hch4 & Hca4 & Hb4 & Ho4).
  rewrite Hids.
  destruct (for_each_insert_fresh fh (length chunks)
              (next_message_id (client w)) w4)
    as (w5 & Hrun & Ht5 & Hi5 & Hc5 & Hcl5 & Ho5 & Hb5).
  { rewrite Ht4. intros r Hr. apply list_elem_of_filter in Hr as [_ Hr].
    by apply Htm. }
  erewrite bind_ok by exact Hrun.
  erewrite bind_ok by (by apply execute_ok).
  eexists. split; [reflexivity|].
  cbn. rewrite Hi5, Hi4, Hc5, Hc4, Hcl5, Hca4, Hb5, Hb4, Ho5, Ho4, Hch4.
  assert (Hrows : filter (λ r, t_inode r = fh) (telegram_messages (db w5))
    = (λ id, {| t_id := id; t_inode := fh |})
      <$> seqZ (next_message_id (client w)) (Z.of_nat (length chunks))).
  { rewrite Ht5, Ht4, filter_app, filter_filter_not. simpl.
    apply filter_all. intros r Hin.
    by apply list_elem_of_fmap in Hin as (id & -> & _). }
  assert (Htid : ∀ l : list Z,
    t_id <$> ((λ id, {| t_id := id; t_inode := fh |}) <$> l) = l).
  { intros l. rewrite <- list_fmap_compose. apply list_fmap_id. }
  split_and!; try done.
  - unfold messages_by_inode. cbn. by rewrite Hrows, Htid.
  - unfold remote_payload, messages_by_inode. cbn.
    rewrite Hrows, Htid, <- Hids.
    unfold msgs. rewrite posted_messages_found.
    + f_equal. by apply split_chunks_join.
    + intros m Hm. apply list_elem_of_filter in Hm as [_ Hm]. by apply Hch.
  - intros j Hj. unfold messages_by_inode. cbn.
    rewrite Ht5, Ht4, filter_app.
    rewrite (filter_none _ (_ <$> _)), app_nil_r.
    2:{ intros x Hx. apply list_elem_of_fmap in Hx as (id & -> & _). simpl.
        congruence. }
    rewrite list_filter_filter_l; [done|]. intros x. simpl. congruence.
Qed.

Lemma release_run w fh row b irow :
  world_ok w →
  write_buffer w ≠ [] →
  inodes (db w) !! fh = Some irow →
  contents_by_inode fh (db w) = [row] →
  c_name row = NBytes b →
  utf8_valid b = true →
  ∃ w',
    release fh w = (Ok tt, w')
    ∧ write_buffer w' = []
    ∧ remote_payload fh w' = Some (upload_payload (write_buffer w) w)
    ∧ t_id <$> messages_by_inode fh (db w')
      = m_id <$> flush_posts fh (write_buffer w) w
    ∧ channel (client w')
      = filter (λ m, m_id m ∉ t_id <$> messages_by_inode fh (db w))
               (channel (client w))
        ++ flush_posts fh (write_buffer w) w
    ∧ inodes (db w')
      = alter (set_column col_size (len (write_buffer w))) fh (inodes (db w))
    ∧ contents (db w') = contents (db w)
    ∧ lru_find fh (cached_files (client w')) = None
    ∧ (∀ j, j ≠ fh →
            messages_by_inode j (db w') = messages_by_inode j (db w)).
Proof.
  intros Hok Hb Hi Hc Hn Hu. rewrite release_unfold.
  erewrite bind_ok by done.
  erewrite bind_ok by done.
  set (w0 := with_open_count _ w).
  change (write_buffer w0) with (write_buffer w).
  rewrite decide_True.
  2:{ pose proof (len_nonempty _ Hb). unfold len in *. lia. }
  destruct (release_flush_run fh (write_buffer w) w0 b row irow)
    as (w1 & Hrun & Hi1 & Hc1 & Hb1 & Ho1 & Hf1 & Hch1 & Hids1 & Hp1 & Hj1);
    [exact Hok|exact Hi|exact Hc|exact Hn|exact Hu|].
  change (db w0) with (db w) in *. change (client w0) with (client w) in *.
  erewrite bind_ok by exact Hrun.
  destruct (release_forget_linked fh w1) as (w2 & Hrun2 & Hd2 & Hcl2).
  { rewrite Hi1, lookup_alter, decide_True by done. rewrite Hi. by eexists. }
  { unfold contents_by_inode in *. rewrite Hc1, Hc. done. }
  assert (Hb2 : write_buffer w2 = []).
  { revert Hrun2. unfold release_forget.
    rewrite (bind_ok _ _ w1 w1 w1) by done.
    case_decide; [|by intros [= <-]].
    erewrite bind_ok by done.
    set (w1' := with_open_count _ w1).
    destruct (inodes (db w1') !! fh) as [r|] eqn:E.
    - erewrite bind_ok by (by apply getattr_some).
      case_decide.
      + erewrite bind_ok by (by apply execute_ok). by intros [= <-].
      + by intros [= <-].
    - erewrite bind_raise by (by apply getattr_none). done. }
  exists w2. split_and!.
  - exact Hrun2.
  - exact Hb2.
  - etrans; [|exact Hp1].
    unfold remote_payload, messages_by_inode. by rewrite Hd2, Hcl2.
  - unfold messages_by_inode. rewrite Hd2. exact Hids1.
  - rewrite Hcl2. exact Hch1.
  - by rewrite Hd2.
  - by rewrite Hd2.
  - rewrite Hcl2. exact Hf1.
  - intros j Hj. unfold messages_by_inode. rewrite Hd2. by apply Hj1.
Qed.

(** X28. [release] stores what was written. In a world whose message ids
    the channel issued, when the write buffer is not empty and [fh] has an
    inode row and exactly one directory entry, with a UTF-8 name, [release]
    returns and leaves the buffer empty; the channel then holds, under the
    ids recorded for [fh] and in their order, exactly the payload (the
    data, or their ciphertext); the old messages of [fh] are gone from the
    channel; the size column of [fh] is the length of the data; and the
    cache has no entry for [fh]. *)
Theorem release_stores_buffer w fh row b irow :
  world_ok w →
  write_buffer w ≠ [] →
  inodes (db w) !! fh = Some irow →
  contents_by_inode fh (db w) = [row] →
  c_name row = NBytes b →
  utf8_valid b = true →
  ∃ w' irow',
    release fh w = (Ok tt, w')
    ∧ write_buffer w' = []
    ∧ remote_payload fh w' = Some (upload_payload (write_buffer w) w)
    ∧ t_id <$> messages_by_inode fh (db w')
      = m_id <$> flush_posts fh (write_buffer w) w
    ∧ channel (client w')
      = filter (λ m, m_id m ∉ t_id <$> messages_by_inode fh (db w))
               (channel (client w))
        ++ flush_posts fh (write_buffer w) w
    ∧ inodes (db w') !! fh = Some irow'
    ∧ i_size irow' = len (write_buffer w)
    ∧ lru_find fh (cached_files (client w')) = None.
Proof.
  intros Hok Hb Hi Hc Hn Hu.
  destruct (release_run w fh row b irow Hok Hb Hi Hc Hn Hu)
    as (w' & Hrun & Hb' & Hp & Hids & Hch & Hin & _ & Hf & _).
  exists w', (set_column col_size (len (write_buffer w)) irow).
  split_and!; try done.
  rewrite Hin, lookup_alter, decide_True by done. by rewrite Hi.
Qed.

(** *** Changing attributes *)

#[local] Instance same_but_inode_preorder i : PreOrder (same_but_inode i).
Proof.
  split.
  - by intros w.
  - intros w1 w2 w3 (H1 & H2 & H3 & H4 & H5) (G1 & G2 & G3 & G4 & G5).
    unfold same_but_inode. split_and!; [congruence..|].
    intros j Hj. by rewrite G5, H5.
Qed.





(** *** One buffer for every handle *)

Lemma write_append_run w fh (offset : nat) buf :
  write_buffer w ≠ [] →
  write_buffer_cached w = None →
  Z.of_nat offset = len (write_buffer w) →
  write fh offset buf w
  = (Ok (len buf), with_buffer (write_buffer w ++ buf) None w).
Proof.
  intros Hb Hc Ho. unfold write.
  rewrite (bind_ok _ _ w w w) by done.
  rewrite decide_False by done.
  erewrite bind_ok by done.
  rewrite decide_True by done.
  unfold extend_write_buffer. erewrite bind_ok by done.
  by rewrite Hc.
Qed.

(** X30. The write buffer belongs to no file. When the buffer is empty,
    data written at offset 0 through the handle of an empty file [fa] and
    then continued through the handle of another file [fb] are flushed
    together by the release of [fb]: the channel then holds both pieces as
    the content of [fb], and the later release of [fa] finds the buffer
    empty and stores nothing, so [fa] stays without content. *)
Theorem writes_of_two_handles_mix w fa fb a bdata irowa irowb rowb nb :
  world_ok w →
  write_buffer w = [] →
  a ≠ [] →
  fa ≠ fb →
  inodes (db w) !! fa = Some irowa →
  contents_by_inode fa (db w) ≠ [] →
  lru_find fa (cached_files (client w)) = None →
  messages_by_inode fa (db w) = [] →
  inodes (db w) !! fb = Some irowb →
  contents_by_inode fb (db w) = [rowb] →
  c_name rowb = NBytes nb →
  utf8_valid nb = true →
  ∃ w',
    (write fa 0 a ;; write fb (length a) bdata ;;
     release fb ;; release fa) w = (Ok tt, w')
    ∧ remote_payload fb w' = Some (upload_payload (a ++ bdata) w)
    ∧ messages_by_inode fa (db w') = []
    ∧ write_buffer w' = [].
Proof.
  intros Hok Hb Ha Hne Hia Hla Hca Hma Hib Hcb Hnb Hub.
  erewrite bind_ok.
  2:{ apply write_fresh_run; [done|by eexists|done|done]. }
  set (w1 := with_buffer a None w).
  erewrite bind_ok.
  2:{ apply write_append_run; [done|done|done]. }
  set (w2 := with_buffer _ None w1).
  destruct (release_run w2 fb rowb nb irowb)
    as (w3 & Hrun3 & Hb3 & Hp3 & _ & _ & Hi3 & Hc3 & _ & Hj3);
    [exact Hok|by destruct a|exact Hib|exact Hcb|exact Hnb|exact Hub|].
  erewrite bind_ok by exact Hrun3.
  rewrite release_empty_buffer by exact Hb3.
  set (w3' := with_open_count _ w3).
  destruct (release_forget_linked fa w3') as (w4 & Hrun4 & Hd4 & Hcl4).
  { subst w3'. simpl. rewrite Hi3, lookup_alter, decide_False by done.
    change (db w2) with (db w). rewrite Hia. by eexists. }
  { subst w3'. simpl. unfold contents_by_inode in *. by rewrite Hc3. }
  exists w4. split; [exact Hrun4|]. split_and!.
  - etrans; [|exact Hp3].
    unfold remote_payload, messages_by_inode. by rewrite Hd4, Hcl4.
  - unfold messages_by_inode. rewrite Hd4.
    etrans; [apply (Hj3 fa Hne)|]. exact Hma.
  - revert Hrun4. unfold release_forget.
    rewrite (bind_ok _ _ w3' w3' w3') by done.
    case_decide; [|by intros [= <-]].
    erewrite bind_ok by done.
    set (w5 := with_open_count _ w3').
    destruct (inodes (db w5) !! fa) as [r|] eqn:E.
    + erewrite bind_ok by (by apply getattr_some).
      case_decide.
      * erewrite bind_ok by (by apply execute_ok). by intros [= <-].
      * by intros [= <-].
    + erewrite bind_raise by (by apply getattr_none). done.
Qed.

End Properties.

(* ===================================================================== *)
(** ** The properties on examples *)
(* ===================================================================== *)

Lemma toy_inverts key iv d : toy_decrypt key (toy_encrypt key iv d) = Some d.
Proof. unfold toy_decrypt, toy_encrypt. by rewrite decide_True. Qed.

Lemma mount_world_ok key uid gid now : world_ok (mount key uid gid now).
Proof.
  split_and!; [done| |]; intros x Hx; by apply elem_of_nil in Hx.
Qed.

Lemma read_missing_inode_raises_witness :
  inodes (db w_plain) !! 42 = None
  ∧ read toy_decrypt 42 0 10 w_plain = (Raise NoSuchRowError, w_plain).
Proof.
  split; [reflexivity|].
  apply (read_missing_inode_raises toy_decrypt w_plain 42 0 10). reflexivity.
Defined.

Lemma write_missing_inode_raises_witness :
  write_buffer w_plain = [] ∧ inodes (db w_plain) !! 42 = None
  ∧ write toy_decrypt 42 0 (bs "x") w_plain = (Raise NoSuchRowError, w_plain).
Proof.
  split_and!; [reflexivity..|].
  apply (write_missing_inode_raises toy_decrypt w_plain 42 0 (bs "x"));
    reflexivity.
Defined.

Lemma remove_open_inode_deletes_nothing_witness :
  let entry := value_of no_entry (lookup 1 name_f w_created) in
  contents_by_parent (st_ino entry) (db w_created) = []
  ∧ is_Some (inode_open_count w_created !! st_ino entry)
  ∧ _remove 1 name_f entry w_created
    = (Ok tt, with_trace (trace w_created ++ [EvCommit]) w_created).
Proof.
  intros entry.
  assert (H1 : contents_by_parent (st_ino entry) (db w_created) = [])
    by (vm_compute; reflexivity).
  assert (H2 : is_Some (inode_open_count w_created !! st_ino entry))
    by (exists 1; vm_compute; reflexivity).
  split_and!; [exact H1|exact H2|].
  exact (remove_open_inode_deletes_nothing w_created 1 name_f entry H1 H2).
Defined.

(** The same on the upcall: [unlink] of the open file [f] returns and the
    directory entry of [f] is still there. *)
Example unlink_open_file_keeps_entry :
  fst (unlink 1 name_f w_created) = Ok tt
  ∧ contents_by_name name_f 1 (db (snd (unlink 1 name_f w_created)))
    = [{| c_rowid := 2; c_name := name_f; c_inode := 2;
          c_parent_inode := 1 |}].
Proof. vm_compute. done. Qed.

Lemma replace_keeps_message_rows_witness :
  let entry_old := value_of no_entry (lookup 1 name_g w_two_files) in
  let entry_new := value_of no_entry (lookup 1 name_f w_two_files) in
  let w' := snd (_replace 1 name_g 1 name_f entry_old entry_new w_two_files) in
  inodes (db w') !! 3 = None
  ∧ channel (client w') = []
  ∧ messages_by_inode 3 (db w') = [{| t_id := 1; t_inode := 3 |}].
Proof.
  intros entry_old entry_new w'.
  destruct (replace_keeps_message_rows w_two_files 1 name_g 1 name_f
              entry_old entry_new)
    as (_ & Hi & Hc & _ & Hm & _); [vm_compute; reflexivity..|].
  split_and!.
  - exact Hi.
  - etrans; [exact Hc|]. vm_compute. reflexivity.
  - etrans; [exact Hm|]. vm_compute. reflexivity.
Defined.

Lemma root_invariant_witness :
  let us := [Create 1 name_f 33188 0 ctx0; Write 2 0 (bs "hello");
             Release 2; Rename 1 name_f 1 name_g 0; Unlink 1 name_g;
             Rmdir 1 b_dotdot] in
  Forall (λ u, ¬ renames_root_dotdot u) us
  ∧ root_inv (db (serve toy_encrypt toy_decrypt us w_plain)).
Proof.
  intros us.
  assert (H : Forall (λ u, ¬ renames_root_dotdot u) us).
  { unfold us.
    repeat (apply List.Forall_cons;
            [simpl; first [tauto | intros [Hn _]; vm_compute in Hn;
                                   discriminate]|]).
    apply List.Forall_nil. }
  split; [exact H|].
  exact (root_invariant toy_encrypt toy_decrypt None 1000 1000 0 us H).
Defined.

(** The handlers themselves do not protect the entry: called directly with
    [rename(ROOT, b'..', ROOT, b'x', 0)], which no kernel sends, [rename]
    returns and [contents] has no row named [b'..'] afterwards. *)
Example rename_of_root_dotdot :
  let u := Rename 1 b_dotdot 1 (NBytes (bs "x")) 0 in
  fst (handle toy_encrypt toy_decrypt u w_plain) = Ok tt
  ∧ ¬ root_inv (db (serve toy_encrypt toy_decrypt [u] w_plain)).
Proof.
  split; [vm_compute; reflexivity|].
  intros [_ (r & Hr & Hn & _)].
  vm_compute in Hr. apply list_elem_of_singleton in Hr. subst r.
  vm_compute in Hn. discriminate.
Qed.

Lemma upload_exact_multiple_extra_chunk_witness :
  len (upload_payload toy_encrypt two_chunks w_plain)
  = 2 * FILE_MAX_SIZE_BYTES
  ∧ ∃ ids w',
      upload_file toy_encrypt two_chunks 2 "f" w_plain = (Ok ids, w')
      ∧ length (split_chunks FILE_MAX_SIZE_BYTES
                  (upload_payload toy_encrypt two_chunks w_plain))
        = Z.to_nat (2 + 1)
      ∧ length ids = Z.to_nat (2 + 1)
      ∧ m_media <$> last (channel (client w')) = Some [].
Proof.
  assert (H : len (upload_payload toy_encrypt two_chunks w_plain)
              = 2 * FILE_MAX_SIZE_BYTES).
  { rewrite upload_payload_no_key by reflexivity.
    unfold two_chunks, len. rewrite length_replicate.
    rewrite Z2Nat.id; [reflexivity|done]. }
  split; [exact H|].
  apply (upload_exact_multiple_extra_chunk toy_encrypt w_plain two_chunks 2
           "f" 2); [lia|exact H].
Defined.

(** The off-by-one at a small scale: four bytes with a limit of two are
    cut into three chunks, the last one empty. *)
Example split_chunks_small :
  split_chunks 2 (bs "abcd") = [bs "ab"; bs "cd"; []].
Proof. vm_compute. reflexivity. Qed.

Lemma release_flush_order_witness :
  write_buffer w_rewritten ≠ []
  ∧ ∃ done tail,
      done `prefix_of`
        flush_events toy_encrypt 2 (write_buffer w_rewritten) w_rewritten
      ∧ trace (snd (release toy_encrypt 2 w_rewritten))
        = trace w_rewritten ++ done ++ tail
      ∧ (fst (release toy_encrypt 2 w_rewritten) = Ok tt →
         done = flush_events toy_encrypt 2 (write_buffer w_rewritten)
                  w_rewritten)
      ∧ (world_ok w_rewritten →
         (∃ row b, contents_by_inode 2 (db w_rewritten) = [row]
                   ∧ c_name row = NBytes b ∧ utf8_valid b = true) →
         done = flush_events toy_encrypt 2 (write_buffer w_rewritten)
                  w_rewritten)
      ∧ (tail = []
         ∨ done = flush_events toy_encrypt 2 (write_buffer w_rewritten)
                    w_rewritten
           ∧ tail = [EvExecute (DeleteInode 2); EvCommit]).
Proof.
  assert (H : write_buffer w_rewritten ≠ []) by (vm_compute; discriminate).
  split; [exact H|].
  exact (release_flush_order toy_encrypt w_rewritten 2 H).
Defined.

(** The steps of that flush, spelled out: the file held [b'hello'] in
    message 1 and now gets [b'hello world'] in message 2. *)
Example flush_steps_example :
  fst (release toy_encrypt 2 w_rewritten) = Ok tt
  ∧ trace (snd (release toy_encrypt 2 w_rewritten))
    = trace w_rewritten
      ++ [EvBufferReset (bs "hello world");
          EvSendFile {| m_id := 2; m_file_name := "f_part0.txt";
                        m_media := bs "hello world" |};
          EvDeleteMessages [1];
          EvExecute (DeleteMessages 2);
          EvExecute (InsertMessage 2 2);
          EvExecute (UpdateInode col_size 11 2);
          EvCommit].
Proof. vm_compute. done. Qed.

Lemma can_create_f_plain : can_create 1 name_f w_plain.
Proof.
  split_and!; [eexists; vm_compute; reflexivity|vm_compute; discriminate
              |vm_compute; reflexivity].
Qed.

Lemma can_create_f_keyed : can_create 1 name_f w_keyed.
Proof.
  split_and!; [eexists; vm_compute; reflexivity|vm_compute; discriminate
              |vm_compute; reflexivity].
Qed.

Lemma unused_inode_plain :
  unused_inode (next_inode_id (inodes (db w_plain))) w_plain.
Proof. split_and!; vm_compute; reflexivity. Qed.

Lemma unused_inode_keyed :
  unused_inode (next_inode_id (inodes (db w_keyed))) w_keyed.
Proof. split_and!; vm_compute; reflexivity. Qed.

Lemma write_read_roundtrip_witness :
  len (bs "hello") ≤ CACHE_MAXSIZE
  ∧ fst (write_release_read toy_encrypt toy_decrypt 1 name_f 33188 0 ctx0
           (bs "hello") w_keyed) = Ok (bs "hello").
Proof.
  assert (H : len (bs "hello") ≤ CACHE_MAXSIZE) by (vm_compute; discriminate).
  split; [exact H|].
  apply (write_read_roundtrip toy_encrypt toy_decrypt w_keyed 1 (bs "f")
           33188 0 ctx0 (bs "hello")).
  - apply mount_world_ok.
  - reflexivity.
  - intros key iv d _. apply toy_inverts.
  - exact can_create_f_keyed.
  - reflexivity.
  - exact unused_inode_keyed.
  - exact H.
Defined.

(** C1 as stated fails: a plaintext of [CACHE_MAXSIZE + 1] bytes written
    to a fresh file is uploaded, but the read after the release returns the
    empty byte string. *)
Lemma write_read_roundtrip_counterexample :
  fst (write_release_read toy_encrypt toy_decrypt 1 name_f 33188 0 ctx0
         oversize w_plain) = Ok []
  ∧ fst (write_release_read toy_encrypt toy_decrypt 1 name_f 33188 0 ctx0
           oversize w_plain) ≠ Ok oversize.
Proof.
  assert (Hlen : len oversize = CACHE_MAXSIZE + 1).
  { unfold oversize, len. rewrite length_replicate.
    rewrite Z2Nat.id; [reflexivity|done]. }
  assert (H : fst (write_release_read toy_encrypt toy_decrypt 1 name_f 33188
                     0 ctx0 oversize w_plain) = Ok []).
  { apply (write_read_oversize toy_encrypt toy_decrypt w_plain 1 (bs "f")
             33188 0 ctx0 oversize).
    - apply mount_world_ok.
    - reflexivity.
    - intros key iv d _. apply toy_inverts.
    - exact can_create_f_plain.
    - reflexivity.
    - exact unused_inode_plain.
    - rewrite Hlen. lia. }
  split; [exact H|].
  rewrite H. intros Heq. injection Heq as Heq.
  apply (f_equal len) in Heq. rewrite Hlen in Heq.
  unfold len, CACHE_MAXSIZE in Heq. simpl in Heq. lia.
Qed.

Lemma read_swallows_decryption_failure_witness :
  lru_find 2 (cached_files (client w_tampered)) = None
  ∧ messages_by_inode 2 (db w_tampered) ≠ []
  ∧ encryption_key (client w_tampered) = Some "k"%string
  ∧ remote_payload 2 w_tampered ≫= toy_decrypt "k" = None
  ∧ fst (read toy_decrypt 2 0 6 w_tampered) = Ok [].
Proof.
  split_and!; [vm_compute; reflexivity|vm_compute; discriminate
              |vm_compute; reflexivity|vm_compute; reflexivity|].
  eapply (read_swallows_decryption_failure toy_decrypt w_tampered 2 0 6);
    [vm_compute; reflexivity|vm_compute; reflexivity|vm_compute; discriminate
    |vm_compute; reflexivity|vm_compute; reflexivity|vm_compute; reflexivity].
Defined.

(** C4 as stated fails: with a key, [b'secret'] written and released, and
    one byte of the remote document altered, the next read does not fail
    with [EIO]; it returns the empty byte string. *)
Lemma read_integrity_counterexample :
  remote_payload 2 w_secret ≫= toy_decrypt "k" = Some (bs "secret")
  ∧ remote_payload 2 w_tampered ≫= toy_decrypt "k" = None
  ∧ fst (read toy_decrypt 2 0 6 w_tampered) = Ok []
  ∧ fst (read toy_decrypt 2 0 6 w_tampered) ≠ Raise (FUSEError EIO).
Proof. split_and!; vm_compute; done. Qed.

(** C5. On the file [f] holding [b'hello'], [setattr] with [update_size]
    to 2, applied twice, leaves the size column at 2, but the truncated
    data are never stored: a read of the whole file afterwards returns all
    five bytes, with a file handle and without one. *)
Theorem truncate_leaves_content :
  let twice fh :=
    (open 2 0 ;;
     setattr toy_decrypt 2 (attr_size 2) size_only fh ;;
     e <- setattr toy_decrypt 2 (attr_size 2) size_only fh ;;
     d <- read toy_decrypt 2 0 5 ;;
     ret (st_size e, d))%monad in
  fst (twice (Some 2) w_flushed) = Ok (2, bs "hello")
  ∧ fst (twice None w_flushed) = Ok (2, bs "hello").
Proof. split; vm_compute; reflexivity. Qed.

(** A file whose name is not UTF-8: [release] takes the buffer, fails to
    decode the name and raises; nothing is uploaded and the data are
    gone. *)
Example release_with_undecodable_name :
  let run :=
    (fe <- create 1 (NBytes ["255"%byte]) 33188 0 ctx0 ;;
     write toy_decrypt (fst fe) 0 (bs "x") ;;
     release toy_encrypt (fst fe))%monad w_plain in
  fst run = Raise UnicodeDecodeError
  ∧ write_buffer (snd run) = []
  ∧ channel (client (snd run)) = [].
Proof. vm_compute. done. Qed.

(** A file with two links: [release] takes the buffer and raises
    [NoUniqueValueError] when it asks for the name; only the first step of
    the flush has happened. *)
Example release_with_two_links :
  let run :=
    (fe <- create 1 name_f 33188 0 ctx0 ;;
     link (fst fe) 1 name_g ;;
     write toy_decrypt (fst fe) 0 (bs "x") ;;
     w <- get ;;
     release toy_encrypt (fst fe) ;;
     ret w)%monad w_plain in
  fst (release toy_encrypt 2 w_created) = Ok tt
  ∧ fst run = Raise NoUniqueValueError
  ∧ write_buffer (snd run) = []
  ∧ channel (client (snd run)) = [].
Proof. vm_compute. done. Qed.

Lemma release_flush_abandoned_witness :
  let w := w_two_links_written in
  write_buffer w = bs "x"
  ∧ (c_name <$> contents_by_inode 2 (db w)) = [name_f; name_g]
  ∧ ∃ w', release toy_encrypt 2 w = (Raise NoUniqueValueError, w')
      ∧ trace w' = trace w ++ [EvBufferReset (bs "x")]
      ∧ trace w' ≠ trace w ++ flush_events toy_encrypt 2 (bs "x") w
      ∧ write_buffer w' = []
      ∧ db w' = db w
      ∧ channel (client w') = [].
Proof.
  intros w. split_and!; [vm_compute; reflexivity..|].
  destruct (release_flush_abandoned toy_encrypt w 2)
    as (w' & Hr & Ht & Hne & Hb & Hd & Hc).
  - vm_compute. discriminate.
  - vm_compute. discriminate.
  - exists w'. split_and!.
    + etrans; [exact Hr|]. vm_compute. reflexivity.
    + etrans; [exact Ht|]. vm_compute. reflexivity.
    + intros H. apply Hne. etrans; [exact H|]. vm_compute. reflexivity.
    + exact Hb.
    + exact Hd.
    + etrans; [exact Hc|]. vm_compute. reflexivity.
Defined.

(** The same for a file without a directory entry: [f] is open when [g] is
    renamed over it, and what is written to it afterwards is lost when it
    is released; [release] raises [NoSuchRowError]. *)
Example release_of_replaced_file :
  let run :=
    (write toy_decrypt 2 0 (bs "x") ;;
     release toy_encrypt 2)%monad w_replaced_open in
  contents_by_inode 2 (db w_replaced_open) = []
  ∧ fst run = Raise NoSuchRowError
  ∧ write_buffer (snd run) = []
  ∧ trace (snd run) = trace w_replaced_open ++ [EvBufferReset (bs "x")]
  ∧ channel (client (snd run)) = channel (client w_replaced_open).
Proof. vm_compute. done. Qed.

(** *** Instances of the further properties *)

Lemma chunks_partition_witness :
  0 < 2
  ∧ mjoin (split_chunks 2 (bs "hello")) = bs "hello"
  ∧ Forall (λ c, len c ≤ 2) (split_chunks 2 (bs "hello")).
Proof. split; [lia|]. apply chunks_partition. lia. Defined.

Lemma chunks_count_witness :
  len (split_chunks 2 (bs "hello")) = (len (bs "hello") + 2 - 1) `div` 2
  ∧ Forall (λ c, c ≠ []) (split_chunks 2 (bs "hello")).
Proof.
  apply chunks_count; [lia|vm_compute; reflexivity|].
  right. vm_compute. discriminate.
Defined.

Lemma read_only_upcalls_witness :
  snd (handle toy_encrypt toy_decrypt (Readdir 1 0) w_created) = w_created.
Proof. apply read_only_upcalls. exact I. Defined.

Lemma read_served_from_cache_witness :
  lru_find 2 (cached_files (client w_read)) = Some (bs "hello")
  ∧ fst (read toy_decrypt 2 1 3 w_read) = Ok (slice 1 (1 + 3) (bs "hello")).
Proof.
  split; [vm_compute; reflexivity|].
  eapply (read_served_from_cache toy_decrypt 2 1 3 w_read);
    [vm_compute; reflexivity|vm_compute; reflexivity|discriminate].
Defined.

Lemma read_of_missing_messages_witness :
  messages_by_inode 2 (db w_lost) ≠ []
  ∧ remote_payload 2 w_lost = None
  ∧ fst (read toy_decrypt 2 0 5 w_lost) = Ok [].
Proof.
  split_and!; [vm_compute; discriminate|vm_compute; reflexivity|].
  eapply (read_of_missing_messages toy_decrypt 2 0 5 w_lost);
    [vm_compute; reflexivity|vm_compute; reflexivity|vm_compute; discriminate
    |vm_compute; reflexivity].
Defined.

Lemma create_then_lookup_witness :
  can_create 1 name_f w_plain
  ∧ ∃ e w1, create 1 name_f 33188 0 ctx0 w_plain = (Ok (st_ino e, e), w1)
      ∧ lookup 1 name_f w1 = (Ok e, w1).
Proof.
  split; [exact can_create_f_plain|].
  destruct (create_then_lookup w_plain 1 (bs "f") 33188 0 ctx0
              can_create_f_plain)
    as (e & w1 & Hc & _ & _ & _ & _ & _ & _ & Hl & _).
  exists e, w1. split; [exact Hc|exact Hl].
Defined.

Lemma symlink_then_readlink_witness :
  can_create 1 name_f w_plain
  ∧ ∃ e w1, symlink 1 name_f (bs "target") ctx0 w_plain = (Ok e, w1)
      ∧ readlink (st_ino e) w1 = (Ok (Some (bs "target")), w1).
Proof.
  split; [exact can_create_f_plain|].
  destruct (symlink_then_readlink w_plain 1 name_f (bs "target") ctx0
              can_create_f_plain) as (e & w1 & Hs & _ & Hr).
  exists e, w1. split; [exact Hs|exact Hr].
Defined.

Lemma entry_needs_linked_parent_witness :
  inodes (db w_plain) !! 42 = None
  ∧ _create 42 name_f 33188 ctx0 0 None w_plain
    = (Raise (FUSEError ENOENT), w_plain)
  ∧ link 1 42 name_f w_plain = (Raise (FUSEError ENOENT), w_plain).
Proof.
  split; [reflexivity|].
  apply (entry_needs_linked_parent w_plain 42 name_f 33188 ctx0 0 None 1).
  left. reflexivity.
Defined.

Lemma create_existing_name_leaves_inode_witness :
  contents_by_name name_f 1 (db w_created) ≠ []
  ∧ ∃ w1, _create 1 name_f 33188 ctx0 0 None w_created
          = (Raise IntegrityError, w1)
      ∧ contents (db w1) = contents (db w_created)
      ∧ is_Some (inodes (db w1) !! 3).
Proof.
  split; [vm_compute; discriminate|].
  destruct (create_existing_name_leaves_inode w_created 1 name_f 33188 ctx0
              0 None) as (w1 & Hr & _ & Hi & Hc & _);
    [eexists; vm_compute; reflexivity|vm_compute; discriminate
    |vm_compute; discriminate|].
  exists w1. split_and!; [exact Hr|exact Hc|].
  rewrite Hi. eexists. vm_compute. reflexivity.
Defined.

Lemma can_create_h_two_files : can_create 1 name_h w_two_files.
Proof.
  split_and!; [eexists; vm_compute; reflexivity|vm_compute; discriminate
              |vm_compute; reflexivity].
Qed.

Lemma link_adds_link_witness :
  can_create 1 name_h w_two_files
  ∧ ∃ e w1, link 3 1 name_h w_two_files = (Ok e, w1)
      ∧ st_nlink e = 2
      ∧ lookup 1 name_h w1 = (Ok e, w1).
Proof.
  split; [exact can_create_h_two_files|].
  edestruct link_adds_link
    with (w := w_two_files) (i := 3) (p := 1) (b := bs "h")
    as (e & w1 & Hr & _ & Hn & _ & Hl);
    [vm_compute; reflexivity|exact can_create_h_two_files|].
  exists e, w1. split_and!; [exact Hr|exact Hn|exact Hl].
Defined.

Lemma link_missing_inode_leaves_entry_witness :
  inodes (db w_two_files) !! 42 = None
  ∧ ∃ w1, link 42 1 name_h w_two_files = (Raise (FUSEError ENOENT), w1)
      ∧ contents_by_name name_h 1 (db w1) ≠ [].
Proof.
  split; [vm_compute; reflexivity|].
  destruct (link_missing_inode_leaves_entry w_two_files 42 1 (bs "h"))
    as (w1 & Hr & Hc & _); [vm_compute; reflexivity
                           |exact can_create_h_two_files|].
  exists w1. split; [exact Hr|].
  unfold contents_by_name. rewrite Hc. vm_compute. discriminate.
Defined.

Lemma unlink_last_link_witness :
  messages_by_inode 3 (db w_two_files) = [{| t_id := 1; t_inode := 3 |}]
  ∧ ∃ w', unlink 1 name_f w_two_files = (Ok tt, w')
      ∧ inodes (db w') !! 3 = None
      ∧ messages_by_inode 3 (db w') = []
      ∧ channel (client w') = []
      ∧ lookup 1 name_f w' = (Raise (FUSEError ENOENT), w').
Proof.
  split; [vm_compute; reflexivity|].
  edestruct (unlink_last_link w_two_files 1 (bs "f")
               {| c_rowid := 3; c_name := name_f; c_inode := 3;
                  c_parent_inode := 1 |})
    as (w' & Hr & Hi & Hm & Hc & Hl & _);
    [vm_compute; reflexivity..|].
  exists w'. split_and!; [exact Hr| |exact Hm| |exact Hl].
  - rewrite Hi. apply lookup_delete_eq.
  - etrans; [exact Hc|]. vm_compute. reflexivity.
Defined.

Lemma unlink_one_of_links_witness :
  len (contents_by_inode 3 (db w_linked)) = 2
  ∧ ∃ w' e, unlink 1 name_h w_linked = (Ok tt, w')
      ∧ channel (client w') = channel (client w_linked)
      ∧ getattr 3 w' = (Ok e, w')
      ∧ st_nlink e = 1.
Proof.
  split; [vm_compute; reflexivity|].
  edestruct (unlink_one_of_links w_linked 1 (bs "h")
               {| c_rowid := 4; c_name := name_h; c_inode := 3;
                  c_parent_inode := 1 |})
    as (w' & e & Hr & _ & _ & Hc & _ & Hg & Hn);
    [vm_compute; reflexivity..|].
  exists w', e. split_and!; [exact Hr|exact Hc|exact Hg|].
  etrans; [exact Hn|]. vm_compute. reflexivity.
Defined.

Lemma remove_type_errors_witness :
  contents_by_parent 2 (db w_dir) ≠ []
  ∧ unlink 1 name_d w_dir = (Raise (FUSEError EISDIR), w_dir)
  ∧ rmdir 1 name_d w_dir = (Raise (FUSEError ENOTEMPTY), w_dir)
  ∧ rmdir 2 name_f w_dir = (Raise (FUSEError ENOTDIR), w_dir).
Proof.
  assert (Hc : contents_by_parent 2 (db w_dir) ≠ [])
    by (vm_compute; discriminate).
  split; [exact Hc|].
  pose proof (remove_type_errors w_dir 1 (bs "d")
                {| c_rowid := 2; c_name := name_d; c_inode := 2;
                   c_parent_inode := 1 |}
                {| i_uid := 1000; i_gid := 1000; i_mode := 16877;
                   i_mtime_ns := 0; i_atime_ns := 0; i_ctime_ns := 0;
                   i_target := None; i_size := 0; i_rdev := 0 |}
                eq_refl eq_refl) as [Hu Hr].
  pose proof (remove_type_errors w_dir 2 (bs "f")
                {| c_rowid := 3; c_name := name_f; c_inode := 3;
                   c_parent_inode := 2 |}
                {| i_uid := 1000; i_gid := 1000; i_mode := 33188;
                   i_mtime_ns := 0; i_atime_ns := 0; i_ctime_ns := 0;
                   i_target := None; i_size := 0; i_rdev := 0 |}
                eq_refl eq_refl) as Hf.
  split_and!; [exact Hu|exact (Hr Hc)|exact Hf].
Defined.

Lemma rename_moves_entry_witness :
  contents_by_name name_h 1 (db w_two_files) = []
  ∧ ∃ e w', lookup 1 name_f w_two_files = (Ok e, w_two_files)
      ∧ rename 1 name_f 1 name_h 0 w_two_files = (Ok tt, w')
      ∧ lookup 1 name_h w' = (Ok e, w')
      ∧ lookup 1 name_f w' = (Raise (FUSEError ENOENT), w').
Proof.
  split; [vm_compute; reflexivity|].
  edestruct (rename_moves_entry w_two_files 1 (bs "f") 1 (bs "h")
               {| c_rowid := 3; c_name := name_f; c_inode := 3;
                  c_parent_inode := 1 |})
    as (e & w' & H1 & H2 & H3 & H4 & _);
    [vm_compute; reflexivity|vm_compute; reflexivity|vm_compute; reflexivity
    |discriminate|].
  exists e, w'. split_and!; [exact H1|exact H2|exact H3|exact H4].
Defined.

Lemma open_then_release_witness :
  inode_open_count w_flushed !! 2 = None
  ∧ (open 2 0 ;; release toy_encrypt 2)%monad w_flushed = (Ok tt, w_flushed).
Proof.
  split; [vm_compute; reflexivity|].
  eapply (open_then_release toy_encrypt w_flushed 2 0);
    [vm_compute; reflexivity|vm_compute; reflexivity|vm_compute; discriminate
    |vm_compute; discriminate].
Defined.

Lemma release_forgets_unlinked_witness :
  contents_by_inode 2 (db w_replaced_open) = []
  ∧ inode_open_count w_replaced_open !! 2 = Some 1
  ∧ ∃ w', release toy_encrypt 2 w_replaced_open = (Ok tt, w')
      ∧ inodes (db w') !! 2 = None
      ∧ inode_open_count w' !! 2 = None.
Proof.
  split_and!; [vm_compute; reflexivity..|].
  edestruct (release_forgets_unlinked toy_encrypt w_replaced_open 2)
    as (w' & Hr & Hi & Ho & _); [vm_compute; reflexivity..|].
  exists w'. split_and!; [exact Hr| |].
  - rewrite Hi. apply lookup_delete_eq.
  - rewrite Ho. apply lookup_delete_eq.
Defined.

Lemma release_failure_drops_buffer_witness :
  write_buffer w_linked_written = bs "oldx"
  ∧ len (contents_by_inode 3 (db w_linked_written)) = 2
  ∧ ∃ e w', release toy_encrypt 3 w_linked_written = (Raise e, w')
      ∧ write_buffer w' = []
      ∧ channel (client w') = channel (client w_linked_written).
Proof.
  split_and!; [vm_compute; reflexivity..|].
  destruct (release_failure_drops_buffer toy_encrypt w_linked_written 3)
    as (e & w' & Hr & Hb & _ & Hc & _).
  - vm_compute. discriminate.
  - intros row b H. vm_compute in H. discriminate.
  - exists e, w'. split_and!; [exact Hr|exact Hb|exact Hc].
Defined.

Lemma readdir_resumes_witness :
  let w := serve toy_encrypt toy_decrypt two_creates (mount None 1000 1000 0) in
  let replies := value_of [] (readdir 1 0 w) in
  snd <$> replies = [1; 2; 3]
  ∧ readdir 1 2 w = (Ok (drop 2 replies), w).
Proof.
  intros w replies.
  split; [vm_compute; reflexivity|].
  set (rep := default (name_f, no_entry, 0) (replies !! 1%nat)).
  apply (readdir_resumes toy_encrypt toy_decrypt None 1000 1000 0 two_creates
           1 0 (take 1 replies) rep.1.1 rep.1.2 2 (drop 2 replies) w).
  vm_compute. reflexivity.
Defined.

Lemma can_create_d_plain : can_create 1 name_d w_plain.
Proof.
  split_and!; [eexists; vm_compute; reflexivity|vm_compute; discriminate
              |vm_compute; reflexivity].
Qed.

Lemma mkdir_then_rmdir_witness :
  S_ISDIR 16877 = true
  ∧ ∃ w2, (mkdir 1 name_d 16877 ctx0 ;; rmdir 1 name_d)%monad w_plain
          = (Ok tt, w2)
      ∧ inodes (db w2) = inodes (db w_plain)
      ∧ contents (db w2) = contents (db w_plain).
Proof.
  split; [reflexivity|].
  destruct (mkdir_then_rmdir w_plain 1 (bs "d") 16877 ctx0)
    as (w2 & Hr & Hi & Hc & _);
    [exact can_create_d_plain|reflexivity|exact unused_inode_plain
    |vm_compute; reflexivity|vm_compute; reflexivity|].
  exists w2. split_and!; [exact Hr|exact Hi|exact Hc].
Defined.

Lemma deleted_content_reappears_witness :
  lru_find 2 (cached_files (client w_read)) = Some (bs "hello")
  ∧ ∃ e w',
      (unlink 1 name_f ;; create 1 name_f 33188 0 ctx0)%monad w_read
      = (Ok (2, e), w')
      ∧ st_size e = 0
      ∧ fst (read toy_decrypt 2 0 5 w') = Ok (bs "hello")
      ∧ write_buffer (snd (write toy_decrypt 2 0 (bs "HI") w')) = bs "HIllo".
Proof.
  split; [vm_compute; reflexivity|].
  edestruct (deleted_content_reappears toy_decrypt w_read 1 (bs "f")
               {| c_rowid := 2; c_name := name_f; c_inode := 2;
                  c_parent_inode := 1 |})
    with (v := bs "hello") (mode := 33188) (flags := 0) (ctx := ctx0)
         (n := 5%nat) (buf := bs "HI")
    as (e & w' & H1 & H2 & H3 & H4);
    [vm_compute; reflexivity|vm_compute; reflexivity|vm_compute; reflexivity
    |vm_compute; reflexivity|vm_compute; reflexivity|vm_compute; reflexivity
    |eexists; vm_compute; reflexivity|vm_compute; discriminate
    |vm_compute; reflexivity|vm_compute; reflexivity|discriminate
    |vm_compute; reflexivity|].
  exists e, w'. split_and!; [exact H1|exact H2|exact H3|exact H4].
Defined.

Lemma upload_then_download_witness :
  len (bs "hello") ≤ lru_maxsize (cached_files (client w_keyed))
  ∧ ∃ ids w1 w2,
      upload_file toy_encrypt (bs "hello") 7 "f" w_keyed = (Ok ids, w1)
      ∧ download_file toy_decrypt 7 ids w1 = (Ok (bs "hello"), w2).
Proof.
  assert (Hfit : len (bs "hello")
                 ≤ lru_maxsize (cached_files (client w_keyed)))
    by (vm_compute; discriminate).
  split; [exact Hfit|].
  destruct (upload_then_download toy_encrypt toy_decrypt w_keyed
              (bs "hello") 7 "f") as (ids & w1 & w2 & Hu & _ & Hd).
  - intros m Hm. vm_compute in Hm. by apply elem_of_nil in Hm.
  - intros key iv d _. apply toy_inverts.
  - exact Hfit.
  - exists ids, w1, w2. split; [exact Hu|exact Hd].
Defined.

Lemma rename_replaces_target_witness :
  ∃ e w',
    rename 1 name_g 1 name_f 0 w_two_files = (Ok tt, w')
    ∧ lookup 1 name_f w' = (Ok e, w')
    ∧ st_ino e = 2
    ∧ lookup 1 name_g w' = (Raise (FUSEError ENOENT), w')
    ∧ inodes (db w') !! 3 = None.
Proof.
  edestruct (rename_replaces_target w_two_files 1 (bs "g") 1 (bs "f")
               {| c_rowid := 2; c_name := name_g; c_inode := 2;
                  c_parent_inode := 1 |})
    with (row' := {| c_rowid := 3; c_name := name_f; c_inode := 3;
                     c_parent_inode := 1 |})
    as (e & w' & H1 & H2 & H3 & _ & _ & H4 & H5);
    [vm_compute; reflexivity|vm_compute; reflexivity|vm_compute; reflexivity
    |vm_compute; reflexivity|discriminate|vm_compute; reflexivity
    |vm_compute; reflexivity|vm_compute; reflexivity|].
  exists e, w'. split_and!; [exact H1|exact H2|exact H3|exact H4|].
  rewrite H5. apply lookup_delete_eq.
Defined.

Lemma world_ok_rewritten : world_ok w_rewritten.
Proof.
  split_and!; [vm_compute; reflexivity| |];
    apply Forall_forall; apply (bool_decide_unpack _); vm_compute; exact I.
Qed.

Lemma release_stores_buffer_witness :
  write_buffer w_rewritten = bs "hello world"
  ∧ t_id <$> messages_by_inode 2 (db w_rewritten) = [1]
  ∧ ∃ w' irow',
      release toy_encrypt 2 w_rewritten = (Ok tt, w')
      ∧ write_buffer w' = []
      ∧ remote_payload 2 w' = Some (bs "hello world")
      ∧ t_id <$> messages_by_inode 2 (db w') = [2]
      ∧ m_id <$> channel (client w') = [2]
      ∧ inodes (db w') !! 2 = Some irow'
      ∧ i_size irow' = 11.
Proof.
  split_and!; [vm_compute; reflexivity..|].
  edestruct (release_stores_buffer toy_encrypt w_rewritten 2
               {| c_rowid := 2; c_name := name_f; c_inode := 2;
                  c_parent_inode := 1 |} (bs "f"))
    as (w' & irow' & H1 & H2 & H3 & H4 & H5 & H6 & H7 & _);
    [exact world_ok_rewritten|vm_compute; discriminate
    |vm_compute; reflexivity|vm_compute; reflexivity|reflexivity
    |vm_compute; reflexivity|].
  exists w', irow'. split_and!; [exact H1|exact H2| | | |exact H6|].
  - etrans; [exact H3|]. vm_compute. reflexivity.
  - etrans; [exact H4|]. vm_compute. reflexivity.
  - rewrite H5. vm_compute. reflexivity.
  - etrans; [exact H7|]. vm_compute. reflexivity.
Defined.


Lemma world_ok_two_files : world_ok w_two_files.
Proof.
  split_and!; [vm_compute; reflexivity| |];
    apply Forall_forall; apply (bool_decide_unpack _); vm_compute; exact I.
Qed.

Lemma writes_of_two_handles_mix_witness :
  ∃ w',
    (write toy_decrypt 2 0 (bs "ab") ;; write toy_decrypt 3 2 (bs "cd") ;;
     release toy_encrypt 3 ;; release toy_encrypt 2)%monad w_two_files
    = (Ok tt, w')
    ∧ remote_payload 3 w' = Some (bs "abcd")
    ∧ messages_by_inode 2 (db w') = [].
Proof.
  edestruct (writes_of_two_handles_mix toy_encrypt toy_decrypt w_two_files
               2 3 (bs "ab") (bs "cd"))
    with (rowb := {| c_rowid := 3; c_name := name_f; c_inode := 3;
                     c_parent_inode := 1 |}) (nb := bs "f")
    as (w' & H1 & H2 & H3 & _);
    [exact world_ok_two_files|vm_compute; reflexivity|discriminate
    |discriminate|vm_compute; reflexivity|vm_compute; discriminate
    |vm_compute; reflexivity|vm_compute; reflexivity|vm_compute; reflexivity
    |vm_compute; reflexivity|reflexivity|vm_compute; reflexivity|].
  exists w'. split_and!; [exact H1| |exact H3].
  etrans; [exact H2|]. vm_compute. reflexivity.
Defined.
